(** * Dual-replica spatial / pipeline master

    A shallow embedding of [torchgems/train_spatial_master.py]: the partition
    validator [verify_spatial_master_config] and the orchestrator class
    [train_spatial_model_master] (flat parameter and gradient buffers, the
    cross-replica exchange protocol and the interleaved step scheduler).

    Python integers are [Z]; tensors are views (storage, offset, shape) into a
    heap of storages, so that aliasing is explicit; every call to an external
    collaborator (the communication substrate, the replica executor) is
    recorded, in program order, in a trace. *)

From Stdlib Require Import ZArith String Lia.
From stdpp Require Import base list.

Set Default Proof Using "Type".

(** ** Python values, exceptions and built-ins *)

Module Py.

(** The exceptions the embedded code can raise. *)
Inductive exn : Type :=
| AssertionError (msg : string)
| IndexError
| ZeroDivisionError
| RuntimeError
| ValueError
| TypeError.

(** A call either returns a value or raises. *)
Inductive result (A : Type) : Type :=
| Ok (a : A)
| Raise (e : exn).
Arguments Ok {A} a.
Arguments Raise {A} e.

Definition bind {A B : Type} (r : result A) (k : A -> result B) : result B :=
  match r with
  | Ok a => k a
  | Raise e => Raise e
  end.

Definition is_ok {A : Type} (r : result A) : bool :=
  match r with Ok _ => true | Raise _ => false end.

(** [assert cond, msg] *)
Definition assert (cond : bool) (msg : string) : result unit :=
  if cond then Ok tt else Raise (AssertionError msg).

(** [l[i]] on a list, with Python's negative indices. *)
Definition index {A : Type} (l : list A) (i : Z) : result A :=
  let len := Z.of_nat (length l) in
  let j := (if i <? 0 then i + len else i)%Z in
  if (j <? 0)%Z then Raise IndexError
  else match l !! Z.to_nat j with
       | Some a => Ok a
       | None => Raise IndexError
       end.

(** [int(a / b)] on integers: true division, then truncation toward zero.
    (The quotient is exact as long as it fits a double, that is for every
    size a batch or a process group can have.) *)
Definition int_truediv (a b : Z) : result Z :=
  if (b =? 0)%Z then Raise ZeroDivisionError else Ok (Z.quot a b).

(** [range(n)] *)
Definition range (n : Z) : list Z := map Z.of_nat (seq 0 (Z.to_nat n)).

(** The bounds of [s[start:stop]] for a sequence of length [len]: a missing
    bound is the end of the sequence, a negative bound counts from the end,
    and both are clamped to [0, len]. *)
Definition adjust (len : Z) (i : Z) : Z :=
  let j := (if i <? 0 then i + len else i)%Z in
  Z.max 0 (Z.min len j).

Definition slice_bounds (len : Z) (start stop : option Z) : Z * Z :=
  (match start with Some i => adjust len i | None => 0%Z end,
   match stop with Some i => adjust len i | None => len end).

(** [s[start:stop]] *)
Definition slice {A : Type} (s : list A) (start stop : option Z) : list A :=
  let '(lo, hi) := slice_bounds (Z.of_nat (length s)) start stop in
  take (Z.to_nat (hi - lo)) (drop (Z.to_nat lo) s).

End Py.

Import Py.

Declare Scope py_scope.
Delimit Scope py_scope with py.
Notation "x <- c1 ;; c2" := (Py.bind c1 (fun x => c2))
  (at level 100, c1 at next level, right associativity) : py_scope.

(** ** Partition validator *)

Section PartitionValidator.

(** The generic spatial validator [verify_spatial_config] is imported from
    [torchgems.train_spatial]; it is a parameter of this development. It
    either passes or raises. *)
Variable verify_spatial_config : string -> Z -> list Z -> result unit.

Definition rank_overlap_msg : string :=
  "Spatial parts from each models i.e. model1 and model2 should use different ranks (cuda devices); To avoid this, increase the split size by keeping other configuration same.".

Definition verify_spatial_master_config
    (slice_method : string) (image_size : Z)
    (num_spatial_parts_list : list Z) (spatial_size mp_size : Z)
  : result unit :=
  (spatial_part_size <- Py.index num_spatial_parts_list 0 ;;
   _ <- verify_spatial_config slice_method image_size num_spatial_parts_list ;;
   Py.assert (mp_size >=? 2 * spatial_part_size)%Z rank_overlap_msg)%py.

End PartitionValidator.

(** ** Tensors over a heap of storages *)

(** The numbers held by tensors and accumulated by the step scheduler, with
    the zero written [0] and the addition written [+] in the source. *)
Class Scalar : Type := {
  scalar : Type;
  szero : scalar;
  sadd : scalar -> scalar -> scalar;
}.

(** The heap: one list of scalars per storage. *)
Abbreviation heap := (list (list scalar)).

Module Torch.

(** A tensor is a contiguous, row-major view into a storage. Two tensors
    with the same storage alias each other where their ranges meet. *)
Record tensor : Type := {
  t_storage : nat;
  t_offset : nat;
  t_shape : list nat;
  t_requires_grad : bool;
}.

#[export] Instance tensor_eq_dec : EqDecision tensor.
Proof. solve_decision. Defined.

Definition numel_of (shape : list nat) : nat := foldr Nat.mul 1 shape.

(** [t.numel()] *)
Definition numel (t : tensor) : nat := numel_of (t_shape t).

(** [t[a:b]] for non-negative bounds: a slice along the first dimension,
    sharing the storage of [t]. *)
Definition slice (t : tensor) (a b : nat) : result tensor :=
  match t_shape t with
  | [] => Raise IndexError
  | d :: rest =>
      let lo := a `min` d in
      let hi := b `min` d in
      Ok {| t_storage := t_storage t;
            t_offset := t_offset t + lo * numel_of rest;
            t_shape := (hi - lo) :: rest;
            t_requires_grad := t_requires_grad t |}
  end.

(** [t.view(shape)]: same storage and offset, new shape; the element counts
    must agree. *)
Definition view (t : tensor) (shape : list nat) : result tensor :=
  if decide (numel_of shape = numel t)
  then Ok {| t_storage := t_storage t;
             t_offset := t_offset t;
             t_shape := shape;
             t_requires_grad := t_requires_grad t |}
  else Raise RuntimeError.

(** Position of the element [idx] of a row-major tensor of shape [shape]. *)
Fixpoint ravel (shape idx : list nat) : option nat :=
  match shape, idx with
  | [], [] => Some 0
  | d :: shape', i :: idx' =>
      if decide (i < d)
      then match ravel shape' idx' with
           | Some r => Some (i * numel_of shape' + r)
           | None => None
           end
      else None
  | _, _ => None
  end.

Section Heap.
Context `{Scalar}.

(** [torch.zeros(shape, requires_grad=rg)]: a fresh storage. *)
Definition zeros (shape : list nat) (rg : bool) (h : heap) : tensor * heap :=
  ({| t_storage := length h; t_offset := 0;
      t_shape := shape; t_requires_grad := rg |},
   h ++ [replicate (numel_of shape) szero]).

(** The tensor's storage range lies inside the heap. *)
Definition valid (h : heap) (t : tensor) : bool :=
  match h !! t_storage t with
  | Some s => bool_decide (t_offset t + numel t <= length s)
  | None => false
  end.

(** The elements of [t], in row-major order. *)
Definition contents (h : heap) (t : tensor) : list scalar :=
  take (numel t) (drop (t_offset t) (default [] (h !! t_storage t))).

(** Overwrite the elements of [t] with [vals]. *)
Definition store (h : heap) (t : tensor) (vals : list scalar) : heap :=
  alter (list_inserts (t_offset t) vals) (t_storage t) h.

(** [t.view(-1)[j]] *)
Definition get_flat (h : heap) (t : tensor) (j : nat) : result scalar :=
  if decide (j < numel t)
  then match h !! t_storage t ≫= (.!! (t_offset t + j)) with
       | Some x => Ok x
       | None => Raise RuntimeError
       end
  else Raise IndexError.

(** [t.view(-1)[j] = v] *)
Definition set_flat (h : heap) (t : tensor) (j : nat) (v : scalar)
  : result heap :=
  if decide (j < numel t)
  then Ok (alter (<[t_offset t + j := v]>) (t_storage t) h)
  else Raise IndexError.

(** [t[idx]] *)
Definition get (h : heap) (t : tensor) (idx : list nat) : result scalar :=
  match ravel (t_shape t) idx with
  | Some j => get_flat h t j
  | None => Raise IndexError
  end.

(** [t[idx] = v] *)
Definition set (h : heap) (t : tensor) (idx : list nat) (v : scalar)
  : result heap :=
  match ravel (t_shape t) idx with
  | Some j => set_flat h t j v
  | None => Raise IndexError
  end.

(** [a += b] for tensors of one shape, in place. (Broadcasting of
    unequal shapes is not modelled: it raises.) *)
Definition iadd (h : heap) (a b : tensor) : result heap :=
  if decide (t_shape a = t_shape b)
  then Ok (store h a (zip_with sadd (contents h a) (contents h b)))
  else Raise RuntimeError.

End Heap.

End Torch.

Import Torch.

(** ** Objects of the training driver *)

(** A [torch.nn.Parameter]: its [data] tensor and its [grad] slot. *)
Record parameter : Type := {
  p_data : tensor;
  p_grad : option tensor;
}.

(** [params.shape] *)
Definition p_shape (p : parameter) : list nat := t_shape (p_data p).

(** A communicator object ([mpi_comm_first], [mpi_comm_second]). *)
Record comm : Type := {
  comm_mp_size : Z;
  comm_local_rank : Z;
}.

(** A model generator: [models.parameters()] is the list of the parameter
    objects of the replica, named by their place in the parameter store. *)
Record model_gen : Type := {
  models : list nat;
  mg_split_size : Z;
}.

(** The attributes this file reads from a replica executor. *)
Record train_model : Type := {
  tm_local_rank : Z;
  tm_split_rank : Z;
  tm_split_size : Z;
}.

(** The two executors an orchestrator owns: [self.train_model1] and
    [self.train_model2]. *)
Inductive executor : Type := TrainModel1 | TrainModel2.

#[export] Instance executor_eq_dec : EqDecision executor.
Proof. solve_decision. Defined.

(** The arguments of the constructor [train_model_spatial(...)]. *)
Record tm_args (pyobj : Type) : Type := {
  a_model_gen : model_gen;
  a_local_rank : Z;
  a_batch_size : Z;
  a_epochs : Z;
  a_spatial_size : pyobj;
  a_num_spatial_parts : pyobj;
  a_criterion : pyobj;
  a_optimizer : pyobj;
  a_parts : Z;
  a_ASYNC : bool;
  a_GEMS_INVERSE : bool;
  a_slice_method : pyobj;
  a_LOCAL_DP_LP : pyobj;
  a_mpi_comm : comm;
}.
Arguments a_model_gen {pyobj} _.
Arguments a_local_rank {pyobj} _.
Arguments a_GEMS_INVERSE {pyobj} _.
Arguments a_mpi_comm {pyobj} _.

Section Memory.
Context `{Scalar}.

(** What the device and the interpreter hold: tensor storages and parameter
    objects. Both are shared between the orchestrator and the executors. *)
Record memory : Type := {
  m_heap : heap;
  m_params : list parameter;
}.

End Memory.

(** The replica executor ([torchgems.train_spatial.train_model_spatial]) is an
    external collaborator: its constructor and its two passes are an interface.
    A pass may read and write the whole memory. The constructor is taken to
    build the executor object from its arguments alone; what it may do to the
    memory or on the communicators is outside this model. *)
Class ReplicaExecutor `{Scalar} : Type := {
  sample : Type;
  label : Type;
  out : Type;
  pyobj : Type;
  (** [tensor.item()] on a result of [forward_pass] *)
  item : out -> scalar;
  train_model_spatial : tm_args pyobj -> train_model;
  forward_pass :
    executor -> memory -> list sample -> list label -> Z -> memory * (out * out);
  backward_pass : executor -> memory -> out -> Z -> memory;
}.

(** The communication substrate ([torch.distributed]) is external as well:
    [incoming r j] is element [j] of the message that the receive request
    [r] delivers. *)
Class Transport `{Scalar} : Type := {
  incoming : nat -> nat -> scalar;
}.

Section World.
Context `{Scalar} `{!ReplicaExecutor} `{!Transport}.

(** Calls to the collaborators, as they are issued. *)
Inductive event : Type :=
| Synchronize
| Isend (t : tensor) (dst tag : Z)
| Irecv (t : tensor) (src tag : Z)
| Wait (req : nat)
| ForwardPass (tm : executor) (x : list sample) (y : list label)
    (part_number : Z) (ret : out * out)
| BackwardPass (tm : executor) (y : out) (part_number : Z).

Record world : Type := {
  w_mem : memory;
  w_trace : list event;
}.

(** The handle [dist.isend] and [dist.irecv] return: the position of the
    issuing call in the trace and, for a receive, the destination tensor. *)
Record request : Type := {
  req_id : nat;
  req_recv : option tensor;
}.

(** Stateful, fallible computations. What a call did before it raised
    stays done, so the world is returned in both cases. *)
Definition M (A : Type) : Type := world -> result A * world.

Definition ret {A : Type} (a : A) : M A := fun w => (Ok a, w).

Definition mbind {A B : Type} (c : M A) (k : A -> M B) : M B :=
  fun w => match c w with
           | (Ok a, w') => k a w'
           | (Raise e, w') => (Raise e, w')
           end.

Definition lift {A : Type} (r : result A) : M A := fun w => (r, w).

Definition emit (e : event) : M unit :=
  fun w => (Ok tt, {| w_mem := w_mem w; w_trace := w_trace w ++ [e] |}).

Definition get_heap : M heap := fun w => (Ok (m_heap (w_mem w)), w).

Definition put_heap (h : heap) : M unit :=
  fun w => (Ok tt, {| w_mem := {| m_heap := h; m_params := m_params (w_mem w) |};
                      w_trace := w_trace w |}).

(** Read the parameter object [id]. *)
Definition get_param (id : nat) : M parameter :=
  fun w => match m_params (w_mem w) !! id with
           | Some p => (Ok p, w)
           | None => (Raise RuntimeError, w)
           end.

(** Update the parameter object [id] in place. *)
Definition modify_param (id : nat) (f : parameter -> parameter) : M unit :=
  fun w => (Ok tt, {| w_mem := {| m_heap := m_heap (w_mem w);
                                  m_params := alter f id (m_params (w_mem w)) |};
                      w_trace := w_trace w |}).

(** [for x in l: s = body(x, s)], the loop-carried variables being [s]. *)
Fixpoint for_in {A S : Type} (l : list A) (body : A -> S -> M S) (s : S)
  : M S :=
  match l with
  | [] => ret s
  | x :: l' => mbind (body x s) (for_in l' body)
  end.

End World.

Declare Scope st_scope.
Delimit Scope st_scope with st.
Notation "x <- c1 ;; c2" := (mbind c1 (fun x => c2))
  (at level 100, c1 at next level, right associativity) : st_scope.
Notation "c1 ;; c2" := (mbind c1 (fun _ => c2))
  (at level 100, right associativity) : st_scope.

(** ** The orchestrator: [class train_spatial_model_master] *)

Section Master.
Context `{Scalar} `{!ReplicaExecutor} `{!Transport}.

(** *** Primitives of torch and torch.distributed *)

(** [torch.zeros([n], requires_grad=rg, device="cuda")] *)
Definition torch_zeros (shape : list nat) (rg : bool) : M tensor :=
  fun w =>
    let r := zeros shape rg (m_heap (w_mem w)) in
    (Ok r.1, {| w_mem := {| m_heap := r.2; m_params := m_params (w_mem w) |};
                w_trace := w_trace w |}).

(** [torch.cuda.synchronize()] *)
Definition synchronize : M unit := emit Synchronize.

(** [dist.isend(tensor=t, dst=dst, tag=tag)] *)
Definition isend (t : tensor) (dst tag : Z) : M request :=
  fun w => (Ok {| req_id := length (w_trace w); req_recv := None |},
            {| w_mem := w_mem w; w_trace := w_trace w ++ [Isend t dst tag] |}).

(** [dist.irecv(tensor=t, src=src, tag=tag)] *)
Definition irecv (t : tensor) (src tag : Z) : M request :=
  fun w => (Ok {| req_id := length (w_trace w); req_recv := Some t |},
            {| w_mem := w_mem w; w_trace := w_trace w ++ [Irecv t src tag] |}).

(** [req.wait()]: returns once the transfer is complete; a completed
    receive has filled its destination tensor with the message. *)
Definition wait (req : request) : M unit :=
  (emit (Wait (req_id req)) ;;
   match req_recv req with
   | None => ret tt
   | Some t =>
       h <- get_heap ;;
       put_heap (store h t (map (incoming (req_id req)) (seq 0 (numel t))))
   end)%st.

(** [a += b] on tensors *)
Definition tensor_iadd (a b : tensor) : M unit :=
  (h <- get_heap ;;
   h' <- lift (iadd h a b) ;;
   put_heap h')%st.

(** [tm.forward_pass(x, y, part_number=i)] *)
Definition call_forward_pass (tm : executor) (x : list sample)
    (y : list label) (part_number : Z) : M (out * out) :=
  fun w =>
    let '(m, r) := forward_pass tm (w_mem w) x y part_number in
    (Ok r, {| w_mem := m;
              w_trace := w_trace w ++ [ForwardPass tm x y part_number r] |}).

(** [tm.backward_pass(y, part_number=i)] *)
Definition call_backward_pass (tm : executor) (y : out) (part_number : Z)
  : M unit :=
  fun w =>
    (Ok tt, {| w_mem := backward_pass tm (w_mem w) y part_number;
               w_trace := w_trace w ++ [BackwardPass tm y part_number] |}).

(** *** Attributes of [self] *)

Record master : Type := {
  mp_size : Z;
  split_size : Z;
  local_rank : Z;
  mpi_comm_first : comm;
  mpi_comm_second : comm;
  model_gen1 : model_gen;
  model_gen2 : model_gen;
  model1_size : nat;
  model2_size : nat;
  flat_params_model1 : tensor;
  flat_params_model2 : tensor;
  flat_grads_model1 : tensor;
  flat_grads_model2 : tensor;
  train_model1 : train_model;
  train_model2 : train_model;
  parts : Z;
  ENABLE_ASYNC : bool;
  batch_size : Z;
  replications : Z;
}.

(** The executor object behind a reference. *)
Definition tm_of (self : master) (tm : executor) : train_model :=
  match tm with
  | TrainModel1 => train_model1 self
  | TrainModel2 => train_model2 self
  end.

(** *** Flat buffer manager *)

Definition update_model_params_loc (model : list nat) (flat_params : tensor)
  : M unit :=
  (_ <- for_in model (fun id index_size =>
          params <- get_param id ;;
          let last_index := index_size + numel (p_data params) in
          v <- lift (s <- Torch.slice flat_params index_size last_index ;;
                     view s (p_shape params))%py ;;
          modify_param id (fun p => {| p_data := v; p_grad := p_grad p |}) ;;
          ret last_index) 0 ;;
   ret tt)%st.

Definition update_model_grads_loc (model : list nat) (flat_grads : tensor)
  : M unit :=
  (_ <- for_in model (fun id index_size =>
          params <- get_param id ;;
          let last_index := index_size + numel (p_data params) in
          v <- lift (s <- Torch.slice flat_grads index_size last_index ;;
                     view s (p_shape params))%py ;;
          modify_param id (fun p => {| p_data := p_data p; p_grad := Some v |}) ;;
          ret last_index) 0 ;;
   ret tt)%st.

Definition get_model_parameter_size (mg : model_gen) : M nat :=
  for_in (models mg) (fun id size =>
    param <- get_param id ;;
    ret (size + numel (p_data param)))%st 0.

(** *** Construction: [__init__] *)

Definition init (model_gen1 model_gen2 : model_gen) (batch_size : Z)
    (spatial_size num_spatial_parts slice_method : pyobj)
    (mpi_comm_first mpi_comm_second : comm)
    (LOCAL_DP_LP criterion optimizer : pyobj)
    (parts : Z) (ASYNC : bool) (replications : Z) : M master :=
  (model1_size <- get_model_parameter_size model_gen1 ;;
   model2_size <- get_model_parameter_size model_gen2 ;;
   flat_params_model1 <- torch_zeros [model1_size] true ;;
   flat_params_model2 <- torch_zeros [model2_size] true ;;
   flat_grads_model1 <- torch_zeros [model1_size] false ;;
   flat_grads_model2 <- torch_zeros [model2_size] false ;;
   update_model_params_loc (models model_gen1) flat_params_model1 ;;
   update_model_params_loc (models model_gen2) flat_params_model2 ;;
   update_model_grads_loc (models model_gen1) flat_grads_model1 ;;
   update_model_grads_loc (models model_gen2) flat_grads_model2 ;;
   let train_model1 := train_model_spatial
     {| a_model_gen := model_gen1;
        a_local_rank := comm_local_rank mpi_comm_first;
        a_batch_size := batch_size;
        a_epochs := 1;
        a_spatial_size := spatial_size;
        a_num_spatial_parts := num_spatial_parts;
        a_criterion := criterion;
        a_optimizer := optimizer;
        a_parts := parts;
        a_ASYNC := ASYNC;
        a_GEMS_INVERSE := false;
        a_slice_method := slice_method;
        a_LOCAL_DP_LP := LOCAL_DP_LP;
        a_mpi_comm := mpi_comm_first |} in
   let train_model2 := train_model_spatial
     {| a_model_gen := model_gen2;
        a_local_rank := comm_local_rank mpi_comm_second;
        a_batch_size := batch_size;
        a_epochs := 1;
        a_spatial_size := spatial_size;
        a_num_spatial_parts := num_spatial_parts;
        a_criterion := criterion;
        a_optimizer := optimizer;
        a_parts := parts;
        a_ASYNC := ASYNC;
        a_GEMS_INVERSE := true;
        a_slice_method := slice_method;
        a_LOCAL_DP_LP := LOCAL_DP_LP;
        a_mpi_comm := mpi_comm_second |} in
   ret {| mp_size := comm_mp_size mpi_comm_first;
          split_size := mg_split_size model_gen1;
          local_rank := comm_local_rank mpi_comm_first;
          mpi_comm_first := mpi_comm_first;
          mpi_comm_second := mpi_comm_second;
          model_gen1 := model_gen1;
          model_gen2 := model_gen2;
          model1_size := model1_size;
          model2_size := model2_size;
          flat_params_model1 := flat_params_model1;
          flat_params_model2 := flat_params_model2;
          flat_grads_model1 := flat_grads_model1;
          flat_grads_model2 := flat_grads_model2;
          train_model1 := train_model1;
          train_model2 := train_model2;
          parts := parts;
          ENABLE_ASYNC := ASYNC;
          batch_size := batch_size;
          replications := replications |})%st.

(** *** Cross-replica exchange protocol *)

Definition send_params_model (self : master) (send_rank : Z)
    (odd_iteration : bool) : M request :=
  if odd_iteration
  then isend (flat_params_model2 self) send_rank 0
  else isend (flat_params_model1 self) send_rank 0.

Definition recv_params_model (self : master) (recv_rank : Z)
    (odd_iteration : bool) : M request :=
  if odd_iteration
  then irecv (flat_params_model1 self) recv_rank 0
  else irecv (flat_params_model2 self) recv_rank 0.

Definition send_recv_params (self : master) (odd_iteration : bool) : M unit :=
  (let local_rank' := comm_local_rank (mpi_comm_first self) in
   let send_recv_rank := (mp_size self - 1 - local_rank')%Z in
   (* model_gen_send, model_gen_recv: bound by parity in the source, unused *)
   synchronize ;;
   half <- lift (int_truediv (mp_size self) 2) ;;
   reqs <- (if (local_rank self <? half)%Z
            then req1 <- send_params_model self send_recv_rank odd_iteration ;;
                 req2 <- recv_params_model self send_recv_rank odd_iteration ;;
                 ret (req1, req2)
            else req1 <- recv_params_model self send_recv_rank odd_iteration ;;
                 req2 <- send_params_model self send_recv_rank odd_iteration ;;
                 ret (req1, req2)) ;;
   wait (fst reqs) ;;
   wait (snd reqs))%st.

Definition send_grads_model (self : master) (send_rank : Z)
    (odd_iteration : bool) : M request :=
  if odd_iteration
  then isend (flat_grads_model2 self) send_rank 0
  else isend (flat_grads_model1 self) send_rank 0.

Definition recv_grads_model (recv_grads : tensor) (recv_rank : Z) : M request :=
  irecv recv_grads recv_rank 0.

Definition send_recv_grads (self : master) (odd_iteration : bool) : M unit :=
  (let local_rank' := comm_local_rank (mpi_comm_first self) in
   let send_recv_rank := (mp_size self - 1 - local_rank')%Z in
   flat_grads_recv <- (if odd_iteration
                       then torch_zeros [model1_size self] false
                       else torch_zeros [model2_size self] false) ;;
   synchronize ;;
   half <- lift (int_truediv (mp_size self) 2) ;;
   reqs <- (if (local_rank self >=? half)%Z
            then req1 <- send_grads_model self send_recv_rank odd_iteration ;;
                 req2 <- recv_grads_model flat_grads_recv send_recv_rank ;;
                 ret (req1, req2)
            else req1 <- send_grads_model self send_recv_rank odd_iteration ;;
                 req2 <- recv_grads_model flat_grads_recv send_recv_rank ;;
                 ret (req1, req2)) ;;
   wait (fst reqs) ;;
   wait (snd reqs) ;;
   if odd_iteration
   then tensor_iadd (flat_grads_model1 self) flat_grads_recv
   else tensor_iadd (flat_grads_model2 self) flat_grads_recv)%st.

End Master.

(** ** Dual-replica step scheduler *)

Section Scheduler.
Context `{Scalar} `{!ReplicaExecutor} `{!Transport}.

(** [run_step_allreduce(self, inputs, labels, odd_iteration)]. The moves
    [inputs.to("cuda")] and [labels.to("cuda")] keep the samples as they
    are. The rank computed under [if odd_iteration] before each edge-rank
    transfer is overwritten before it is used, as in the source. *)
Definition run_step_allreduce (self : master) (inputs : list sample)
    (labels : list label) (odd_iteration : bool) : M (scalar * scalar) :=
  (parts_size <- lift (int_truediv (batch_size self) (parts self)) ;;
   let y_list : list out := [] in
   let loss := szero in
   let corrects := szero in
   let tm1 := if odd_iteration then TrainModel2 else TrainModel1 in
   let tm2 := if odd_iteration then TrainModel1 else TrainModel2 in
   (* Model_Gen1 *)
   let data_x := Py.slice inputs None (Some (batch_size self)) in
   let data_y := Py.slice labels None (Some (batch_size self)) in
   (if (tm_local_rank (tm_of self tm1) =? mp_size self - 1)%Z
    then
      let recv_rank := (if odd_iteration
                        then tm_local_rank (tm_of self tm1)
                        else mp_size self - 1 - tm_local_rank (tm_of self tm1))%Z in
      let recv_rank := (mp_size self - 1 - local_rank self)%Z in
      req1 <- recv_params_model self recv_rank odd_iteration ;;
      wait req1
    else ret tt) ;;
   acc <- for_in (Py.range (parts self)) (fun i acc =>
       let '(y_list, loss, corrects) := acc in
       let start := (i * parts_size)%Z in
       let end_ := ((i + 1) * parts_size)%Z in
       r <- call_forward_pass tm1
              (Py.slice data_x (Some start) (Some end_))
              (Py.slice data_y (Some start) (Some end_)) i ;;
       let '(temp_y, temp_correct) := r in
       let y_list := y_list ++ [temp_y] in
       if (tm_split_rank (tm_of self tm1) =? tm_split_size (tm_of self tm1) - 1)%Z
       then ret (y_list, sadd loss (item temp_y), sadd corrects (item temp_correct))
       else ret (y_list, loss, corrects))
     (y_list, loss, corrects) ;;
   let '(y_list, loss, corrects) := acc in
   (if negb (tm_local_rank (tm_of self tm1) =? mp_size self - 1)%Z
    then send_recv_params self odd_iteration
    else ret tt) ;;
   for_in (Py.range (parts self)) (fun i (_ : unit) =>
       y <- lift (Py.index y_list i) ;;
       call_backward_pass tm1 y i) tt ;;
   (if (tm_local_rank (tm_of self tm1) =? mp_size self - 1)%Z
    then
      let send_rank := (if odd_iteration
                        then tm_local_rank (tm_of self tm1)
                        else mp_size self - 1 - tm_local_rank (tm_of self tm1))%Z in
      let send_rank := (mp_size self - 1 - local_rank self)%Z in
      req1 <- send_params_model self send_rank odd_iteration ;;
      wait req1
    else ret tt) ;;
   (* Model_Gen2 *)
   let data_x := Py.slice inputs (Some (batch_size self)) None in
   let data_y := Py.slice labels (Some (batch_size self)) None in
   let y_list : list out := [] in
   (if (tm_local_rank (tm_of self tm2) =? mp_size self - 1)%Z
    then
      flat_grads_recv <- (if odd_iteration
                          then torch_zeros [model1_size self] false
                          else torch_zeros [model2_size self] false) ;;
      let recv_rank := (if odd_iteration
                        then mp_size self - 1
                        else tm_local_rank (tm_of self tm2))%Z in
      let recv_rank := (mp_size self - 1 - local_rank self)%Z in
      req1 <- recv_grads_model flat_grads_recv recv_rank ;;
      wait req1 ;;
      if odd_iteration
      then tensor_iadd (flat_grads_model1 self) flat_grads_recv
      else tensor_iadd (flat_grads_model2 self) flat_grads_recv
    else ret tt) ;;
   acc <- for_in (Py.range (parts self)) (fun i acc =>
       let '(y_list, loss, corrects) := acc in
       let start := (i * parts_size)%Z in
       let end_ := ((i + 1) * parts_size)%Z in
       r <- call_forward_pass tm2
              (Py.slice data_x (Some start) (Some end_))
              (Py.slice data_y (Some start) (Some end_)) i ;;
       let '(temp_y, temp_correct) := r in
       let y_list := y_list ++ [temp_y] in
       if (tm_split_rank (tm_of self tm2) =? tm_split_size (tm_of self tm2) - 1)%Z
       then ret (y_list, sadd loss (item temp_y), sadd corrects (item temp_correct))
       else ret (y_list, loss, corrects))
     (y_list, loss, corrects) ;;
   let '(y_list, loss, corrects) := acc in
   (if negb (tm_local_rank (tm_of self tm2) =? mp_size self - 1)%Z
    then send_recv_grads self odd_iteration
    else ret tt) ;;
   for_in (Py.range (parts self)) (fun i (_ : unit) =>
       y <- lift (Py.index y_list i) ;;
       call_backward_pass tm2 y i) tt ;;
   (if (tm_local_rank (tm_of self tm2) =? mp_size self - 1)%Z
    then
      let send_rank := (if odd_iteration
                        then mp_size self - 1
                        else tm_local_rank (tm_of self tm2))%Z in
      let send_rank := (mp_size self - 1 - local_rank self)%Z in
      req1 <- send_grads_model self send_rank odd_iteration ;;
      wait req1
    else ret tt) ;;
   ret (loss, corrects))%st.

End Scheduler.

(** ** Vocabulary of the properties *)

Section Vocabulary.
Context `{Scalar} `{!ReplicaExecutor} `{!Transport}.

(** A flat buffer of [n] elements that lies inside the heap. *)
Definition flat_ok (h : heap) (t : tensor) (n : nat) : bool :=
  valid h t && bool_decide (t_shape t = [n]).

(** Both flat gradient buffers of [self] are in place. *)
Definition grads_ok (self : master) (h : heap) : bool :=
  flat_ok h (flat_grads_model1 self) (model1_size self)
  && flat_ok h (flat_grads_model2 self) (model2_size self).

(** The message of [n] elements that receive request [req] delivers. *)
Definition received (req n : nat) : list scalar :=
  map (incoming req) (seq 0 n).

(** Element count of the parameter object [id], of a whole replica, and the
    place in the flat buffer where the slice of the replica's parameter
    number [i] starts: where the slices of the parameters before it end. *)
Definition numel_at (m : memory) (id : nat) : nat :=
  from_option (fun p => numel (p_data p)) 0 (m_params m !! id).

Definition model_numel (m : memory) (ids : list nat) : nat :=
  sum_list (numel_at m <$> ids).

Definition slice_start (m : memory) (ids : list nat) (i : nat) : nat :=
  sum_list (take i (numel_at m <$> ids)).

(** [count] ranges, range [i] being [starts i, starts i + sizes i), tile
    [0, total): they lie inside it, no two of them meet, and every
    position below [total] is in one of them. *)
Definition tiles (starts sizes : nat -> nat) (count total : nat) : Prop :=
  (forall i, i < count -> starts i + sizes i <= total) /\
  (forall i j, i < j -> j < count -> starts i + sizes i <= starts j) /\
  (forall k, k < total ->
             exists i, i < count /\ starts i <= k /\ k < starts i + sizes i).

(** A parameter re-aliased into the flat buffers [fp] and [fg] at [start],
    with its shape kept. *)
Definition aliased (fp fg : tensor) (start : nat) (p : parameter) : parameter :=
  {| p_data := {| t_storage := t_storage fp; t_offset := t_offset fp + start;
                  t_shape := p_shape p;
                  t_requires_grad := t_requires_grad fp |};
     p_grad := Some {| t_storage := t_storage fg; t_offset := t_offset fg + start;
                       t_shape := p_shape p;
                       t_requires_grad := t_requires_grad fg |} |}.

(** Every parameter of the replica [ids] is, in [m'], the parameter it was
    in [m] re-aliased into [fp] and [fg] at its slice. *)
Definition laid_out (m m' : memory) (ids : list nat) (fp fg : tensor) : Prop :=
  forall i id p,
    ids !! i = Some id -> m_params m !! id = Some p ->
    m_params m' !! id = Some (aliased fp fg (slice_start m ids i) p).

(** The size of the slice of parameter number [i]. *)
Definition slice_size (m : memory) (ids : list nat) (i : nat) : nat :=
  default 0 ((numel_at m <$> ids) !! i).

(** One aliasing pass with the assignment abstracted: [upd v] stands for
    [params.data = v] ([set_data]) or [params.grad = v] ([set_grad]). The
    two passes of the source are its instances. *)
Definition alias_pass (upd : tensor -> parameter -> parameter)
    (flat : tensor) (ids : list nat) (start : nat) : M nat :=
  for_in ids (fun id index_size =>
    params <- get_param id ;;
    let last_index := index_size + numel (p_data params) in
    v <- lift (s <- Torch.slice flat index_size last_index ;;
               view s (p_shape params))%py ;;
    modify_param id (upd v) ;;
    ret last_index)%st start.

Definition set_data (v : tensor) (p : parameter) : parameter :=
  {| p_data := v; p_grad := p_grad p |}.

Definition set_grad (v : tensor) (p : parameter) : parameter :=
  {| p_data := p_data p; p_grad := Some v |}.

(** The view of [flat] that starts at [start] and has shape [shape]. *)
Definition view_at (flat : tensor) (start : nat) (shape : list nat) : tensor :=
  {| t_storage := t_storage flat; t_offset := t_offset flat + start;
     t_shape := shape; t_requires_grad := t_requires_grad flat |}.

(** The world with its parameter objects replaced. *)
Definition with_params (w : world) (ps : list parameter) : world :=
  {| w_mem := {| m_heap := m_heap (w_mem w); m_params := ps |};
     w_trace := w_trace w |}.

(** [view] is the window of the flat buffer [flat] that starts at [start]:
    on every heap that holds [flat], writing an element through either of
    them is one and the same update of the heap, reading it back through
    either gives the value written, and reads through both agree. *)
Definition aliases (flat view : tensor) (start : nat) : Prop :=
  forall (idx : list nat) (j : nat) (hh : heap),
    ravel (t_shape view) idx = Some j ->
    valid hh flat = true ->
    get hh flat [start + j] = get hh view idx /\
    forall v : scalar,
      exists h1,
        set hh flat [start + j] v = Ok h1 /\
        set hh view idx v = Ok h1 /\
        get h1 flat [start + j] = Ok v /\
        get h1 view idx = Ok v /\
        valid h1 flat = true.

(** The pipeline's terminal stage: [tm.split_rank == tm.split_size - 1]. *)
Definition terminal (self : master) (tm : executor) : bool :=
  (tm_split_rank (tm_of self tm) =? tm_split_size (tm_of self tm) - 1)%Z.

(** The loss and the correct count an event contributes to the step. *)
Definition loss_of (self : master) (e : event) : list scalar :=
  match e with
  | ForwardPass tm _ _ _ (temp_y, _) =>
      if terminal self tm then [item temp_y] else []
  | _ => []
  end.

Definition corrects_of (self : master) (e : event) : list scalar :=
  match e with
  | ForwardPass tm _ _ _ (_, temp_correct) =>
      if terminal self tm then [item temp_correct] else []
  | _ => []
  end.

(** Left-to-right sum, from [0]. *)
Definition ssum (l : list scalar) : scalar := foldl sadd szero l.

(** The forward calls of a trace: executor, samples, labels, part. *)
Definition forward_call (e : event)
  : option (executor * list sample * list label * Z) :=
  match e with
  | ForwardPass tm x y i _ => Some (tm, x, y, i)
  | _ => None
  end.

(** The events of one executor's passes. *)
Definition is_pass_of (tm : executor) (e : event) : bool :=
  match e with
  | ForwardPass tm' _ _ _ _ | BackwardPass tm' _ _ => bool_decide (tm' = tm)
  | _ => false
  end.

(** The result of a forward call. *)
Definition forward_out (e : event) : list out :=
  match e with
  | ForwardPass _ _ _ _ (temp_y, _) => [temp_y]
  | _ => []
  end.

(** The forward calls that the loop over the micro-parts [ks] issues from
    memory [m], with what they return, and the memory they leave. *)
Fixpoint forward_events (tm : executor) (data_x : list sample)
    (data_y : list label) (parts_size : Z) (ks : list Z) (m : memory)
  : list event * memory :=
  match ks with
  | [] => ([], m)
  | i :: ks' =>
      let x := Py.slice data_x (Some (i * parts_size)%Z)
                        (Some ((i + 1) * parts_size)%Z) in
      let y := Py.slice data_y (Some (i * parts_size)%Z)
                        (Some ((i + 1) * parts_size)%Z) in
      let r := forward_pass tm m x y i in
      let rest := forward_events tm data_x data_y parts_size ks' r.1 in
      (ForwardPass tm x y i r.2 :: rest.1, rest.2)
  end.

(** The backward calls on the results [ys], in the order of [ks]. *)
Definition backward_events (tm : executor) (ys : list out) (ks : list Z)
  : list event :=
  omap (fun i => (fun y => BackwardPass tm y i) <$> ys !! Z.to_nat i) ks.

(** The memory after a list of backward calls. *)
Definition after_backward (evs : list event) (m : memory) : memory :=
  foldl (fun m e => match e with
                    | BackwardPass tm y i => backward_pass tm m y i
                    | _ => m
                    end) m evs.

(** From world [w], [c] returns [a], leaves memory [m'] and issues the
    calls [evs]. *)
Definition yields {A : Type} (c : M A) (w : world) (a : A) (m' : memory)
    (evs : list event) : Prop :=
  c w = (Ok a, {| w_mem := m'; w_trace := w_trace w ++ evs |}).

(** The memory once the request [req] has completed: a receive has filled
    its destination tensor with the message. *)
Definition delivered (req : request) (m : memory) : memory :=
  match req_recv req with
  | None => m
  | Some t =>
      {| m_heap := store (m_heap m) t (received (req_id req) (numel t));
         m_params := m_params m |}
  end.

(** The passes of a trace, in order: executor, direction, micro-part. *)
Inductive pass_kind : Type := Forward | Backward.

Definition pass_call (e : event) : option (executor * pass_kind * Z) :=
  match e with
  | ForwardPass tm _ _ i _ => Some (tm, Forward, i)
  | BackwardPass tm _ i => Some (tm, Backward, i)
  | _ => None
  end.

(** No call to a pass of an executor among the events. *)
Definition no_pass (evs : list event) : Prop :=
  Forall (fun e => match e with
                   | ForwardPass _ _ _ _ _ | BackwardPass _ _ _ => False
                   | _ => True
                   end) evs.

End Vocabulary.

(** ** A concrete driver

    Integer scalars, an executor whose forward pass returns the sum of its
    samples and the number of samples equal to their label, and two replicas
    with parameters of shapes (3, 4) and (5,) on a group of 8 ranks. *)

Module Demo.

Definition Z_scalar : Scalar :=
  {| scalar := Z; szero := 0%Z; sadd := Z.add |}.

Definition is_power_two (n : Z) : bool :=
  (0 <? n)%Z && (Z.land n (n - 1) =? 0)%Z.

(** Modelled from the spec: the generic validator [verify_spatial_config]
    of [torchgems.train_spatial], which is not among the sources. It asserts
    that the image size and the tile size are powers of two and that all
    partition counts agree. *)
Definition verify_spatial_config (slice_method : string) (image_size : Z)
    (num_spatial_parts_list : list Z) : result unit :=
  (spatial_part_size <- Py.index num_spatial_parts_list 0 ;;
   _ <- Py.assert (is_power_two image_size)
          "Image size should be power of Two" ;;
   _ <- Py.assert (is_power_two spatial_part_size)
          "Image size of each partition should be power of Two" ;;
   Py.assert (forallb (Z.eqb spatial_part_size) num_spatial_parts_list)
     "Size of each SP partition should be same")%py.

Definition count_equal (x y : list Z) : Z :=
  Z.of_nat (length (filter (fun p => p.1 = p.2) (zip x y))).

(** An executor of a pipeline of [stages] stages on 8 ranks: the ranks
    below [8 - stages] hold the spatial parts of the first stage. *)
Definition executor_stub (stages : Z) : @ReplicaExecutor Z_scalar :=
  @Build_ReplicaExecutor Z_scalar Z Z Z unit
    (fun v => v)
    (fun a =>
       {| tm_local_rank := a_local_rank a;
          tm_split_rank := Z.max 0 (a_local_rank a - (8 - stages));
          tm_split_size := stages |})
    (fun _ m x y _ => (m, (foldr Z.add 0%Z x, count_equal x y)))
    (fun _ m _ _ => m).

(** A partner that sends zeros, and one that sends [10 * r + j]. *)
Definition silent : @Transport Z_scalar :=
  @Build_Transport Z_scalar (fun _ _ => 0%Z).

Definition counting : @Transport Z_scalar :=
  @Build_Transport Z_scalar (fun r j => (10 * Z.of_nat r + Z.of_nat j)%Z).

Definition own (loc : nat) (shape : list nat) : parameter :=
  {| p_data := {| t_storage := loc; t_offset := 0; t_shape := shape;
                  t_requires_grad := true |};
     p_grad := None |}.

Definition memory0 : @memory Z_scalar :=
  @Build_memory Z_scalar
    [replicate 12 1%Z; replicate 5 2%Z; replicate 12 3%Z; replicate 5 4%Z]
    [own 0 [3; 4]; own 1 [5]; own 2 [3; 4]; own 3 [5]].

Definition gen1 : model_gen := {| models := [0; 1]; mg_split_size := 5 |}.

Definition gen2 : model_gen := {| models := [2; 3]; mg_split_size := 5 |}.

(** The rank's view of the two groups: local rank [r] in the first, the
    mirrored rank in the second. *)
Definition first_comm (r : Z) : comm :=
  {| comm_mp_size := 8; comm_local_rank := r |}.

Definition second_comm (r : Z) : comm :=
  {| comm_mp_size := 8; comm_local_rank := 7 - r |}.

Definition world0 (stages : Z) : @world Z_scalar (executor_stub stages) :=
  {| w_mem := memory0; w_trace := [] |}.

(** [train_spatial_model_master(gen1, gen2, batch_size=8, ..., parts=parts)]
    on rank [r]. *)
Definition build (stages r parts : Z)
  : result master * @world Z_scalar (executor_stub stages) :=
  @init Z_scalar (executor_stub stages) gen1 gen2 8 tt tt tt
    (first_comm r) (second_comm r) tt tt tt parts true 1 (world0 stages).

Definition blank_tensor : tensor :=
  {| t_storage := 0; t_offset := 0; t_shape := []; t_requires_grad := false |}.

Definition blank : master :=
  {| mp_size := 0; split_size := 0; local_rank := 0;
     mpi_comm_first := first_comm 0; mpi_comm_second := second_comm 0;
     model_gen1 := gen1; model_gen2 := gen2;
     model1_size := 0; model2_size := 0;
     flat_params_model1 := blank_tensor; flat_params_model2 := blank_tensor;
     flat_grads_model1 := blank_tensor; flat_grads_model2 := blank_tensor;
     train_model1 := {| tm_local_rank := 0; tm_split_rank := 0;
                        tm_split_size := 0 |};
     train_model2 := {| tm_local_rank := 0; tm_split_rank := 0;
                        tm_split_size := 0 |};
     parts := 0; ENABLE_ASYNC := false; batch_size := 0; replications := 0 |}.

(** The orchestrator and the world after construction. *)
Definition constructed (stages r parts : Z)
  : master * @world Z_scalar (executor_stub stages) :=
  match build stages r parts with
  | (Ok self, w) => (self, w)
  | (Raise _, w) => (blank, w)
  end.

Definition master_at (stages r parts : Z) : master :=
  (constructed stages r parts).1.

Definition world_at (stages r parts : Z)
  : @world Z_scalar (executor_stub stages) :=
  (constructed stages r parts).2.

(** A batch of 16 samples and their labels. *)
Definition inputs16 : list Z := Z.of_nat <$> seq 1 16.

Definition labels16 : list Z := Z.of_nat <$> seq 1 16.

(** One interleaved step on the batch, right after construction, with a
    partner that sends zeros. *)
Definition step (stages r parts : Z) (odd_iteration : bool)
  : result (Z * Z) * @world Z_scalar (executor_stub stages) :=
  @run_step_allreduce Z_scalar (executor_stub stages) silent
    (master_at stages r parts) inputs16 labels16 odd_iteration
    (world_at stages r parts).

End Demo.

(** ** Copies of the parameters *)

Section TensorCopies.
Context `{Scalar}.

(** [t.clone()]: a fresh storage that holds the elements of [t]. *)
Definition clone (h : heap) (t : tensor) : tensor * heap :=
  ({| t_storage := length h; t_offset := 0;
      t_shape := t_shape t; t_requires_grad := t_requires_grad t |},
   h ++ [contents h t]).

(** [t.detach()]: the same elements, outside the autograd graph. *)
Definition detach (t : tensor) : tensor :=
  {| t_storage := t_storage t; t_offset := t_offset t;
     t_shape := t_shape t; t_requires_grad := false |}.

(** [t.view(-1)]: the one dimension is inferred, it is the element count. *)
Definition view_flat (t : tensor) : result tensor := view t [numel t].

(** [torch.cat((a, b))]: the two tensors end to end along the first
    dimension, in a fresh storage. The other dimensions must agree, and a
    tensor without dimensions cannot be concatenated. *)
Definition cat (h : heap) (a b : tensor) : result (tensor * heap) :=
  match t_shape a, t_shape b with
  | da :: rest_a, db :: rest_b =>
      if decide (rest_a = rest_b)
      then Ok ({| t_storage := length h; t_offset := 0;
                  t_shape := (da + db) :: rest_a;
                  t_requires_grad :=
                    t_requires_grad a || t_requires_grad b |},
               h ++ [contents h a ++ contents h b])
      else Raise RuntimeError
  | _, _ => Raise RuntimeError
  end.

(** [a.copy_(b)] for tensors of one shape: the elements of [b] overwrite
    those of [a]. (Broadcasting of unequal shapes is not modelled: it
    raises.) *)
Definition copy_ (h : heap) (a b : tensor) : result heap :=
  if decide (t_shape a = t_shape b)
  then Ok (store h a (contents h b))
  else Raise RuntimeError.

(** [t[a:b]] where [t] may be [None], which is not subscriptable. *)
Definition subscript (t : option tensor) (a b : nat) : result tensor :=
  match t with
  | Some t => Torch.slice t a b
  | None => Raise TypeError
  end.

End TensorCopies.

Section ParameterCopies.
Context `{Scalar} `{!ReplicaExecutor} `{!Transport}.

(** [t.clone()] *)
Definition tensor_clone (t : tensor) : M tensor :=
  fun w =>
    let r := clone (m_heap (w_mem w)) t in
    (Ok r.1, {| w_mem := {| m_heap := r.2; m_params := m_params (w_mem w) |};
                w_trace := w_trace w |}).

(** [torch.cat((a, b))] *)
Definition torch_cat (a b : tensor) : M tensor :=
  (h <- get_heap ;;
   r <- lift (cat h a b) ;;
   put_heap r.2 ;;
   ret r.1)%st.

(** [a.copy_(b)] *)
Definition tensor_copy_ (a b : tensor) : M unit :=
  (h <- get_heap ;;
   h' <- lift (copy_ h a b) ;;
   put_heap h')%st.

(** [model_gen.models.parameters()] as the loops below see it: each object
    it yields is tested against [None]. *)
Definition parameters (mg : model_gen) : list (option nat) :=
  Some <$> models mg.

(** [model_parameters(self, model_gen)]: [None] for a replica without
    parameters. *)
Definition model_parameters (mg : model_gen) : M (option tensor) :=
  for_in (parameters mg) (fun param flat_params =>
    match param with
    | Some id =>
        match flat_params with
        | None =>
            p <- get_param id ;;
            c <- tensor_clone (p_data p) ;;
            v <- lift (view_flat (detach c)) ;;
            ret (Some v)
        | Some flat_params =>
            p <- get_param id ;;
            c <- tensor_clone (p_data p) ;;
            v <- lift (view_flat (detach c)) ;;
            r <- torch_cat flat_params v ;;
            ret (Some r)
        end
    | None => ret flat_params
    end)%st None.

(** [update_model_paramters(self, model_gen, flat_params)] *)
Definition update_model_paramters (mg : model_gen)
    (flat_params : option tensor) : M unit :=
  (_ <- for_in (parameters mg) (fun param index_size =>
          match param with
          | Some id =>
              p <- get_param id ;;
              let last_index := index_size + numel (p_data p) in
              v <- lift (s <- subscript flat_params index_size last_index ;;
                         view s (p_shape p))%py ;;
              tensor_copy_ (p_data p) v ;;
              ret last_index
          | None => ret index_size
          end) 0 ;;
   ret tt)%st.

End ParameterCopies.

(** ** Replica-at-a-time steps: [run_step] *)

(** The method [run_step] of the replica executor, which returns the loss
    and the correct count of its batch. It is external, like the passes. *)
Class ReplicaRunner `{Scalar} `{!ReplicaExecutor} : Type := {
  tm_run_step :
    executor -> memory -> list sample -> list label
    -> memory * (scalar * scalar);
}.

Section Driver.
Context `{Scalar} `{!ReplicaExecutor} `{!ReplicaRunner}.

(** The calls [run_step] issues, in program order. *)
Inductive step_event : Type :=
| DeviceSynchronize
| RunStep (tm : executor) (x : list sample) (y : list label)
    (ret : scalar * scalar).

Record session : Type := {
  s_mem : memory;
  s_log : list step_event;
}.

(** [tm.run_step(x, y)] *)
Definition call_run_step (tm : executor) (x : list sample) (y : list label)
    (s : session) : (scalar * scalar) * session :=
  let r := tm_run_step tm (s_mem s) x y in
  (r.2, {| s_mem := r.1; s_log := s_log s ++ [RunStep tm x y r.2] |}).

(** [torch.cuda.synchronize()] *)
Definition device_synchronize (s : session) : session :=
  {| s_mem := s_mem s; s_log := s_log s ++ [DeviceSynchronize] |}.

(** [run_step(self, inputs, labels)] *)
Definition run_step (self : master) (inputs : list sample)
    (labels : list label) (s : session) : (scalar * scalar) * session :=
  let bs := batch_size self in
  let loss := szero in
  let correct := szero in
  let '(temp, s) :=
    call_run_step TrainModel1
      (Py.slice inputs None (Some bs)) (Py.slice labels None (Some bs)) s in
  let loss := sadd loss temp.1 in
  let correct := sadd correct temp.2 in
  let '(temp, s) :=
    call_run_step TrainModel2
      (Py.slice inputs (Some bs) (Some (2 * bs)%Z))
      (Py.slice labels (Some bs) (Some (2 * bs)%Z)) s in
  let loss := sadd loss temp.1 in
  let correct := sadd correct temp.2 in
  let s := device_synchronize s in
  let '(loss, correct, s) :=
    foldl (fun acc times =>
             let '(loss, correct, s) := acc in
             let index := (2 * times + 2)%Z in
             let '(temp, s) :=
               call_run_step TrainModel1
                 (Py.slice inputs (Some (index * bs)%Z)
                                  (Some ((index + 1) * bs)%Z))
                 (Py.slice labels (Some (index * bs)%Z)
                                  (Some ((index + 1) * bs)%Z)) s in
             let loss := sadd loss temp.1 in
             let correct := sadd correct temp.2 in
             let '(temp, s) :=
               call_run_step TrainModel2
                 (Py.slice inputs (Some ((index + 1) * bs)%Z)
                                  (Some ((index + 2) * bs)%Z))
                 (Py.slice labels (Some ((index + 1) * bs)%Z)
                                  (Some ((index + 2) * bs)%Z)) s in
             let loss := sadd loss temp.1 in
             let correct := sadd correct temp.2 in
             (loss, correct, s))
          (loss, correct, s) (Py.range (replications self - 1)) in
  ((loss, correct), s).

End Driver.

(** ** Vocabulary of the further properties *)

Section ExchangeVocabulary.
Context `{Scalar} `{!ReplicaExecutor} `{!Transport}.

Inductive direction : Type := Send | Recv.

Definition opposite (d : direction) : direction :=
  match d with Send => Recv | Recv => Send end.

(** The transfer an event starts: direction, buffer, partner rank, tag. *)
Definition transfer (e : event) : option (direction * tensor * Z * Z) :=
  match e with
  | Isend t dst tag => Some (Send, t, dst, tag)
  | Irecv t src tag => Some (Recv, t, src, tag)
  | _ => None
  end.

(** The same without the buffer. *)
Definition route (e : event) : option (direction * Z * Z) :=
  match e with
  | Isend _ dst tag => Some (Send, dst, tag)
  | Irecv _ src tag => Some (Recv, src, tag)
  | _ => None
  end.

(** The handles of the requests that the events [evs] issue when they are
    appended to a trace of length [base], and the handles they wait on. *)
Fixpoint issued (base : nat) (evs : list event) : list nat :=
  match evs with
  | [] => []
  | e :: evs' =>
      match e with
      | Isend _ _ _ | Irecv _ _ _ => base :: issued (S base) evs'
      | _ => issued (S base) evs'
      end
  end.

Definition waited (evs : list event) : list nat :=
  flat_map (fun e => match e with Wait r => [r] | _ => [] end) evs.

(** The events a call appended to the trace. *)
Definition appended (w w' : world) : list event :=
  drop (length (w_trace w)) (w_trace w').

End ExchangeVocabulary.

Section DriverVocabulary.
Context `{Scalar} `{!ReplicaExecutor} `{!ReplicaRunner}.

(** Chunk [j] of a batch cut into chunks of [bs] samples:
    [l[j * bs : (j + 1) * bs]]. *)
Definition chunk {A : Type} (bs : Z) (l : list A) (j : Z) : list A :=
  Py.slice l (Some (j * bs)%Z) (Some ((j + 1) * bs)%Z).

(** The arguments and the result of a call to an executor's [run_step]. *)
Definition run_call (e : step_event)
  : option (executor * list sample * list label) :=
  match e with
  | RunStep tm x y _ => Some (tm, x, y)
  | DeviceSynchronize => None
  end.

Definition run_result (e : step_event) : option (scalar * scalar) :=
  match e with
  | RunStep _ _ _ r => Some r
  | DeviceSynchronize => None
  end.

(** The calls [calls] issued in order from memory [m], with what they
    return, and the memory they leave. *)
Fixpoint run_events (calls : list (executor * list sample * list label))
    (m : memory) : list step_event * memory :=
  match calls with
  | [] => ([], m)
  | (tm, x, y) :: calls' =>
      let r := tm_run_step tm m x y in
      let rest := run_events calls' r.1 in
      (RunStep tm x y r.2 :: rest.1, rest.2)
  end.

(** Call number [j] of [run_step]: the replicas take turns, the first
    replica first, and call [j] is given chunk [j]. *)
Definition turn (bs : Z) (inputs : list sample) (labels : list label) (j : Z)
  : executor * list sample * list label :=
  (if Z.even j then TrainModel1 else TrainModel2,
   chunk bs inputs j, chunk bs labels j).

(** The results of the calls in [evs], added up from the left, starting
    from [loss] and [correct]. *)
Definition tally (loss correct : scalar) (evs : list step_event)
  : scalar * scalar :=
  (foldl sadd loss ((omap run_result evs).*1),
   foldl sadd correct ((omap run_result evs).*2)).

(** The entries a call appended to the log. *)
Definition logged (s s' : session) : list step_event :=
  drop (length (s_log s)) (s_log s').

End DriverVocabulary.

Section CopyVocabulary.
Context `{Scalar}.

(** The data tensors of the parameters [ids], in order. *)
Definition data_tensors (m : memory) (ids : list nat) : list tensor :=
  omap (fun id => p_data <$> m_params m !! id) ids.

(** The elements of the tensors [ts], end to end. *)
Definition flattened (h : heap) (ts : list tensor) : list scalar :=
  concat (contents h <$> ts).

(** Two tensors that share no element: they are in different storages,
    or one ends before the other starts. *)
Definition disjoint (a b : tensor) : bool :=
  negb (bool_decide (t_storage a = t_storage b))
  || bool_decide (t_offset a + numel a <= t_offset b)
  || bool_decide (t_offset b + numel b <= t_offset a).

(** No two tensors of the list share an element. *)
Fixpoint separate (ts : list tensor) : bool :=
  match ts with
  | [] => true
  | t :: ts' => forallb (disjoint t) ts' && separate ts'
  end.

(** The heap once the tensors [ts] have been overwritten, one after the
    other, with consecutive windows of [flat], the first at [start]. *)
Fixpoint scatter (h : heap) (flat : tensor) (start : nat) (ts : list tensor)
  : heap :=
  match ts with
  | [] => h
  | t :: ts' =>
      scatter (store h t (contents h
                 {| t_storage := t_storage flat;
                    t_offset := t_offset flat + start;
                    t_shape := t_shape t;
                    t_requires_grad := t_requires_grad flat |}))
              flat (start + numel t) ts'
  end.

(** [t] is a one-dimensional tensor that requires no gradient, lies in a
    storage allocated from [base] on, and holds the elements [elems]. *)
Definition gathered (base : nat) (h : heap) (t : tensor)
    (elems : list scalar) : Prop :=
  valid h t = true /\ t_shape t = [length elems] /\
  t_requires_grad t = false /\ t_offset t = 0 /\ base <= t_storage t /\
  contents h t = elems.

End CopyVocabulary.

(** ** The concrete driver, continued *)

Module DemoCopies.

(** The executors' [run_step]: the sum of the samples and the number of
    samples equal to their label, as their forward pass. *)
Definition runner_stub (stages : Z)
  : @ReplicaRunner Demo.Z_scalar (Demo.executor_stub stages) :=
  @Build_ReplicaRunner Demo.Z_scalar (Demo.executor_stub stages)
    (fun _ m x y => (m, (foldr Z.add 0%Z x, Demo.count_equal x y))).

Definition session0 (stages : Z)
  : @session Demo.Z_scalar (Demo.executor_stub stages) :=
  {| s_mem := Demo.memory0; s_log := [] |}.

(** The orchestrator [self] with another batch size and another number
    of replications. *)
Definition replicated (self : master) (bs r : Z) : master :=
  {| mp_size := mp_size self; split_size := split_size self;
     local_rank := local_rank self;
     mpi_comm_first := mpi_comm_first self;
     mpi_comm_second := mpi_comm_second self;
     model_gen1 := model_gen1 self; model_gen2 := model_gen2 self;
     model1_size := model1_size self; model2_size := model2_size self;
     flat_params_model1 := flat_params_model1 self;
     flat_params_model2 := flat_params_model2 self;
     flat_grads_model1 := flat_grads_model1 self;
     flat_grads_model2 := flat_grads_model2 self;
     train_model1 := train_model1 self; train_model2 := train_model2 self;
     parts := parts self; ENABLE_ASYNC := ENABLE_ASYNC self;
     batch_size := bs; replications := r |}.

(** The memory of the driver with one more storage, which holds the
    numbers 0 to 16, and two tensors in it: all of it, and its first 14
    elements. *)
Definition numbered : list Z := Z.of_nat <$> seq 0 17.

Definition copy_world (stages : Z)
  : @world Demo.Z_scalar (Demo.executor_stub stages) :=
  {| w_mem := @Build_memory Demo.Z_scalar
                (@m_heap Demo.Z_scalar Demo.memory0 ++ [numbered])
                (@m_params Demo.Z_scalar Demo.memory0);
     w_trace := [] |}.

Definition numbered_buffer : tensor :=
  {| t_storage := 4; t_offset := 0; t_shape := [17];
     t_requires_grad := false |}.

Definition short_buffer : tensor :=
  {| t_storage := 4; t_offset := 0; t_shape := [14];
     t_requires_grad := false |}.

End DemoCopies.

(** * Properties *)

(** ** Partition validator *)

Lemma index_head {A : Type} (x : A) (l : list A) : Py.index (x :: l) 0 = Ok x.
Proof. reflexivity. Qed.

Section PartitionValidatorFacts.
Variable verify_spatial_config : string -> Z -> list Z -> result unit.

(** C1. [verify_spatial_master_config] runs the generic validator and then
    asserts [mp_size >= 2 * num_spatial_parts_list[0]]: a configuration
    that passes has a first partition count [k] with [mp_size >= 2 * k] and
    has passed the generic validator; and for every [k], the call with
    [mp_size = 2 * k - 1] and [num_spatial_parts_list[0] = k] raises: the
    generic validator's own failure if it has one, the assertion failure
    otherwise. *)
Theorem verify_spatial_master_config_sound :
  (forall slice_method image_size num_spatial_parts_list spatial_size mp_size,
      verify_spatial_master_config verify_spatial_config slice_method
        image_size num_spatial_parts_list spatial_size mp_size = Ok tt ->
      exists k rest,
        num_spatial_parts_list = k :: rest /\
        verify_spatial_config slice_method image_size num_spatial_parts_list = Ok tt /\
        (mp_size >= 2 * k)%Z) /\
  (forall slice_method image_size k rest spatial_size,
      match verify_spatial_config slice_method image_size (k :: rest) with
      | Ok _ =>
          verify_spatial_master_config verify_spatial_config slice_method
            image_size (k :: rest) spatial_size (2 * k - 1)
          = Raise (AssertionError rank_overlap_msg)
      | Raise e =>
          verify_spatial_master_config verify_spatial_config slice_method
            image_size (k :: rest) spatial_size (2 * k - 1)
          = Raise e
      end).
Proof.
  split.
  - intros sm img l ss mp Hok. unfold verify_spatial_master_config in Hok.
    destruct l as [|k rest]; [discriminate|]. exists k, rest.
    rewrite index_head in Hok. cbn in Hok.
    destruct (verify_spatial_config sm img (k :: rest)) as [[]|e];
      cbn in Hok; [|discriminate].
    unfold Py.assert in Hok.
    destruct (Z.geb_spec mp (2 * k)) as [Hge|Hlt]; [|discriminate].
    repeat split; lia.
  - intros sm img k rest ss. unfold verify_spatial_master_config.
    rewrite index_head. cbn.
    destruct (verify_spatial_config sm img (k :: rest)) as [[]|e]; cbn; [|done].
    unfold Py.assert.
    destruct (Z.geb_spec (2 * k - 1) (2 * k)) as [Hge|Hlt]; [lia|done].
Qed.

End PartitionValidatorFacts.

(** ** Tensors *)

Section TorchFacts.
Context `{Scalar}.
Implicit Types (h : heap) (t : tensor) (vals : list scalar).

Lemma valid_storage h t :
  valid h t = true ->
  exists s, h !! t_storage t = Some s /\ t_offset t + numel t <= length s.
Proof.
  unfold valid. destruct (h !! t_storage t) as [s|]; [|done].
  intros Hb. apply bool_decide_eq_true_1 in Hb. eauto.
Qed.

Lemma valid_lt h t : valid h t = true -> t_storage t < length h.
Proof.
  intros (s & Hs & _)%valid_storage. by eapply lookup_lt_Some.
Qed.

Lemma valid_app h h2 t : valid h t = true -> valid (h ++ h2) t = true.
Proof.
  intros Hv. destruct (valid_storage _ _ Hv) as (s & Hs & Hle).
  unfold valid. rewrite (lookup_app_l_Some _ _ _ _ Hs).
  by apply bool_decide_eq_true_2.
Qed.

Lemma valid_store h t t' vals :
  valid h t' = true -> valid (store h t vals) t' = true.
Proof.
  intros Hv. destruct (valid_storage _ _ Hv) as (s & Hs & Hle).
  unfold valid, store.
  destruct (decide (t_storage t = t_storage t')) as [Heq|Hne].
  - rewrite Heq, list_lookup_alter_eq, Hs. cbn.
    apply bool_decide_eq_true_2. by rewrite length_inserts.
  - rewrite list_lookup_alter_ne, Hs by done. by apply bool_decide_eq_true_2.
Qed.

Lemma length_contents h t : valid h t = true -> length (contents h t) = numel t.
Proof.
  intros (s & Hs & Hle)%valid_storage. unfold contents. rewrite Hs. cbn.
  rewrite length_take, length_drop. lia.
Qed.

Lemma contents_app h h2 t :
  t_storage t < length h -> contents (h ++ h2) t = contents h t.
Proof. intros Hlt. unfold contents. by rewrite lookup_app_l. Qed.

Lemma contents_store_other h t t' vals :
  t_storage t <> t_storage t' -> contents (store h t vals) t' = contents h t'.
Proof. intros Hne. unfold contents, store. by rewrite list_lookup_alter_ne. Qed.

Lemma contents_store h t vals :
  valid h t = true -> length vals = numel t ->
  contents (store h t vals) t = vals.
Proof.
  intros (s & Hs & Hle)%valid_storage Hlen. unfold contents, store.
  rewrite list_lookup_alter_eq, Hs. cbn. apply list_eq. intros j.
  destruct (decide (j < numel t)) as [Hj|Hj].
  - rewrite lookup_take_lt, lookup_drop by done.
    rewrite list_lookup_inserts by lia. f_equal. lia.
  - rewrite lookup_take_ge by lia. symmetry. apply lookup_ge_None_2. lia.
Qed.

Lemma store_contents h t : valid h t = true -> store h t (contents h t) = h.
Proof.
  intros Hv. pose proof (length_contents _ _ Hv) as Hlen.
  destruct (valid_storage _ _ Hv) as (s & Hs & Hle).
  unfold store. apply list_eq. intros i.
  destruct (decide (i = t_storage t)) as [->|Hne];
    [|by rewrite list_lookup_alter_ne].
  rewrite list_lookup_alter_eq, Hs. cbn. f_equal. apply list_eq. intros j.
  destruct (decide (t_offset t <= j < t_offset t + numel t)) as [Hj|Hj].
  - rewrite list_lookup_inserts by lia. unfold contents. rewrite Hs. cbn.
    rewrite lookup_take_lt, lookup_drop by lia. f_equal. lia.
  - destruct (decide (j < t_offset t)).
    + by rewrite list_lookup_inserts_lt.
    + rewrite list_lookup_inserts_ge by lia. done.
Qed.

Lemma contents_zeros h shape rg :
  contents (zeros shape rg h).2 (zeros shape rg h).1
  = replicate (numel_of shape) szero.
Proof.
  unfold contents, zeros, numel. cbn.
  rewrite lookup_app_r by lia. rewrite Nat.sub_diag. cbn.
  apply take_ge. by rewrite length_replicate.
Qed.

Lemma valid_zeros h shape rg : valid (zeros shape rg h).2 (zeros shape rg h).1 = true.
Proof.
  unfold valid, zeros, numel. cbn. rewrite lookup_app_r by lia.
  rewrite Nat.sub_diag. cbn. apply bool_decide_eq_true_2.
  by rewrite length_replicate.
Qed.

End TorchFacts.

(** ** Cross-replica exchange protocol *)

Ltac run_monad :=
  unfold mbind, synchronize, emit, lift, int_truediv, get_heap, put_heap, ret,
    wait, isend, irecv, torch_zeros, tensor_iadd; cbn.

Ltac trace_eq :=
  rewrite ?length_app; cbn [length];
  rewrite <- ?app_assoc, <- ?Nat.add_assoc; cbn [app Nat.add]; reflexivity.

Section ExchangeFacts.
Context `{Scalar} `{!ReplicaExecutor} `{!Transport}.

(** C2, amended. The transfer buffer is selected by parity, and the two
  operations select opposite buffers: [send_params_model] sends
  [flat_params_model2] when [odd_iteration] is true and
  [flat_params_model1] otherwise; [recv_params_model] receives into
  [flat_params_model1] when [odd_iteration] is true and into
  [flat_params_model2] otherwise. Each issues one non-blocking call with
  tag 0 and returns its handle. *)
Theorem params_buffer_by_parity (self : master) (rank : Z)
    (odd_iteration : bool) (w : world) :
  send_params_model self rank odd_iteration w =
    (Ok {| req_id := length (w_trace w); req_recv := None |},
     {| w_mem := w_mem w;
        w_trace := w_trace w ++
          [Isend (if odd_iteration then flat_params_model2 self
                  else flat_params_model1 self) rank 0] |}) /\
  recv_params_model self rank odd_iteration w =
    (let buffer := if odd_iteration then flat_params_model1 self
                   else flat_params_model2 self in
     (Ok {| req_id := length (w_trace w); req_recv := Some buffer |},
      {| w_mem := w_mem w;
         w_trace := w_trace w ++ [Irecv buffer rank 0] |})).
Proof. by destruct odd_iteration. Qed.

(** C5. Every call to [send_recv_params] synchronizes the device, then a rank
  with [local_rank < int(mp_size / 2)] issues its send and then its
  receive, any other rank its receive and then its send; both go to the
  partner [mp_size - 1 - local_rank]; the two waits come after both calls,
  in the order of issue, and the call returns after them. (The rank in the
  test is [self.local_rank], the one in the partner is
  [self.mpi_comm_first.local_rank]; [__init__] sets both from the same
  communicator.) *)
Theorem send_recv_params_protocol (self : master) (odd_iteration : bool) (w : world) :
  let partner := (mp_size self - 1 - comm_local_rank (mpi_comm_first self))%Z in
  let n := length (w_trace w) in
  let send := Isend (if odd_iteration then flat_params_model2 self
                     else flat_params_model1 self) partner 0 in
  let recv := Irecv (if odd_iteration then flat_params_model1 self
                     else flat_params_model2 self) partner 0 in
  exists w',
    send_recv_params self odd_iteration w = (Ok tt, w') /\
    w_trace w' =
      w_trace w ++ [Synchronize]
        ++ (if (local_rank self <? mp_size self ÷ 2)%Z
            then [send; recv] else [recv; send])
        ++ [Wait (n + 1); Wait (n + 2)].
Proof.
  intros partner n send recv. subst partner n send recv.
  unfold send_recv_params, send_params_model, recv_params_model. run_monad.
  destruct odd_iteration, (local_rank self <? mp_size self `quot` 2)%Z; cbn;
    (eexists; split; [reflexivity|]); cbn; trace_eq.
Qed.

(** C6. Every call to [send_recv_grads], on every rank, whatever the outcome
  of its test [local_rank >= int(mp_size / 2)], issues the gradient send
  before the gradient receive, then waits on both. *)
Theorem send_recv_grads_send_first (self : master) (odd_iteration : bool) (w : world) :
  let partner := (mp_size self - 1 - comm_local_rank (mpi_comm_first self))%Z in
  let n := length (w_trace w) in
  let flat_grads_recv :=
    {| t_storage := length (m_heap (w_mem w)); t_offset := 0;
       t_shape := [if odd_iteration then model1_size self else model2_size self];
       t_requires_grad := false |} in
  w_trace (send_recv_grads self odd_iteration w).2 =
    w_trace w ++
      [Synchronize;
       Isend (if odd_iteration then flat_grads_model2 self
              else flat_grads_model1 self) partner 0;
       Irecv flat_grads_recv partner 0;
       Wait (n + 1); Wait (n + 2)].
Proof.
  intros partner n fresh. subst partner n fresh.
  unfold send_recv_grads, send_grads_model, recv_grads_model. run_monad.
  destruct odd_iteration, (local_rank self >=? mp_size self `quot` 2)%Z; cbn;
    unfold iadd; repeat case_decide; cbn; trace_eq.
Qed.

End ExchangeFacts.

Section GradFacts.
Context `{Scalar} `{!ReplicaExecutor} `{!Transport}.

Lemma numel_of_flat (n : nat) : numel_of [n] = n.
Proof. cbn. lia. Qed.

Lemma flat_ok_inv (h : heap) (t : tensor) (n : nat) :
  flat_ok h t n = true -> valid h t = true /\ t_shape t = [n] /\ numel t = n.
Proof.
  unfold flat_ok. intros [Hv Hs%bool_decide_eq_true_1]%andb_prop.
  repeat split; [done..|]. unfold numel. rewrite Hs. apply numel_of_flat.
Qed.

(** Receiving [msg] into a fresh zero buffer and adding it into [local]. *)
Lemma accumulate_heap (h : heap) (local : tensor) (n : nat) (msg : list scalar) :
  valid h local = true -> numel local = n -> length msg = n ->
  let fresh := (zeros [n] false h).1 in
  let h1 := store (zeros [n] false h).2 fresh msg in
  let h2 := store h1 local (zip_with sadd (contents h1 local) (contents h1 fresh)) in
  h2 !! length h = Some msg /\
  contents h2 local = zip_with sadd (contents h local) msg /\
  (forall t, valid h t = true -> t_storage t <> t_storage local ->
             contents h2 t = contents h t) /\
  ((forall x, sadd x szero = x) -> msg = replicate n szero ->
   forall t, valid h t = true -> contents h2 t = contents h t).
Proof.
  intros Hv Hn Hlen fresh h1 h2.
  pose proof (valid_lt _ _ Hv) as Hlt.
  assert (Hfresh : t_storage fresh = length h) by done.
  assert (Hvf : valid (zeros [n] false h).2 fresh = true) by apply valid_zeros.
  assert (Hcf : contents h1 fresh = msg).
  { apply contents_store; [done|]. by rewrite Hlen, <- (numel_of_flat n). }
  assert (Hother : forall t, valid h t = true -> contents h1 t = contents h t).
  { intros t Ht. pose proof (valid_lt _ _ Ht).
    unfold h1. rewrite contents_store_other by (rewrite Hfresh; lia).
    by apply contents_app. }
  assert (Hv1 : valid h1 local = true).
  { apply valid_store. by apply (valid_app h [_]). }
  assert (Hsum : length (zip_with sadd (contents h local) msg) = numel local).
  { rewrite length_zip_with, (length_contents _ _ Hv). lia. }
  subst h2. rewrite Hcf, (Hother _ Hv).
  split; [|split; [|split]].
  - unfold store at 1. rewrite list_lookup_alter_ne by lia.
    unfold h1, store, zeros. cbn. rewrite list_lookup_alter_eq.
    rewrite lookup_app_r by lia. rewrite Nat.sub_diag. cbn. f_equal.
    rewrite <- (app_nil_r (replicate _ _)).
    rewrite list_inserts_0_r; [apply app_nil_r|].
    rewrite length_replicate. lia.
  - by apply contents_store.
  - intros t Ht Hne. rewrite contents_store_other by done. by apply Hother.
  - intros Hzero -> t Ht.
    rewrite zip_with_replicate_r_eq by (rewrite (length_contents _ _ Hv); lia).
    rewrite (list_fmap_ext _ id (contents h local)) by (intros; apply Hzero).
    rewrite list_fmap_id, <- (Hother _ Hv), store_contents by done.
    by apply Hother.
Qed.

Lemma tensor_iadd_ok (a b : tensor) (w : world) :
  t_shape a = t_shape b ->
  tensor_iadd a b w =
    (Ok tt,
     {| w_mem :=
          {| m_heap := store (m_heap (w_mem w)) a
                         (zip_with sadd (contents (m_heap (w_mem w)) a)
                                        (contents (m_heap (w_mem w)) b));
             m_params := m_params (w_mem w) |};
        w_trace := w_trace w |}).
Proof.
  intros Hs. unfold tensor_iadd, mbind, get_heap, lift, put_heap, iadd.
  by rewrite decide_True.
Qed.

(** C7. With both flat gradient buffers in place, [send_recv_grads] receives
  the partner's message into a fresh zero buffer and adds it, element by
  element, into the local buffer ([flat_grads_model1] when [odd_iteration],
  [flat_grads_model2] otherwise); when adding zero changes no scalar and
  the message is all zeros, both flat gradient buffers hold what they held
  before the call. *)
Theorem send_recv_grads_accumulates (self : master) (odd_iteration : bool)
    (w : world) :
  grads_ok self (m_heap (w_mem w)) = true ->
  let h := m_heap (w_mem w) in
  let local := if odd_iteration then flat_grads_model1 self
               else flat_grads_model2 self in
  let size := if odd_iteration then model1_size self else model2_size self in
  let msg := received (length (w_trace w) + 2) size in
  exists w',
    send_recv_grads self odd_iteration w = (Ok tt, w') /\
    m_params (w_mem w') = m_params (w_mem w) /\
    m_heap (w_mem w') !! length h = Some msg /\
    contents (m_heap (w_mem w')) local = zip_with sadd (contents h local) msg /\
    ((forall x, sadd x szero = x) ->
     msg = replicate size szero ->
     contents (m_heap (w_mem w')) (flat_grads_model1 self)
       = contents h (flat_grads_model1 self) /\
     contents (m_heap (w_mem w')) (flat_grads_model2 self)
       = contents h (flat_grads_model2 self)).
Proof.
  intros Hok h local size msg.
  apply andb_prop in Hok as [Hg1 Hg2].
  apply flat_ok_inv in Hg1 as (Hv1 & Hs1 & Hn1).
  apply flat_ok_inv in Hg2 as (Hv2 & Hs2 & Hn2).
  assert (Hloc : valid h local = true /\ numel local = size /\
                 t_shape local = [size])
    by (subst local size; by destruct odd_iteration).
  destruct Hloc as (Hv & Hn & Hs).
  assert (Hlen : length msg = size)
    by (unfold msg, received; by rewrite length_map, length_seq).
  destruct (accumulate_heap h local size msg Hv Hn Hlen) as (Hf & Hacc & _ & Hz).
  unfold send_recv_grads, send_grads_model, recv_grads_model.
  subst local size msg.
  destruct odd_iteration.
  all: unfold mbind, synchronize, emit, lift, int_truediv, get_heap, put_heap,
    ret, wait, isend, irecv, torch_zeros;
    cbn -[zeros store contents received numel numel_of tensor_iadd].
  all: destruct (local_rank self >=? mp_size self `quot` 2)%Z;
    cbn -[zeros store contents received numel numel_of tensor_iadd].
  all: rewrite tensor_iadd_ok by (cbn; congruence).
  all: eexists; (split; [reflexivity|]);
    cbn -[zeros store contents received numel numel_of].
  all: match goal with
       | |- context [numel (zeros [?n] false ?h0).1] =>
           replace (numel (zeros [n] false h0).1) with n
             by (symmetry; apply numel_of_flat)
       end.
  all: rewrite !length_app; cbn [length]; rewrite <- !Nat.add_assoc;
    cbn [Nat.add];
    match goal with
    | |- context [map (incoming ?r) (seq 0 ?n)] =>
        change (map (incoming r) (seq 0 n)) with (received r n)
    end.
  all: split; [done|]; split; [exact Hf|]; split; [exact Hacc|].
  all: intros Hzero Hmsg; split; by apply Hz.
Qed.

End GradFacts.

(** ** Flat buffer manager *)

Section FlatBufferFacts.
Context `{Scalar} `{!ReplicaExecutor} `{!Transport}.

Lemma slice_view (flat : tensor) (n start : nat) (shape : list nat) :
  t_shape flat = [n] -> start + numel_of shape <= n ->
  (s <- Torch.slice flat start (start + numel_of shape) ;; view s shape)%py
  = Ok (view_at flat start shape).
Proof.
  intros Hs Hle. unfold Torch.slice. rewrite Hs. cbn.
  unfold view, numel. cbn.
  rewrite decide_True by lia. unfold view_at. cbn. do 2 f_equal. lia.
Qed.

Lemma numel_at_shapes (m m' : memory) (id : nat) :
  p_shape <$> m_params m' = p_shape <$> m_params m ->
  numel_at m' id = numel_at m id.
Proof.
  intros Heq. unfold numel_at.
  assert (Hl : p_shape <$> (m_params m' !! id) = p_shape <$> (m_params m !! id))
    by (by rewrite <- !list_lookup_fmap, Heq).
  destruct (m_params m' !! id) as [p'|], (m_params m !! id) as [p|];
    cbn in *; try done.
  unfold numel. unfold p_shape in Hl. congruence.
Qed.

Lemma model_numel_shapes (m m' : memory) (ids : list nat) :
  p_shape <$> m_params m' = p_shape <$> m_params m ->
  model_numel m' ids = model_numel m ids.
Proof.
  intros Heq. unfold model_numel. f_equal. apply list_fmap_ext.
  intros _ id _. by apply numel_at_shapes.
Qed.

Lemma slice_start_shapes (m m' : memory) (ids : list nat) (i : nat) :
  p_shape <$> m_params m' = p_shape <$> m_params m ->
  slice_start m' ids i = slice_start m ids i.
Proof.
  intros Heq. unfold slice_start. do 2 f_equal. apply list_fmap_ext.
  intros _ id _. by apply numel_at_shapes.
Qed.

Lemma alias_pass_spec (upd : tensor -> parameter -> parameter)
    (flat : tensor) (n : nat) :
  (forall v p, t_shape v = p_shape p -> p_shape (upd v p) = p_shape p) ->
  t_shape flat = [n] ->
  forall (ids : list nat) (start : nat) (w : world),
    Forall (fun id => id < length (m_params (w_mem w))) ids ->
    start + model_numel (w_mem w) ids <= n ->
    exists ps',
      alias_pass upd flat ids start w
        = (Ok (start + model_numel (w_mem w) ids), with_params w ps') /\
      p_shape <$> ps' = p_shape <$> m_params (w_mem w) /\
      (forall id, id ∉ ids -> ps' !! id = m_params (w_mem w) !! id) /\
      (NoDup ids ->
       forall i id p,
         ids !! i = Some id -> m_params (w_mem w) !! id = Some p ->
         ps' !! id
         = Some (upd (view_at flat (start + slice_start (w_mem w) ids i)
                        (p_shape p)) p)).
Proof.
  intros Hupd Hflat ids.
  induction ids as [|id ids IH]; intros start w Hvalid Hle.
  - exists (m_params (w_mem w)). unfold model_numel. cbn.
    rewrite Nat.add_0_r. destruct w as [[h ps] tr].
    repeat split; done.
  - apply Forall_cons in Hvalid as [Hid Hvalid].
    destruct (lookup_lt_is_Some_2 _ _ Hid) as [p Hp].
    unfold model_numel in Hle. cbn in Hle.
    assert (Hnum : numel_at (w_mem w) id = numel (p_data p))
      by (unfold numel_at; by rewrite Hp).
    rewrite Hnum in Hle.
    set (v := view_at flat start (p_shape p)).
    set (w1 := with_params w (alter (upd v) id (m_params (w_mem w)))).
    assert (Hshapes : p_shape <$> m_params (w_mem w1)
                      = p_shape <$> m_params (w_mem w)).
    { cbn. apply list_eq. intros k. rewrite !list_lookup_fmap.
      destruct (decide (k = id)) as [->|Hne].
      - rewrite list_lookup_alter_eq, Hp. cbn. f_equal. by apply Hupd.
      - by rewrite list_lookup_alter_ne. }
    destruct (IH (start + numel (p_data p)) w1) as (ps' & Hrun & Hsh & Hout & Hin).
    { cbn. rewrite length_alter. done. }
    { rewrite (model_numel_shapes _ _ _ Hshapes). unfold model_numel. lia. }
    exists ps'.
    split; [|split; [|split]].
    + unfold alias_pass. cbn [for_in]. unfold mbind at 1.
      unfold mbind at 1. unfold get_param at 1. rewrite Hp.
      unfold mbind at 1, lift at 1.
      change (numel (p_data p)) with (numel_of (p_shape p)).
      rewrite (slice_view flat n start (p_shape p) Hflat)
        by (unfold numel, p_shape in *; lia).
      unfold mbind at 1, modify_param at 1. unfold ret at 1.
      transitivity (alias_pass upd flat ids (start + numel (p_data p)) w1);
        [reflexivity|].
      rewrite Hrun. rewrite (model_numel_shapes _ _ _ Hshapes).
      unfold model_numel. cbn. rewrite Hnum. f_equal. f_equal. lia.
    + by rewrite Hsh.
    + intros id' Hnotin. apply not_elem_of_cons in Hnotin as [Hne Hnotin].
      rewrite (Hout _ Hnotin). cbn. by rewrite list_lookup_alter_ne.
    + intros Hnd i id' p' Hi Hp'. apply NoDup_cons in Hnd as [Hnotin Hnd].
      destruct i as [|i]; cbn in Hi.
      * injection Hi as <-. rewrite (Hout _ Hnotin). cbn.
        rewrite list_lookup_alter_eq, Hp. cbn. rewrite Hp in Hp'.
        injection Hp' as <-. unfold slice_start. cbn.
        by rewrite Nat.add_0_r.
      * assert (Hne : id <> id').
        { intros ->. apply Hnotin. by eapply list_elem_of_lookup_2. }
        rewrite (Hin Hnd i id' p' Hi).
        -- rewrite (slice_start_shapes _ _ _ _ Hshapes).
           replace (start + slice_start (w_mem w) (id :: ids) (S i))
             with (start + numel (p_data p) + slice_start (w_mem w) ids i);
             [done|].
           unfold slice_start. cbn. rewrite Hnum. lia.
        -- cbn. by rewrite list_lookup_alter_ne.
Qed.

End FlatBufferFacts.

(** ** Ranges that tile an interval *)

Lemma sum_list_take_drop (l : list nat) (k : nat) :
  sum_list (take k l) + sum_list (drop k l) = sum_list l.
Proof. by rewrite <- sum_list_with_app, take_drop. Qed.

Lemma sum_list_take_S (l : list nat) (i x : nat) :
  l !! i = Some x -> sum_list (take (S i) l) = sum_list (take i l) + x.
Proof.
  intros Hi. rewrite (take_S_r _ _ _ Hi), sum_list_with_app. cbn. lia.
Qed.

Lemma sum_list_take_mono (l : list nat) (i j : nat) :
  i <= j -> sum_list (take i l) <= sum_list (take j l).
Proof.
  intros Hij. replace (take i l) with (take i (take j l))
    by (rewrite take_take; f_equal; lia).
  pose proof (sum_list_take_drop (take j l) i). lia.
Qed.

Lemma prefix_sums_tile (l : list nat) :
  tiles (fun i => sum_list (take i l)) (fun i => default 0 (l !! i))
        (length l) (sum_list l).
Proof.
  split; [|split].
  - intros i Hi. destruct (lookup_lt_is_Some_2 _ _ Hi) as [x Hx].
    rewrite Hx. cbn. rewrite <- (sum_list_take_S _ _ _ Hx).
    pose proof (sum_list_take_drop l (S i)). lia.
  - intros i j Hij Hj.
    destruct (lookup_lt_is_Some_2 l i ltac:(lia)) as [x Hx].
    rewrite Hx. cbn. rewrite <- (sum_list_take_S _ _ _ Hx).
    apply sum_list_take_mono. lia.
  - induction l as [|x l IH]; intros k Hk; cbn in Hk; [lia|].
    destruct (decide (k < x)) as [Hlt|Hge].
    + exists 0. cbn. split; [lia|]. split; lia.
    + destruct (IH (k - x)) as (i & Hi & Hlo & Hhi); [lia|].
      exists (S i). cbn in *. unfold id in *. split; [lia|].
      set (s := sum_list_with _ (take i l)) in *.
      set (d := from_option _ _ _) in *. lia.
Qed.

Section ConstructionFacts.
Context `{Scalar} `{!ReplicaExecutor} `{!Transport}.

Lemma size_loop (ids : list nat) :
  forall (acc : nat) (w : world),
    Forall (fun id => id < length (m_params (w_mem w))) ids ->
    for_in ids (fun id size =>
      param <- get_param id ;; ret (size + numel (p_data param)))%st acc w
    = (Ok (acc + model_numel (w_mem w) ids), w).
Proof.
  induction ids as [|id ids IH]; intros acc w Hvalid.
  - unfold model_numel. cbn. unfold ret. by rewrite Nat.add_0_r.
  - apply Forall_cons in Hvalid as [Hid Hvalid].
    destruct (lookup_lt_is_Some_2 _ _ Hid) as [p Hp].
    cbn [for_in]. unfold mbind at 1. unfold mbind at 1, get_param at 1.
    rewrite Hp. unfold ret at 1. rewrite IH by done.
    unfold model_numel. cbn. unfold numel_at at 2. rewrite Hp. cbn.
    do 2 f_equal. lia.
Qed.

Lemma get_model_parameter_size_spec (mg : model_gen) (w : world) :
  Forall (fun id => id < length (m_params (w_mem w))) (models mg) ->
  get_model_parameter_size mg w
  = (Ok (model_numel (w_mem w) (models mg)), w).
Proof. intros Hv. unfold get_model_parameter_size. by rewrite size_loop. Qed.

Lemma update_model_params_loc_alias (ids : list nat) (flat : tensor) (w : world) :
  update_model_params_loc ids flat w =
    match alias_pass set_data flat ids 0 w with
    | (Ok _, w') => (Ok tt, w')
    | (Raise e, w') => (Raise e, w')
    end.
Proof. reflexivity. Qed.

Lemma update_model_grads_loc_alias (ids : list nat) (flat : tensor) (w : world) :
  update_model_grads_loc ids flat w =
    match alias_pass set_grad flat ids 0 w with
    | (Ok _, w') => (Ok tt, w')
    | (Raise e, w') => (Raise e, w')
    end.
Proof. reflexivity. Qed.

(** A pass over a replica whose element count is the buffer's length. *)
Lemma pass_spec (upd : tensor -> parameter -> parameter) (flat : tensor)
    (ids : list nat) (w : world) :
  (forall v p, t_shape v = p_shape p -> p_shape (upd v p) = p_shape p) ->
  t_shape flat = [model_numel (w_mem w) ids] ->
  Forall (fun id => id < length (m_params (w_mem w))) ids ->
  exists ps',
    (alias_pass upd flat ids 0 w).2 = with_params w ps' /\
    is_ok (alias_pass upd flat ids 0 w).1 = true /\
    p_shape <$> ps' = p_shape <$> m_params (w_mem w) /\
    (forall id, id ∉ ids -> ps' !! id = m_params (w_mem w) !! id) /\
    (NoDup ids ->
     forall i id p,
       ids !! i = Some id -> m_params (w_mem w) !! id = Some p ->
       ps' !! id
       = Some (upd (view_at flat (slice_start (w_mem w) ids i) (p_shape p)) p)).
Proof.
  intros Hupd Hflat Hvalid.
  destruct (alias_pass_spec upd flat _ Hupd Hflat ids 0 w Hvalid)
    as (ps' & Hrun & Hsh & Hout & Hin); [lia|].
  exists ps'. rewrite Hrun. repeat split; done.
Qed.

Lemma params_pass_run (ids : list nat) (flat : tensor) (w w' : world) :
  (alias_pass set_data flat ids 0 w).2 = w' ->
  is_ok (alias_pass set_data flat ids 0 w).1 = true ->
  update_model_params_loc ids flat w = (Ok tt, w').
Proof.
  rewrite update_model_params_loc_alias.
  destruct (alias_pass set_data flat ids 0 w) as [[a|e] w'']; cbn;
    [congruence|discriminate].
Qed.

Lemma grads_pass_run (ids : list nat) (flat : tensor) (w w' : world) :
  (alias_pass set_grad flat ids 0 w).2 = w' ->
  is_ok (alias_pass set_grad flat ids 0 w).1 = true ->
  update_model_grads_loc ids flat w = (Ok tt, w').
Proof.
  rewrite update_model_grads_loc_alias.
  destruct (alias_pass set_grad flat ids 0 w) as [[a|e] w'']; cbn;
    [congruence|discriminate].
Qed.

Lemma shapes_length (ps ps' : list parameter) :
  p_shape <$> ps' = p_shape <$> ps -> length ps' = length ps.
Proof. intros Heq. by rewrite <- (length_fmap p_shape ps'), Heq, length_fmap. Qed.

(** What [__init__] builds. *)
Lemma init_spec (mg1 mg2 : model_gen) (bs : Z) (ssz nsp sm : pyobj)
    (c1 c2 : comm) (ldl crit opt : pyobj) (pts : Z) (async : bool) (repl : Z)
    (w : world) :
  let m := w_mem w in
  let h := m_heap m in
  let n1 := model_numel m (models mg1) in
  let n2 := model_numel m (models mg2) in
  let flat (loc n : nat) (rg : bool) :=
    {| t_storage := loc; t_offset := 0; t_shape := [n];
       t_requires_grad := rg |} in
  Forall (fun id => id < length (m_params m)) (models mg1 ++ models mg2) ->
  NoDup (models mg1 ++ models mg2) ->
  exists self w',
    init mg1 mg2 bs ssz nsp sm c1 c2 ldl crit opt pts async repl w
      = (Ok self, w') /\
    w_trace w' = w_trace w /\
    mp_size self = comm_mp_size c1 /\
    local_rank self = comm_local_rank c1 /\
    mpi_comm_first self = c1 /\
    batch_size self = bs /\
    parts self = pts /\
    model1_size self = n1 /\
    model2_size self = n2 /\
    flat_params_model1 self = flat (length h) n1 true /\
    flat_params_model2 self = flat (length h + 1) n2 true /\
    flat_grads_model1 self = flat (length h + 2) n1 false /\
    flat_grads_model2 self = flat (length h + 3) n2 false /\
    m_heap (w_mem w')
      = h ++ [replicate n1 szero; replicate n2 szero;
              replicate n1 szero; replicate n2 szero] /\
    p_shape <$> m_params (w_mem w') = p_shape <$> m_params m /\
    laid_out m (w_mem w') (models mg1) (flat (length h) n1 true) (flat (length h + 2) n1 false) /\
    laid_out m (w_mem w') (models mg2) (flat (length h + 1) n2 true) (flat (length h + 3) n2 false) /\
    (forall id, id ∉ models mg1 ++ models mg2 ->
                m_params (w_mem w') !! id = m_params m !! id).
Proof.
  intros m h n1 n2 flat Hvalid Hnd. subst flat h m. cbn beta zeta in *.
  apply Forall_app in Hvalid as [Hvalid1 Hvalid2].
  apply NoDup_app in Hnd as (Hnd1 & Hdisj & Hnd2).
  unfold init.
  unfold mbind at 1. rewrite get_model_parameter_size_spec by done.
  unfold mbind at 1. rewrite get_model_parameter_size_spec by done.
  fold n1 n2.
  unfold mbind, torch_zeros, ret.
  cbn -[update_model_params_loc update_model_grads_loc numel_of].
  rewrite !length_app. cbn [length]. rewrite <- !app_assoc. cbn [app].
  rewrite !numel_of_flat. rewrite <- !Nat.add_assoc. cbn [Nat.add].
  set (h' := m_heap (w_mem w) ++ _).
  set (fp1 := {| t_storage := length (m_heap (w_mem w)); t_offset := 0;
                 t_shape := [n1]; t_requires_grad := true |}).
  set (fp2 := {| t_storage := length (m_heap (w_mem w)) + 1; t_offset := 0;
                 t_shape := [n2]; t_requires_grad := true |}).
  set (fg1 := {| t_storage := length (m_heap (w_mem w)) + 2; t_offset := 0;
                 t_shape := [n1]; t_requires_grad := false |}).
  set (fg2 := {| t_storage := length (m_heap (w_mem w)) + 3; t_offset := 0;
                 t_shape := [n2]; t_requires_grad := false |}).
  set (w4 := {| w_mem := {| m_heap := h'; m_params := m_params (w_mem w) |};
                w_trace := w_trace w |}).
  (* pass 1 *)
  destruct (pass_spec set_data fp1 (models mg1) w4)
    as (ps1 & Hw1 & Hok1 & Hsh1 & Hout1 & Hin1); [done..|].
  specialize (Hin1 Hnd1).
  set (w5 := with_params w4 ps1) in *.
  (* pass 2 *)
  destruct (pass_spec set_data fp2 (models mg2) w5)
    as (ps2 & Hw2 & Hok2 & Hsh2 & Hout2 & Hin2); [done| |..].
  { cbn. f_equal. by apply model_numel_shapes. }
  { cbn. by rewrite (shapes_length _ _ Hsh1). }
  specialize (Hin2 Hnd2). cbn in Hsh2. rewrite Hsh1 in Hsh2. cbn in Hsh2.
  set (w6 := with_params w5 ps2) in *.
  (* pass 3 *)
  destruct (pass_spec set_grad fg1 (models mg1) w6)
    as (ps3 & Hw3 & Hok3 & Hsh3 & Hout3 & Hin3); [done| |..].
  { cbn. f_equal. by apply model_numel_shapes. }
  { cbn. by rewrite (shapes_length _ _ Hsh2). }
  specialize (Hin3 Hnd1). cbn in Hsh3. rewrite Hsh2 in Hsh3.
  set (w7 := with_params w6 ps3) in *.
  (* pass 4 *)
  destruct (pass_spec set_grad fg2 (models mg2) w7)
    as (ps4 & Hw4 & Hok4 & Hsh4 & Hout4 & Hin4); [done| |..].
  { cbn. f_equal. by apply model_numel_shapes. }
  { cbn. by rewrite (shapes_length _ _ Hsh3). }
  specialize (Hin4 Hnd2). cbn in Hsh4. rewrite Hsh3 in Hsh4.
  rewrite (params_pass_run _ _ _ _ Hw1 Hok1), (params_pass_run _ _ _ _ Hw2 Hok2),
    (grads_pass_run _ _ _ _ Hw3 Hok3), (grads_pass_run _ _ _ _ Hw4 Hok4).
  eexists _, _. split; [reflexivity|]. cbn.
  repeat (split; [done|]).
  assert (Hs5 : forall ids i, slice_start (w_mem w5) ids i = slice_start (w_mem w) ids i)
    by (intros; by apply slice_start_shapes).
  assert (Hs6 : forall ids i, slice_start (w_mem w6) ids i = slice_start (w_mem w) ids i)
    by (intros; by apply slice_start_shapes).
  assert (Hs7 : forall ids i, slice_start (w_mem w7) ids i = slice_start (w_mem w) ids i)
    by (intros; by apply slice_start_shapes).
  split; [|split].
  - intros i id p Hi Hp. cbn.
    assert (Hnot2 : id ∉ models mg2)
      by (apply Hdisj; by eapply list_elem_of_lookup_2).
    rewrite (Hout4 id Hnot2). cbn.
    rewrite (Hin3 i id (set_data (view_at fp1 (slice_start (w_mem w) (models mg1) i)
                                    (p_shape p)) p) Hi).
    + by rewrite Hs6.
    + cbn. rewrite (Hout2 id Hnot2). cbn. by rewrite (Hin1 i id p Hi Hp).
  - intros i id p Hi Hp. cbn.
    assert (Hnot1 : id ∉ models mg1).
    { intros Hin. apply (Hdisj _ Hin). by eapply list_elem_of_lookup_2. }
    rewrite (Hin4 i id (set_data (view_at fp2 (slice_start (w_mem w) (models mg2) i)
                                    (p_shape p)) p) Hi).
    + by rewrite Hs7.
    + cbn. rewrite (Hout3 id Hnot1). cbn.
      rewrite (Hin2 i id p Hi); [by rewrite Hs5|].
      cbn. by rewrite (Hout1 id Hnot1).
  - intros id Hnot. apply not_elem_of_app in Hnot as [Hnot1 Hnot2].
    rewrite (Hout4 id Hnot2). cbn. rewrite (Hout3 id Hnot1). cbn.
    rewrite (Hout2 id Hnot2). cbn. by rewrite (Hout1 id Hnot1).
Qed.

End ConstructionFacts.

Section AliasingFacts.
Context `{Scalar} `{!ReplicaExecutor} `{!Transport}.

Lemma ravel_lt (shape idx : list nat) (j : nat) :
  ravel shape idx = Some j -> j < numel_of shape.
Proof.
  revert idx j. induction shape as [|d shape IH]; intros [|i idx] j; cbn;
    try done.
  - intros [= <-]. lia.
  - case_decide as Hid; [|done].
    destruct (ravel shape idx) as [r|] eqn:Hr; [|done].
    intros [= <-]. specialize (IH _ _ Hr). unfold numel_of in *. cbn. nia.
Qed.

Lemma ravel_flat (n k : nat) : k < n -> ravel [n] [k] = Some k.
Proof. intros Hk. cbn. rewrite decide_True by done. f_equal. lia. Qed.

Lemma set_flat_get_flat (hh : heap) (t : tensor) (j : nat) (v : scalar) :
  valid hh t = true -> j < numel t ->
  exists h1, set_flat hh t j v = Ok h1 /\ get_flat h1 t j = Ok v /\
             forall t', valid hh t' = true -> valid h1 t' = true.
Proof.
  intros Hv Hj. destruct (valid_storage _ _ Hv) as (s & Hs & Hle).
  unfold set_flat, get_flat. rewrite !decide_True by done.
  eexists. split; [done|]. split.
  - rewrite list_lookup_alter_eq, Hs. cbn.
    rewrite list_lookup_insert_eq by lia. cbn. by rewrite decide_True.
  - intros t' Ht'. destruct (valid_storage _ _ Ht') as (s' & Hs' & Hle').
    unfold valid. destruct (decide (t_storage t = t_storage t')) as [Heq|Hne].
    + rewrite <- Heq, list_lookup_alter_eq, Hs. cbn.
      rewrite Heq, Hs' in Hs. injection Hs as <-.
      apply bool_decide_eq_true_2. by rewrite length_insert.
    + rewrite list_lookup_alter_ne, Hs' by done.
      by apply bool_decide_eq_true_2.
Qed.

Lemma window_aliases (flat : tensor) (n start : nat) (shape : list nat) :
  t_shape flat = [n] -> start + numel_of shape <= n ->
  aliases flat (view_at flat start shape) start.
Proof.
  intros Hflat Hle idx j hh Hj Hv. cbn in Hj.
  pose proof (ravel_lt _ _ _ Hj) as Hlt.
  assert (Hn : numel flat = n) by (unfold numel; rewrite Hflat; apply numel_of_flat).
  assert (Hget : forall h0, get h0 flat [start + j] = get_flat h0 flat (start + j)).
  { intros h0. unfold get. by rewrite Hflat, ravel_flat by lia. }
  assert (Hset : forall h0 v, set h0 flat [start + j] v = set_flat h0 flat (start + j) v).
  { intros h0 v. unfold set. by rewrite Hflat, ravel_flat by lia. }
  assert (Hgetv : forall h0, get h0 (view_at flat start shape) idx
                             = get_flat h0 flat (start + j)).
  { intros h0. unfold get. cbn. rewrite Hj. unfold get_flat, numel. cbn -[numel_of].
    rewrite Hflat, numel_of_flat, !decide_True by lia.
    by rewrite Nat.add_assoc. }
  assert (Hsetv : forall h0 v, set h0 (view_at flat start shape) idx v
                               = set_flat h0 flat (start + j) v).
  { intros h0 v. unfold set. cbn. rewrite Hj. unfold set_flat, numel. cbn -[numel_of].
    rewrite Hflat, numel_of_flat, !decide_True by lia.
    by rewrite Nat.add_assoc. }
  split; [by rewrite Hget, Hgetv|]. intros v.
  destruct (set_flat_get_flat hh flat (start + j) v Hv) as (h1 & Hs1 & Hg1 & Hval);
    [lia|].
  exists h1. rewrite Hset, Hsetv, Hget, Hgetv. repeat split; auto.
Qed.

End AliasingFacts.

Section FlatBufferClaims.
Context `{Scalar} `{!ReplicaExecutor} `{!Transport}.

Lemma slices_tile (m : memory) (ids : list nat) :
  tiles (slice_start m ids) (slice_size m ids) (length ids) (model_numel m ids).
Proof.
  pose proof (prefix_sums_tile (numel_at m <$> ids)) as Ht.
  by rewrite length_fmap in Ht.
Qed.

Lemma slice_size_numel (m : memory) (ids : list nat) (i id : nat) (p : parameter) :
  ids !! i = Some id -> m_params m !! id = Some p ->
  slice_size m ids i = numel_of (p_shape p).
Proof.
  intros Hi Hp. unfold slice_size. rewrite list_lookup_fmap, Hi. cbn.
  unfold numel_at. by rewrite Hp.
Qed.

Lemma valid_fresh (h : heap) (k n : nat) (rg : bool) (l : list (list scalar)) :
  l !! k = Some (replicate n szero) ->
  valid (h ++ l) {| t_storage := length h + k; t_offset := 0;
                    t_shape := [n]; t_requires_grad := rg |} = true.
Proof.
  intros Hk. unfold valid. cbn -[numel].
  rewrite lookup_app_r by lia.
  replace (length h + k - length h) with k by lia. rewrite Hk.
  apply bool_decide_eq_true_2. unfold numel. cbn -[numel_of].
  rewrite numel_of_flat, length_replicate. lia.
Qed.

(** C3. Construction allocates, per replica, a fresh zero-filled flat
  parameter buffer that requires gradients and a fresh zero-filled flat
  gradient buffer that does not, each as long as the sum of the element
  counts of the replica's parameters; the aliasing passes give parameter
  number [i] the slice that starts where the slice of parameter [i - 1]
  ends (the first at 0), with the parameter's own shape, in both buffers;
  these slices lie in the buffer, no two of them meet, and they cover it. *)
Theorem init_builds_flat_buffers (mg1 mg2 : model_gen) (bs : Z)
    (ssz nsp sm : pyobj) (c1 c2 : comm) (ldl crit opt : pyobj) (pts : Z)
    (async : bool) (repl : Z) (w : world) :
  let m := w_mem w in
  let h := m_heap m in
  Forall (fun id => id < length (m_params m)) (models mg1 ++ models mg2) ->
  NoDup (models mg1 ++ models mg2) ->
  exists self w',
    init mg1 mg2 bs ssz nsp sm c1 c2 ldl crit opt pts async repl w
      = (Ok self, w') /\
    model1_size self = model_numel m (models mg1) /\
    model2_size self = model_numel m (models mg2) /\
    flat_params_model1 self
      = {| t_storage := length h; t_offset := 0;
           t_shape := [model1_size self]; t_requires_grad := true |} /\
    flat_params_model2 self
      = {| t_storage := length h + 1; t_offset := 0;
           t_shape := [model2_size self]; t_requires_grad := true |} /\
    flat_grads_model1 self
      = {| t_storage := length h + 2; t_offset := 0;
           t_shape := [model1_size self]; t_requires_grad := false |} /\
    flat_grads_model2 self
      = {| t_storage := length h + 3; t_offset := 0;
           t_shape := [model2_size self]; t_requires_grad := false |} /\
    m_heap (w_mem w')
      = h ++ [replicate (model1_size self) szero;
              replicate (model2_size self) szero;
              replicate (model1_size self) szero;
              replicate (model2_size self) szero] /\
    laid_out m (w_mem w') (models mg1)
      (flat_params_model1 self) (flat_grads_model1 self) /\
    laid_out m (w_mem w') (models mg2)
      (flat_params_model2 self) (flat_grads_model2 self) /\
    tiles (slice_start m (models mg1)) (slice_size m (models mg1))
      (length (models mg1)) (model1_size self) /\
    tiles (slice_start m (models mg2)) (slice_size m (models mg2))
      (length (models mg2)) (model2_size self) /\
    (forall ids i id p,
        ids !! i = Some id -> m_params m !! id = Some p ->
        slice_size m ids i = numel_of (p_shape p)).
Proof.
  intros m h Hvalid Hnd.
  destruct (init_spec mg1 mg2 bs ssz nsp sm c1 c2 ldl crit opt pts async repl
              w Hvalid Hnd)
    as (self & w' & Hrun & _ & _ & _ & _ & _ & _ & Hn1 & Hn2 & Hfp1 & Hfp2
        & Hfg1 & Hfg2 & Hheap & _ & Hl1 & Hl2 & _).
  exists self, w'. rewrite Hfp1, Hfp2, Hfg1, Hfg2, Hn1, Hn2.
  repeat (split; [done|]).
  split; [apply slices_tile|]. split; [apply slices_tile|].
  intros ids i id p. apply slice_size_numel.
Qed.

(** C4. After construction every parameter's data tensor is a window of its
  replica's flat parameter buffer: a write through either is the same
  update of the heap and is read back through both. For a replica with
  parameters of shapes (3, 4) and (5,) the buffer has 17 elements, a value
  written at flat index 0 is read at [0, 0] of the first parameter, and a
  value written at [0, 0] of the first parameter is read at flat index 0. *)
Theorem flat_views_round_trip (mg1 mg2 : model_gen) (bs : Z)
    (ssz nsp sm : pyobj) (c1 c2 : comm) (ldl crit opt : pyobj) (pts : Z)
    (async : bool) (repl : Z) (w : world) :
  let m := w_mem w in
  Forall (fun id => id < length (m_params m)) (models mg1 ++ models mg2) ->
  NoDup (models mg1 ++ models mg2) ->
  exists self w',
    init mg1 mg2 bs ssz nsp sm c1 c2 ldl crit opt pts async repl w
      = (Ok self, w') /\
    let h' := m_heap (w_mem w') in
    valid h' (flat_params_model1 self) = true /\
    valid h' (flat_params_model2 self) = true /\
    (forall i id,
        models mg1 !! i = Some id ->
        exists q,
          m_params (w_mem w') !! id = Some q /\
          aliases (flat_params_model1 self) (p_data q)
                  (slice_start m (models mg1) i)) /\
    (forall i id,
        models mg2 !! i = Some id ->
        exists q,
          m_params (w_mem w') !! id = Some q /\
          aliases (flat_params_model2 self) (p_data q)
                  (slice_start m (models mg2) i)) /\
    (forall id0 id1 p0 p1,
        models mg1 = [id0; id1] ->
        m_params m !! id0 = Some p0 -> p_shape p0 = [3; 4] ->
        m_params m !! id1 = Some p1 -> p_shape p1 = [5] ->
        model1_size self = 17 /\
        exists q0,
          m_params (w_mem w') !! id0 = Some q0 /\
          t_shape (p_data q0) = [3; 4] /\
          forall v : scalar,
            (exists h1, set h' (flat_params_model1 self) [0] v = Ok h1 /\
                        get h1 (p_data q0) [0; 0] = Ok v) /\
            (exists h2, set h' (p_data q0) [0; 0] v = Ok h2 /\
                        get h2 (flat_params_model1 self) [0] = Ok v)).
Proof.
  intros m Hvalid Hnd.
  destruct (init_spec mg1 mg2 bs ssz nsp sm c1 c2 ldl crit opt pts async repl
              w Hvalid Hnd)
    as (self & w' & Hrun & _ & _ & _ & _ & _ & _ & Hn1 & Hn2 & Hfp1 & Hfp2
        & Hfg1 & Hfg2 & Hheap & _ & Hl1 & Hl2 & _).
  fold m in Hn1, Hn2, Hfp1, Hfp2, Hfg1, Hfg2, Hheap, Hl1, Hl2.
  rewrite <- Hfp1, <- Hfg1 in Hl1. rewrite <- Hfp2, <- Hfg2 in Hl2.
  apply Forall_app in Hvalid as [Hvalid1 Hvalid2].
  exists self, w'. split; [done|]. intros h'.
  assert (Hv1 : valid h' (flat_params_model1 self) = true).
  { subst h'. rewrite Hheap, Hfp1.
    rewrite <- (Nat.add_0_r (length (m_heap m))). by apply valid_fresh. }
  assert (Hv2 : valid h' (flat_params_model2 self) = true).
  { subst h'. rewrite Hheap, Hfp2. by apply valid_fresh. }
  assert (Hwin : forall ids fp fg n i id,
             laid_out m (w_mem w') ids fp fg -> t_shape fp = [n] ->
             n = model_numel m ids ->
             Forall (fun id => id < length (m_params m)) ids ->
             ids !! i = Some id ->
             exists q, m_params (w_mem w') !! id = Some q /\
                       t_shape (p_data q) = from_option p_shape [] (m_params m !! id) /\
                       aliases fp (p_data q) (slice_start m ids i)).
  { intros ids fp fg n i id Hl Hshape -> Hval Hi.
    assert (Hid : id < length (m_params m)).
    { eapply Forall_forall in Hval; [done|]. by eapply list_elem_of_lookup_2. }
    destruct (lookup_lt_is_Some_2 _ _ Hid) as [p Hp].
    exists (aliased fp fg (slice_start m ids i) p).
    split; [by apply Hl|]. rewrite Hp. split; [done|].
    apply (window_aliases fp (model_numel m ids)); [done|].
    destruct (slices_tile m ids) as (Hin & _).
    rewrite <- (slice_size_numel m ids i id p Hi Hp).
    apply Hin. by eapply lookup_lt_Some. }
  split; [done|]. split; [done|].
  split; [|split].
  - intros i id Hi.
    destruct (Hwin _ _ _ _ i id Hl1 (f_equal t_shape Hfp1)
                eq_refl Hvalid1 Hi) as (q & Hq & _ & Hal).
    by exists q.
  - intros i id Hi.
    destruct (Hwin _ _ _ _ i id Hl2 (f_equal t_shape Hfp2)
                eq_refl Hvalid2 Hi) as (q & Hq & _ & Hal).
    by exists q.
  - intros id0 id1 p0 p1 Hids Hp0 Hs0 Hp1 Hs1.
    split.
    { rewrite Hn1, Hids. unfold model_numel. cbn. unfold numel_at.
      rewrite Hp0, Hp1. cbn. unfold numel. fold (p_shape p0) (p_shape p1).
      by rewrite Hs0, Hs1. }
    assert (Hi0 : models mg1 !! 0 = Some id0) by (by rewrite Hids).
    destruct (Hwin _ _ _ _ 0 id0 Hl1 (f_equal t_shape Hfp1)
                eq_refl Hvalid1 Hi0) as (q & Hq & Hsq & Hal).
    rewrite Hp0 in Hsq. cbn in Hsq. rewrite Hs0 in Hsq.
    exists q. split; [done|]. split; [done|]. intros v.
    destruct (Hal [0; 0] 0 h') as [_ Hw]; [by rewrite Hsq|done|].
    destruct (Hw v) as (h1 & Hset1 & Hset2 & Hget1 & Hget2 & _).
    assert (Hzero : slice_start m (models mg1) 0 + 0 = 0) by done.
    rewrite Hzero in Hset1, Hget1.
    split; by exists h1.
Qed.

End FlatBufferClaims.

Section StepFacts.
Context `{Scalar} `{!ReplicaExecutor} `{!Transport}.

Lemma yields_ret {A : Type} (a : A) (w : world) : yields (ret a) w a (w_mem w) [].
Proof. unfold yields, ret. destruct w. cbn. by rewrite app_nil_r. Qed.

Lemma yields_lift {A : Type} (a : A) (w : world) :
  yields (lift (Ok a)) w a (w_mem w) [].
Proof. apply (yields_ret a w). Qed.

Lemma yields_bind {A B : Type} (c : M A) (k : A -> M B) (w : world)
    (a : A) (m1 : memory) (evs1 : list event)
    (b : B) (m2 : memory) (evs2 evs : list event) :
  yields c w a m1 evs1 ->
  yields (k a) {| w_mem := m1; w_trace := w_trace w ++ evs1 |} b m2 evs2 ->
  evs = evs1 ++ evs2 ->
  yields (mbind c k) w b m2 evs.
Proof.
  unfold yields, mbind. intros -> -> ->. cbn. by rewrite app_assoc.
Qed.

Lemma yields_emit (e : event) (w : world) : yields (emit e) w tt (w_mem w) [e].
Proof. reflexivity. Qed.

Lemma yields_isend (t : tensor) (dst tag : Z) (w : world) :
  yields (isend t dst tag) w
    {| req_id := length (w_trace w); req_recv := None |} (w_mem w)
    [Isend t dst tag].
Proof. reflexivity. Qed.

Lemma yields_irecv (t : tensor) (src tag : Z) (w : world) :
  yields (irecv t src tag) w
    {| req_id := length (w_trace w); req_recv := Some t |} (w_mem w)
    [Irecv t src tag].
Proof. reflexivity. Qed.

Lemma yields_wait (req : request) (w : world) :
  yields (wait req) w tt (delivered req (w_mem w)) [Wait (req_id req)].
Proof.
  unfold yields, wait, delivered, mbind, emit, get_heap, put_heap, ret.
  destruct (req_recv req); [done|]. by destruct w as [[h ps] tr].
Qed.

Lemma tensor_iadd_yields (a b : tensor) (w : world) :
  t_shape a = t_shape b ->
  yields (tensor_iadd a b) w tt
    {| m_heap := store (m_heap (w_mem w)) a
                   (zip_with sadd (contents (m_heap (w_mem w)) a)
                                  (contents (m_heap (w_mem w)) b));
       m_params := m_params (w_mem w) |} [].
Proof.
  intros Hs. unfold yields. rewrite tensor_iadd_ok by done.
  by rewrite app_nil_r.
Qed.

Lemma torch_zeros_yields (shape : list nat) (rg : bool) (w : world) :
  yields (torch_zeros shape rg) w (zeros shape rg (m_heap (w_mem w))).1
    {| m_heap := (zeros shape rg (m_heap (w_mem w))).2;
       m_params := m_params (w_mem w) |} [].
Proof. unfold yields, torch_zeros. cbn. by rewrite app_nil_r. Qed.

(** The parameter exchange of a rank that is not the edge rank. *)
Lemma send_recv_params_yields (self : master) (odd_iteration : bool) (w : world) :
  let partner := (mp_size self - 1 - comm_local_rank (mpi_comm_first self))%Z in
  let n := length (w_trace w) in
  let send := Isend (if odd_iteration then flat_params_model2 self
                     else flat_params_model1 self) partner 0 in
  let recv := Irecv (if odd_iteration then flat_params_model1 self
                     else flat_params_model2 self) partner 0 in
  exists m',
    yields (send_recv_params self odd_iteration) w tt m'
      ([Synchronize]
         ++ (if (local_rank self <? mp_size self ÷ 2)%Z
             then [send; recv] else [recv; send])
         ++ [Wait (n + 1); Wait (n + 2)]).
Proof.
  intros partner n send recv. subst partner n send recv.
  unfold yields, send_recv_params, send_params_model, recv_params_model.
  run_monad.
  destruct odd_iteration, (local_rank self <? mp_size self `quot` 2)%Z; cbn;
    eexists; do 2 f_equal; trace_eq.
Qed.

(** The gradient exchange of a rank that is not the edge rank. *)
Lemma send_recv_grads_yields (self : master) (odd_iteration : bool) (w : world) :
  t_shape (flat_grads_model1 self) = [model1_size self] ->
  t_shape (flat_grads_model2 self) = [model2_size self] ->
  let partner := (mp_size self - 1 - comm_local_rank (mpi_comm_first self))%Z in
  let n := length (w_trace w) in
  let flat_grads_recv :=
    {| t_storage := length (m_heap (w_mem w)); t_offset := 0;
       t_shape := [if odd_iteration then model1_size self else model2_size self];
       t_requires_grad := false |} in
  exists m',
    yields (send_recv_grads self odd_iteration) w tt m'
      [Synchronize;
       Isend (if odd_iteration then flat_grads_model2 self
              else flat_grads_model1 self) partner 0;
       Irecv flat_grads_recv partner 0;
       Wait (n + 1); Wait (n + 2)].
Proof.
  intros Hs1 Hs2 partner n fresh. subst partner n fresh.
  unfold yields, send_recv_grads, send_grads_model, recv_grads_model.
  destruct odd_iteration.
  all: unfold mbind, synchronize, emit, lift, int_truediv, get_heap, put_heap,
    ret, wait, isend, irecv, torch_zeros; cbn -[tensor_iadd].
  all: destruct (local_rank self >=? mp_size self `quot` 2)%Z; cbn -[tensor_iadd].
  all: rewrite tensor_iadd_ok by (cbn; congruence).
  all: eexists; do 2 f_equal; cbn; trace_eq.
Qed.

End StepFacts.

Section LoopFacts.
Context `{Scalar} `{!ReplicaExecutor} `{!Transport}.

(** The loop over the micro-parts that runs the forward passes. *)
Lemma forward_loop_yields (self : master) (tm : executor)
    (data_x : list sample) (data_y : list label) (parts_size : Z)
    (ks : list Z) :
  forall (y_list : list out) (loss corrects : scalar) (w : world),
    let evs := (forward_events tm data_x data_y parts_size ks (w_mem w)).1 in
    yields
      (for_in ks (fun i acc =>
         let '(y_list, loss, corrects) := acc in
         let start := (i * parts_size)%Z in
         let end_ := ((i + 1) * parts_size)%Z in
         r <- call_forward_pass tm
                (Py.slice data_x (Some start) (Some end_))
                (Py.slice data_y (Some start) (Some end_)) i ;;
         let '(temp_y, temp_correct) := r in
         let y_list := y_list ++ [temp_y] in
         if (tm_split_rank (tm_of self tm) =? tm_split_size (tm_of self tm) - 1)%Z
         then ret (y_list, sadd loss (item temp_y), sadd corrects (item temp_correct))
         else ret (y_list, loss, corrects))%st
         (y_list, loss, corrects))
      w
      (y_list ++ flat_map forward_out evs,
       foldl sadd loss (flat_map (loss_of self) evs),
       foldl sadd corrects (flat_map (corrects_of self) evs))
      (forward_events tm data_x data_y parts_size ks (w_mem w)).2
      evs.
Proof.
  unfold loss_of, corrects_of, terminal.
  destruct (tm_split_rank (tm_of self tm) =? tm_split_size (tm_of self tm) - 1)%Z
    eqn:Hterm.
  all: induction ks as [|i ks IH]; intros y_list loss corrects w.
  all: cbv zeta in *.
  1, 3: cbn; rewrite app_nil_r; apply yields_ret.
  all: cbn [for_in forward_events fst snd].
  all: set (x := Py.slice data_x _ _); set (y := Py.slice data_y _ _).
  all: destruct (forward_pass tm (w_mem w) x y i) as [m1 [temp_y temp_correct]] eqn:Hf.
  all: set (w1 := {| w_mem := m1;
                     w_trace := w_trace w ++ [ForwardPass tm x y i (temp_y, temp_correct)] |}).
  - eapply (yields_bind _ _ w (y_list ++ [temp_y], sadd loss (item temp_y),
                               sadd corrects (item temp_correct)) m1
              [ForwardPass tm x y i (temp_y, temp_correct)]).
    + unfold yields, mbind, call_forward_pass. fold x y. by rewrite Hf.
    + specialize (IH (y_list ++ [temp_y]) (sadd loss (item temp_y))
                    (sadd corrects (item temp_correct)) w1).
      cbn [flat_map forward_out app foldl fst snd w_mem]. rewrite Hterm.
      cbn [app foldl]. rewrite (cons_middle temp_y y_list (flat_map forward_out _)),
        (app_assoc y_list [temp_y] (flat_map forward_out _)).
      exact IH.
    + reflexivity.
  - eapply (yields_bind _ _ w (y_list ++ [temp_y], loss, corrects) m1
              [ForwardPass tm x y i (temp_y, temp_correct)]).
    + unfold yields, mbind, call_forward_pass. fold x y. by rewrite Hf.
    + specialize (IH (y_list ++ [temp_y]) loss corrects w1).
      cbn [flat_map forward_out app foldl fst snd w_mem]. rewrite Hterm.
      cbn [app foldl]. rewrite (cons_middle temp_y y_list (flat_map forward_out _)),
        (app_assoc y_list [temp_y] (flat_map forward_out _)).
      exact IH.
    + reflexivity.
Qed.

Lemma index_in_range {A : Type} (l : list A) (i : Z) :
  (0 <= i < Z.of_nat (length l))%Z ->
  exists a, l !! Z.to_nat i = Some a /\ Py.index l i = Ok a.
Proof.
  intros [Hlo Hhi]. unfold Py.index.
  destruct (Z.ltb_spec i 0) as [Hneg|_]; [lia|].
  destruct (Z.ltb_spec i 0) as [Hneg|_]; [lia|].
  destruct (lookup_lt_is_Some_2 l (Z.to_nat i)) as [a Ha]; [lia|].
  exists a. by rewrite Ha.
Qed.

(** The loop over the micro-parts that runs the backward passes. *)
Lemma backward_loop_yields (tm : executor) (y_list : list out) (ks : list Z) :
  forall w : world,
    Forall (fun i => (0 <= i < Z.of_nat (length y_list))%Z) ks ->
    yields
      (for_in ks (fun i (_ : unit) =>
         y <- lift (Py.index y_list i) ;;
         call_backward_pass tm y i)%st tt)
      w tt
      (after_backward (backward_events tm y_list ks) (w_mem w))
      (backward_events tm y_list ks).
Proof.
  induction ks as [|i ks IH]; intros w Hks.
  - apply yields_ret.
  - apply Forall_cons in Hks as [Hi Hks].
    destruct (index_in_range y_list i Hi) as (y & Hy & Hidx).
    unfold backward_events. cbn [omap list_omap for_in]. rewrite Hy.
    cbn [fmap option_fmap option_map after_backward foldl].
    eapply (yields_bind _ _ w tt (backward_pass tm (w_mem w) y i)
              [BackwardPass tm y i]).
    + unfold yields, mbind, lift, call_backward_pass. by rewrite Hidx.
    + apply (IH {| w_mem := backward_pass tm (w_mem w) y i;
                   w_trace := w_trace w ++ [BackwardPass tm y i] |} Hks).
    + reflexivity.
Qed.

Lemma range_bounds (n : Z) :
  Forall (fun i => (0 <= i < Z.of_nat (Z.to_nat n))%Z) (Py.range n).
Proof.
  unfold Py.range. apply Forall_fmap, Forall_forall. intros k Hk.
  apply elem_of_seq in Hk. cbn. lia.
Qed.

Lemma length_range (n : Z) : length (Py.range n) = Z.to_nat n.
Proof. unfold Py.range. by rewrite length_fmap, length_seq. Qed.

Lemma forward_outs_length (tm : executor) (data_x : list sample)
    (data_y : list label) (parts_size : Z) (ks : list Z) :
  forall m,
    length (flat_map forward_out
              (forward_events tm data_x data_y parts_size ks m).1)
    = length ks.
Proof.
  induction ks as [|i ks IH]; intros m; [done|].
  cbn [forward_events fst flat_map forward_out].
  destruct (forward_pass tm m _ _ i) as [m1 [ty tc]]. cbn. by rewrite IH.
Qed.

Lemma forward_calls_events (tm : executor) (data_x : list sample)
    (data_y : list label) (parts_size : Z) (ks : list Z) :
  forall m,
    omap forward_call (forward_events tm data_x data_y parts_size ks m).1
    = (fun i => (tm,
                 Py.slice data_x (Some (i * parts_size)%Z)
                          (Some ((i + 1) * parts_size)%Z),
                 Py.slice data_y (Some (i * parts_size)%Z)
                          (Some ((i + 1) * parts_size)%Z), i)) <$> ks.
Proof.
  induction ks as [|i ks IH]; intros m; [done|].
  cbn [forward_events fst omap list_omap forward_call fmap list_fmap].
  by rewrite IH.
Qed.

Lemma backward_events_each (tm : executor) (ys : list out) (ks : list Z) :
  Forall (fun i => (0 <= i < Z.of_nat (length ys))%Z) ks ->
  Forall2 (fun i e => exists y, ys !! Z.to_nat i = Some y /\
                                e = BackwardPass tm y i)
          ks (backward_events tm ys ks).
Proof.
  induction 1 as [|i ks Hi Hks IH]; [constructor|].
  destruct (index_in_range ys i Hi) as (y & Hy & _).
  unfold backward_events. cbn [omap list_omap]. rewrite Hy. cbn.
  constructor; [by exists y|exact IH].
Qed.

End LoopFacts.

Section SchedulerFacts.
Context `{Scalar} `{!ReplicaExecutor} `{!Transport}.

Lemma yields_mem {A : Type} (c : M A) (w : world) (a : A) (m' : memory)
    (evs : list event) :
  yields c w a m' evs -> yields c w a (w_mem (c w).2) evs.
Proof. unfold yields. intros Heq. by rewrite Heq. Qed.

Lemma yields_skip {B : Type} (k : unit -> M B) (w : world) (b : B)
    (m' : memory) (evs : list event) :
  yields (k tt) w b m' evs -> yields (mbind (ret tt) k) w b m' evs.
Proof. done. Qed.

Lemma yields_last {A B : Type} (c : M A) (w : world) (a : A) (b : B)
    (m' : memory) (evs : list event) :
  yields c w a m' evs -> yields (mbind c (fun _ => ret b)) w b m' evs.
Proof. unfold yields, mbind, ret. by intros ->. Qed.

(** The edge rank's parameter receive, before its forward passes. *)
Lemma edge_recv_yields (self : master) (recv_rank : Z) (odd_iteration : bool)
    (w : world) :
  let buffer := if odd_iteration then flat_params_model1 self
                else flat_params_model2 self in
  yields (req1 <- recv_params_model self recv_rank odd_iteration ;;
          wait req1)%st
    w tt
    (delivered {| req_id := length (w_trace w); req_recv := Some buffer |}
               (w_mem w))
    [Irecv buffer recv_rank 0; Wait (length (w_trace w))].
Proof.
  intros buffer. subst buffer. unfold recv_params_model.
  destruct odd_iteration.
  all: unfold yields, delivered; run_monad; unfold received; cbn;
    by rewrite <- app_assoc.
Qed.

(** The edge rank's parameter send, after its backward passes. *)
Lemma edge_send_yields (self : master) (send_rank : Z) (odd_iteration : bool)
    (w : world) :
  yields (req1 <- send_params_model self send_rank odd_iteration ;;
          wait req1)%st
    w tt (w_mem w)
    [Isend (if odd_iteration then flat_params_model2 self
            else flat_params_model1 self) send_rank 0;
     Wait (length (w_trace w))].
Proof.
  unfold send_params_model. destruct odd_iteration.
  all: unfold yields; run_monad; destruct w as [[h ps] tr]; cbn;
    by rewrite <- app_assoc.
Qed.

(** The edge rank's gradient send, after its backward passes. *)
Lemma edge_grads_send_yields (self : master) (send_rank : Z)
    (odd_iteration : bool) (w : world) :
  yields (req1 <- send_grads_model self send_rank odd_iteration ;;
          wait req1)%st
    w tt (w_mem w)
    [Isend (if odd_iteration then flat_grads_model2 self
            else flat_grads_model1 self) send_rank 0;
     Wait (length (w_trace w))].
Proof.
  unfold send_grads_model. destruct odd_iteration.
  all: unfold yields; run_monad; destruct w as [[h ps] tr]; cbn;
    by rewrite <- app_assoc.
Qed.

(** The edge rank's gradient receive and accumulation, before its forward
    passes. *)
Lemma edge_grads_recv_yields (self : master) (recv_rank : Z)
    (odd_iteration : bool) (w : world) :
  t_shape (flat_grads_model1 self) = [model1_size self] ->
  t_shape (flat_grads_model2 self) = [model2_size self] ->
  let flat_grads_recv :=
    {| t_storage := length (m_heap (w_mem w)); t_offset := 0;
       t_shape := [if odd_iteration then model1_size self else model2_size self];
       t_requires_grad := false |} in
  exists m',
    yields (flat_grads_recv <- (if odd_iteration
                                then torch_zeros [model1_size self] false
                                else torch_zeros [model2_size self] false) ;;
            req1 <- recv_grads_model flat_grads_recv recv_rank ;;
            wait req1 ;;
            if odd_iteration
            then tensor_iadd (flat_grads_model1 self) flat_grads_recv
            else tensor_iadd (flat_grads_model2 self) flat_grads_recv)%st
      w tt m'
      [Irecv flat_grads_recv recv_rank 0; Wait (length (w_trace w))].
Proof.
  intros Hs1 Hs2 fresh. subst fresh. unfold recv_grads_model.
  destruct odd_iteration.
  all: unfold yields, mbind, synchronize, emit, lift, get_heap, put_heap,
    ret, wait, isend, irecv, torch_zeros; cbn -[tensor_iadd].
  all: rewrite tensor_iadd_ok by (cbn; congruence).
  all: eexists; do 2 f_equal; cbn; trace_eq.
Qed.

Lemma yields_lift_bind {A B : Type} (a : A) (k : A -> M B) (w : world)
    (b : B) (m' : memory) (evs : list event) :
  yields (k a) w b m' evs -> yields (mbind (lift (Ok a)) k) w b m' evs.
Proof. done. Qed.

Lemma wait_cons_eq (e : event) (n n' : nat) (rest rest' : list event) :
  n = n' -> rest = rest' -> [e; Wait n] ++ rest = [e; Wait n'] ++ rest'.
Proof. by intros -> ->. Qed.

Lemma backward_range_ok (tm : executor) (data_x : list sample)
    (data_y : list label) (parts_size n : Z) (m : memory) (pre : list out) :
  pre = [] ->
  Forall (fun i => (0 <= i < Z.of_nat (length
            (pre ++ flat_map forward_out
               (forward_events tm data_x data_y parts_size (Py.range n) m).1)))%Z)
         (Py.range n).
Proof.
  intros ->. cbn [app]. rewrite forward_outs_length, length_range.
  apply range_bounds.
Qed.

Lemma no_pass_app (l1 l2 : list event) :
  no_pass l1 -> no_pass l2 -> no_pass (l1 ++ l2).
Proof. apply Forall_app_2. Qed.

Ltac step_forward :=
  eapply yields_bind; [apply forward_loop_yields| |reflexivity];
  cbv beta iota; cbn [w_mem w_trace].

Ltac step_backward :=
  eapply yields_bind;
    [apply backward_loop_yields; by apply backward_range_ok| |reflexivity];
  cbn [w_mem w_trace].

Ltac step_with lem :=
  match goal with
  | |- yields (mbind _ _) ?W _ _ _ =>
      let mm := fresh "mm" in
      let Hmm := fresh "Hmm" in
      destruct (lem W) as [mm Hmm];
      eapply yields_bind; [exact (yields_mem _ _ _ _ _ Hmm)| |reflexivity];
      cbn [w_mem w_trace]
  end.

Ltac step_edge lem :=
  eapply yields_bind;
    [apply lem|
    |first [reflexivity
           |apply wait_cons_eq; [|reflexivity]; cbn [w_trace];
            rewrite !length_app; cbn [length app]; lia]];
  cbn [w_mem w_trace].

Ltac solve_no_pass :=
  unfold no_pass;
  repeat first [ apply Forall_nil_2
               | apply Forall_cons_2; [exact I|]
               | apply Forall_app_2
               | destruct (_ <? _)%Z ].

Ltac finish_step :=
  split; [unfold ssum; by rewrite flat_map_app, foldl_app|];
  split; [unfold ssum; by rewrite flat_map_app, foldl_app|];
  split; [done|];
  repeat split; solve_no_pass.

(** One interleaved step, block by block. *)
Lemma run_step_allreduce_spec (self : master) (inputs : list sample)
    (labels : list label) (odd_iteration : bool) (w : world) :
  parts self <> 0%Z ->
  t_shape (flat_grads_model1 self) = [model1_size self] ->
  t_shape (flat_grads_model2 self) = [model2_size self] ->
  let parts_size := (batch_size self ÷ parts self)%Z in
  let tm1 := if odd_iteration then TrainModel2 else TrainModel1 in
  let tm2 := if odd_iteration then TrainModel1 else TrainModel2 in
  let x1 := Py.slice inputs None (Some (batch_size self)) in
  let y1 := Py.slice labels None (Some (batch_size self)) in
  let x2 := Py.slice inputs (Some (batch_size self)) None in
  let y2 := Py.slice labels (Some (batch_size self)) None in
  let ks := Py.range (parts self) in
  let edge tm := (tm_local_rank (tm_of self tm) =? mp_size self - 1)%Z in
  let partner := (mp_size self - 1 - local_rank self)%Z in
  exists (m1 m2 m' : memory) (mid1 pre2 mid2 post2 : list event)
         (loss corrects : scalar),
    let pre1 :=
      if edge tm1
      then [Irecv (if odd_iteration then flat_params_model1 self
                   else flat_params_model2 self) partner 0;
            Wait (length (w_trace w))]
      else [] in
    let fwd1 := (forward_events tm1 x1 y1 parts_size ks m1).1 in
    let bwd1 := backward_events tm1 (flat_map forward_out fwd1) ks in
    let post1 :=
      if edge tm1
      then [Isend (if odd_iteration then flat_params_model2 self
                   else flat_params_model1 self) partner 0;
            Wait (length (w_trace w ++ pre1 ++ fwd1 ++ mid1 ++ bwd1))]
      else [] in
    let fwd2 := (forward_events tm2 x2 y2 parts_size ks m2).1 in
    let bwd2 := backward_events tm2 (flat_map forward_out fwd2) ks in
    yields (run_step_allreduce self inputs labels odd_iteration) w
      (loss, corrects) m'
      (pre1 ++ fwd1 ++ mid1 ++ bwd1 ++ post1
         ++ pre2 ++ fwd2 ++ mid2 ++ bwd2 ++ post2) /\
    loss = ssum (flat_map (loss_of self) (fwd1 ++ fwd2)) /\
    corrects = ssum (flat_map (corrects_of self) (fwd1 ++ fwd2)) /\
    (edge tm1 = true -> mid1 = []) /\
    no_pass mid1 /\ no_pass pre2 /\ no_pass mid2 /\ no_pass post2.
Proof.
  intros Hparts Hs1 Hs2 parts_size tm1 tm2 x1 y1 x2 y2 ks edge partner.
  unfold run_step_allreduce.
  assert (Hdiv : int_truediv (batch_size self) (parts self) = Ok parts_size).
  { unfold int_truediv. by destruct (Z.eqb_spec (parts self) 0). }
  rewrite Hdiv.
  fold tm1 tm2 x1 y1 x2 y2 ks. cbv zeta. subst edge partner. cbv beta.
  destruct (tm_local_rank (tm_of self tm1) =? mp_size self - 1)%Z eqn:He1;
    destruct (tm_local_rank (tm_of self tm2) =? mp_size self - 1)%Z eqn:He2;
    cbn [negb]; cbv beta iota.
  - eexists _, _, _, [], _, [], _, _, _.
    split.
    { apply yields_lift_bind.
      step_edge edge_recv_yields. step_forward. apply yields_skip.
      step_backward. step_edge edge_send_yields.
      step_with (fun W => edge_grads_recv_yields self
                   (mp_size self - 1 - local_rank self) odd_iteration W Hs1 Hs2).
      step_forward. apply yields_skip. step_backward.
      eapply yields_last. apply edge_grads_send_yields. }
    finish_step.
  - eexists _, _, _, [], [], _, [], _, _.
    split.
    { apply yields_lift_bind.
      step_edge edge_recv_yields. step_forward. apply yields_skip.
      step_backward. step_edge edge_send_yields.
      apply yields_skip. step_forward.
      step_with (fun W => send_recv_grads_yields self odd_iteration W Hs1 Hs2).
      step_backward. apply yields_skip. apply yields_ret. }
    finish_step.
  - eexists _, _, _, _, _, [], _, _, _.
    split.
    { apply yields_lift_bind.
      apply yields_skip. step_forward.
      step_with (send_recv_params_yields self odd_iteration).
      step_backward. apply yields_skip.
      step_with (fun W => edge_grads_recv_yields self
                   (mp_size self - 1 - local_rank self) odd_iteration W Hs1 Hs2).
      step_forward. apply yields_skip. step_backward.
      eapply yields_last. apply edge_grads_send_yields. }
    finish_step.
  - eexists _, _, _, _, [], _, [], _, _.
    split.
    { apply yields_lift_bind.
      apply yields_skip. step_forward.
      step_with (send_recv_params_yields self odd_iteration).
      step_backward. apply yields_skip. apply yields_skip.
      step_forward.
      step_with (fun W => send_recv_grads_yields self odd_iteration W Hs1 Hs2).
      step_backward. apply yields_skip. apply yields_ret. }
    finish_step.
Qed.

End SchedulerFacts.

Section TraceFacts.
Context `{Scalar} `{!ReplicaExecutor} `{!Transport}.

Lemma no_forward_silent (self : master) (evs : list event) :
  Forall (fun e => forward_call e = None) evs ->
  flat_map (loss_of self) evs = [] /\
  flat_map (corrects_of self) evs = [] /\
  omap forward_call evs = [].
Proof.
  induction 1 as [|e evs He _ (IH1 & IH2 & IH3)]; [done|].
  cbn. rewrite IH1, IH2, IH3, He. by destruct e.
Qed.

Lemma no_pass_no_forward (evs : list event) :
  no_pass evs -> Forall (fun e => forward_call e = None) evs.
Proof. intros Hn. eapply Forall_impl; [exact Hn|]. by intros []. Qed.

Lemma backward_no_forward (tm : executor) (ys : list out) (ks : list Z) :
  Forall (fun e => forward_call e = None) (backward_events tm ys ks).
Proof.
  unfold backward_events. induction ks as [|i ks IH]; [constructor|].
  cbn. destruct (ys !! Z.to_nat i); cbn; [by constructor|done].
Qed.

Lemma no_pass_calls (evs : list event) : no_pass evs -> omap pass_call evs = [].
Proof.
  induction 1 as [|e evs He _ IH]; [done|]. cbn. rewrite IH. by destruct e.
Qed.

Lemma forward_pass_calls (tm : executor) (data_x : list sample)
    (data_y : list label) (parts_size : Z) (ks : list Z) :
  forall m,
    omap pass_call (forward_events tm data_x data_y parts_size ks m).1
    = (fun i => (tm, Forward, i)) <$> ks.
Proof.
  induction ks as [|i ks IH]; intros m; [done|].
  cbn [forward_events fst omap list_omap pass_call fmap list_fmap].
  by rewrite IH.
Qed.

Lemma backward_pass_calls (tm : executor) (ys : list out) (ks : list Z) :
  Forall (fun i => (0 <= i < Z.of_nat (length ys))%Z) ks ->
  omap pass_call (backward_events tm ys ks) = (fun i => (tm, Backward, i)) <$> ks.
Proof.
  induction 1 as [|i ks Hi Hks IH]; [done|].
  destruct (index_in_range ys i Hi) as (y & Hy & _).
  unfold backward_events in *. cbn. rewrite Hy. cbn. by rewrite IH.
Qed.

Lemma loss_count (self : master) (tm : executor) (data_x : list sample)
    (data_y : list label) (parts_size : Z) (ks : list Z) :
  forall m,
    let evs := (forward_events tm data_x data_y parts_size ks m).1 in
    length (flat_map (loss_of self) evs)
      = (if terminal self tm then length ks else 0) /\
    length (flat_map (corrects_of self) evs)
      = (if terminal self tm then length ks else 0).
Proof.
  induction ks as [|i ks IH]; intros m; cbn zeta.
  - by destruct (terminal self tm).
  - cbn [forward_events fst flat_map loss_of corrects_of].
    destruct (forward_pass tm m _ _ i) as [m1 [ty tc]]. cbn [fst snd].
    destruct (IH m1) as [IH1 IH2].
    rewrite !length_app, IH1, IH2. by destruct (terminal self tm).
Qed.

Lemma pass_of_forward (tm tm' : executor) (data_x : list sample)
    (data_y : list label) (parts_size : Z) (ks : list Z) :
  tm <> tm' ->
  forall m,
    Forall (fun e => is_pass_of tm' e = false)
           (forward_events tm data_x data_y parts_size ks m).1.
Proof.
  intros Hne. induction ks as [|i ks IH]; intros m; [constructor|].
  cbn [forward_events fst]. constructor; [|apply IH].
  cbn. by apply bool_decide_eq_false_2.
Qed.

Lemma pass_of_backward (tm tm' : executor) (ys : list out) (ks : list Z) :
  tm <> tm' ->
  Forall (fun e => is_pass_of tm' e = false) (backward_events tm ys ks).
Proof.
  intros Hne. unfold backward_events. induction ks as [|i ks IH]; [constructor|].
  cbn. destruct (ys !! Z.to_nat i); cbn; [|done].
  constructor; [|done]. cbn. by apply bool_decide_eq_false_2.
Qed.

Lemma pass_of_no_pass (tm : executor) (evs : list event) :
  no_pass evs -> Forall (fun e => is_pass_of tm e = false) evs.
Proof. intros Hn. eapply Forall_impl; [exact Hn|]. by intros []. Qed.

End TraceFacts.

(** ** Python slices *)

Lemma slice_nonneg {A : Type} (l : list A) (a b : Z) :
  (0 <= a <= b)%Z ->
  Py.slice l (Some a) (Some b) = drop (Z.to_nat a) (take (Z.to_nat b) l).
Proof.
  intros [Ha Hab]. unfold Py.slice, slice_bounds, adjust.
  destruct (Z.ltb_spec a 0) as [?|_]; [lia|].
  destruct (Z.ltb_spec b 0) as [?|_]; [lia|].
  set (len := Z.of_nat (length l)).
  rewrite take_drop_commute.
  destruct (decide (b <= len)%Z) as [Hb|Hb].
  - f_equal; [lia|]. f_equal. lia.
  - destruct (decide (a <= len)%Z) as [Ha'|Ha'].
    + rewrite !take_ge by lia. f_equal. lia.
    + rewrite !drop_ge; [done|rewrite length_take; lia..].
Qed.

Lemma slice_prefix {A : Type} (l : list A) (b : Z) :
  Py.slice l None (Some b) = take (Z.to_nat (adjust (Z.of_nat (length l)) b)) l.
Proof.
  unfold Py.slice, slice_bounds. cbn. by rewrite Z.sub_0_r.
Qed.

Lemma slice_suffix {A : Type} (l : list A) (a : Z) :
  Py.slice l (Some a) None = drop (Z.to_nat (adjust (Z.of_nat (length l)) a)) l.
Proof.
  unfold Py.slice, slice_bounds. apply take_ge. rewrite length_drop.
  unfold adjust. destruct (a <? 0)%Z; lia.
Qed.

Lemma range_S (n : nat) :
  Py.range (Z.of_nat (S n)) = Py.range (Z.of_nat n) ++ [Z.of_nat n].
Proof.
  unfold Py.range. rewrite !Nat2Z.id, seq_S. cbn [Nat.add].
  by rewrite map_app.
Qed.

(** Consecutive slices of one size, put end to end, are a prefix. *)
Lemma concat_slices {A : Type} (l : list A) (size : Z) (n : nat) :
  (0 <= size)%Z ->
  concat ((fun i => Py.slice l (Some (i * size)%Z) (Some ((i + 1) * size)%Z))
            <$> Py.range (Z.of_nat n))
  = take (Z.to_nat (Z.of_nat n * size)) l.
Proof.
  intros Hsize. induction n as [|n IH]; [done|].
  rewrite range_S, fmap_app, concat_app, IH. cbn [fmap list_fmap concat].
  rewrite app_nil_r, slice_nonneg by nia.
  replace (Z.of_nat (S n) * size)%Z with ((Z.of_nat n + 1) * size)%Z by lia.
  set (a := Z.to_nat (Z.of_nat n * size)).
  set (b := Z.to_nat ((Z.of_nat n + 1) * size)).
  assert (Hab : a <= b) by (subst a b; nia).
  replace (take a l) with (take a (take b l))
    by (rewrite take_take; f_equal; lia).
  apply take_drop.
Qed.

Section SchedulerClaims.
Context `{Scalar} `{!ReplicaExecutor} `{!Transport}.

Lemma length_forward_events (tm : executor) (data_x : list sample)
    (data_y : list label) (parts_size : Z) (ks : list Z) :
  forall m,
    length (forward_events tm data_x data_y parts_size ks m).1 = length ks.
Proof.
  induction ks as [|i ks IH]; intros m; [done|].
  cbn [forward_events fst length]. by rewrite IH.
Qed.

Lemma length_backward_events (tm : executor) (ys : list out) (ks : list Z) :
  Forall (fun i => (0 <= i < Z.of_nat (length ys))%Z) ks ->
  length (backward_events tm ys ks) = length ks.
Proof.
  intros Hks. symmetry. eapply Forall2_length.
  by apply backward_events_each.
Qed.

(** What a trace made of the ten blocks of a step shows of its passes. *)
Lemma step_projections (self : master) (tm1 tm2 : executor)
    (x1 x2 : list sample) (y1 y2 : list label) (size n : Z) (m1 m2 : memory)
    (pre1 mid1 post1 pre2 mid2 post2 : list event) :
  no_pass pre1 -> no_pass mid1 -> no_pass post1 ->
  no_pass pre2 -> no_pass mid2 -> no_pass post2 ->
  let ks := Py.range n in
  let fwd1 := (forward_events tm1 x1 y1 size ks m1).1 in
  let bwd1 := backward_events tm1 (flat_map forward_out fwd1) ks in
  let fwd2 := (forward_events tm2 x2 y2 size ks m2).1 in
  let bwd2 := backward_events tm2 (flat_map forward_out fwd2) ks in
  let new := pre1 ++ fwd1 ++ mid1 ++ bwd1 ++ post1
               ++ pre2 ++ fwd2 ++ mid2 ++ bwd2 ++ post2 in
  let micro tm (x : list sample) (y : list label) (i : Z) :=
    (tm, Py.slice x (Some (i * size)%Z) (Some ((i + 1) * size)%Z),
         Py.slice y (Some (i * size)%Z) (Some ((i + 1) * size)%Z), i) in
  omap pass_call new
    = ((fun i => (tm1, Forward, i)) <$> ks)
        ++ ((fun i => (tm1, Backward, i)) <$> ks)
        ++ ((fun i => (tm2, Forward, i)) <$> ks)
        ++ ((fun i => (tm2, Backward, i)) <$> ks) /\
  omap forward_call new = (micro tm1 x1 y1 <$> ks) ++ (micro tm2 x2 y2 <$> ks) /\
  flat_map (loss_of self) new = flat_map (loss_of self) (fwd1 ++ fwd2) /\
  flat_map (corrects_of self) new = flat_map (corrects_of self) (fwd1 ++ fwd2).
Proof.
  intros Hp1 Hm1 Hq1 Hp2 Hm2 Hq2 ks fwd1 bwd1 fwd2 bwd2 new micro.
  assert (Hr1 : Forall (fun i => (0 <= i < Z.of_nat (length (flat_map forward_out fwd1)))%Z) ks)
    by apply (backward_range_ok tm1 x1 y1 size n m1 [] eq_refl).
  assert (Hr2 : Forall (fun i => (0 <= i < Z.of_nat (length (flat_map forward_out fwd2)))%Z) ks)
    by apply (backward_range_ok tm2 x2 y2 size n m2 [] eq_refl).
  pose proof (no_forward_silent self) as Hsil.
  destruct (Hsil _ (no_pass_no_forward _ Hp1)) as (Ha1 & Hb1 & Hc1).
  destruct (Hsil _ (no_pass_no_forward _ Hm1)) as (Ha2 & Hb2 & Hc2).
  destruct (Hsil _ (no_pass_no_forward _ Hq1)) as (Ha3 & Hb3 & Hc3).
  destruct (Hsil _ (no_pass_no_forward _ Hp2)) as (Ha4 & Hb4 & Hc4).
  destruct (Hsil _ (no_pass_no_forward _ Hm2)) as (Ha5 & Hb5 & Hc5).
  destruct (Hsil _ (no_pass_no_forward _ Hq2)) as (Ha6 & Hb6 & Hc6).
  destruct (Hsil _ (backward_no_forward tm1 (flat_map forward_out fwd1) ks))
    as (Ha7 & Hb7 & Hc7).
  destruct (Hsil _ (backward_no_forward tm2 (flat_map forward_out fwd2) ks))
    as (Ha8 & Hb8 & Hc8).
  fold bwd1 in Ha7, Hb7, Hc7. fold bwd2 in Ha8, Hb8, Hc8.
  subst new. repeat split.
  - rewrite !omap_app, (no_pass_calls _ Hp1), (no_pass_calls _ Hm1),
      (no_pass_calls _ Hq1), (no_pass_calls _ Hp2), (no_pass_calls _ Hm2),
      (no_pass_calls _ Hq2).
    unfold fwd1, fwd2, bwd1, bwd2.
    rewrite !forward_pass_calls, !backward_pass_calls by done.
    cbn [app]. by rewrite ?app_nil_r.
  - rewrite !omap_app, Hc1, Hc2, Hc3, Hc4, Hc5, Hc6, Hc7, Hc8.
    unfold fwd1, fwd2. rewrite !forward_calls_events.
    cbn [app]. by rewrite ?app_nil_r.
  - rewrite !flat_map_app, Ha1, Ha2, Ha3, Ha4, Ha5, Ha6, Ha7, Ha8.
    cbn [app]. by rewrite ?app_nil_r.
  - rewrite !flat_map_app, Hb1, Hb2, Hb3, Hb4, Hb5, Hb6, Hb7, Hb8.
    cbn [app]. by rewrite ?app_nil_r.
Qed.

Lemma no_pass_edge (b : bool) (e : event) (n : nat) :
  match e with
  | ForwardPass _ _ _ _ _ | BackwardPass _ _ _ => False
  | _ => True
  end ->
  no_pass (if b then [e; Wait n] else []).
Proof. intros He. destruct b; repeat constructor. done. Qed.

Lemma run_step_allreduce_summary (self : master) (inputs : list sample)
    (labels : list label) (odd_iteration : bool) (w : world) :
  parts self <> 0%Z ->
  t_shape (flat_grads_model1 self) = [model1_size self] ->
  t_shape (flat_grads_model2 self) = [model2_size self] ->
  let size := (batch_size self ÷ parts self)%Z in
  let tm1 := if odd_iteration then TrainModel2 else TrainModel1 in
  let tm2 := if odd_iteration then TrainModel1 else TrainModel2 in
  let x1 := Py.slice inputs None (Some (batch_size self)) in
  let y1 := Py.slice labels None (Some (batch_size self)) in
  let x2 := Py.slice inputs (Some (batch_size self)) None in
  let y2 := Py.slice labels (Some (batch_size self)) None in
  let ks := Py.range (parts self) in
  let micro tm (x : list sample) (y : list label) (i : Z) :=
    (tm, Py.slice x (Some (i * size)%Z) (Some ((i + 1) * size)%Z),
         Py.slice y (Some (i * size)%Z) (Some ((i + 1) * size)%Z), i) in
  let count tm := if terminal self tm then Z.to_nat (parts self) else 0 in
  exists (loss corrects : scalar) (m' : memory) (new : list event),
    yields (run_step_allreduce self inputs labels odd_iteration) w
      (loss, corrects) m' new /\
    omap pass_call new
      = ((fun i => (tm1, Forward, i)) <$> ks)
          ++ ((fun i => (tm1, Backward, i)) <$> ks)
          ++ ((fun i => (tm2, Forward, i)) <$> ks)
          ++ ((fun i => (tm2, Backward, i)) <$> ks) /\
    omap forward_call new = (micro tm1 x1 y1 <$> ks) ++ (micro tm2 x2 y2 <$> ks) /\
    loss = ssum (flat_map (loss_of self) new) /\
    corrects = ssum (flat_map (corrects_of self) new) /\
    length (flat_map (loss_of self) new) = count tm1 + count tm2 /\
    length (flat_map (corrects_of self) new) = count tm1 + count tm2.
Proof.
  intros Hparts Hs1 Hs2 size tm1 tm2 x1 y1 x2 y2 ks micro count.
  destruct (run_step_allreduce_spec self inputs labels odd_iteration w
              Hparts Hs1 Hs2)
    as (m1 & m2 & m' & mid1 & pre2 & mid2 & post2 & loss & corrects & Hrun
        & Hloss & Hcorr & _ & Hm1 & Hp2 & Hm2 & Hq2).
  cbv zeta in Hrun, Hloss, Hcorr.
  fold size tm1 tm2 x1 y1 x2 y2 ks in Hrun, Hloss, Hcorr.
  match type of Hrun with
  | yields _ _ _ _ (?p1 ++ ?f1 ++ _ ++ ?b1 ++ ?q1 ++ _ ++ ?f2 ++ _) =>
      set (pre1 := p1) in *; set (post1 := q1) in *;
      set (fwd1 := f1) in *; set (fwd2 := f2) in *
  end.
  assert (Hp1 : no_pass pre1) by (by apply no_pass_edge).
  assert (Hq1 : no_pass post1) by (by apply no_pass_edge).
  destruct (step_projections self tm1 tm2 x1 x2 y1 y2 size (parts self) m1 m2
              pre1 mid1 post1 pre2 mid2 post2 Hp1 Hm1 Hq1 Hp2 Hm2 Hq2)
    as (Hcalls & Hfwd & Hl & Hc).
  fold ks fwd1 fwd2 in Hcalls, Hfwd, Hl, Hc.
  destruct (loss_count self tm1 x1 y1 size ks m1) as [Hl1 Hc1].
  destruct (loss_count self tm2 x2 y2 size ks m2) as [Hl2 Hc2].
  fold fwd1 in Hl1, Hc1. fold fwd2 in Hl2, Hc2.
  assert (Hlen : length ks = Z.to_nat (parts self)) by apply length_range.
  rewrite Hlen in Hl1, Hc1, Hl2, Hc2.
  match type of Hcalls with
  | omap pass_call ?n = _ => set (new := n) in *
  end.
  rewrite <- Hl in Hloss. rewrite <- Hc in Hcorr.
  assert (Hnl : length (flat_map (loss_of self) new) = count tm1 + count tm2)
    by (by rewrite Hl, flat_map_app, length_app, Hl1, Hl2).
  assert (Hnc : length (flat_map (corrects_of self) new) = count tm1 + count tm2)
    by (by rewrite Hc, flat_map_app, length_app, Hc1, Hc2).
  by exists loss, corrects, m', new.
Qed.

(** C9. When the first-scheduled executor is on the edge rank
  ([tm1.local_rank = mp_size - 1]), the step starts with a parameter
  receive and its wait, then come the forward calls of that executor, then
  its backward calls, then the parameter send and its wait; no later event
  is a pass of that executor; and both transfers go to
  [mp_size - 1 - local_rank], whatever the parity. *)
Theorem edge_rank_exchange (self : master) (inputs : list sample)
    (labels : list label) (odd_iteration : bool) (w : world) :
  parts self <> 0%Z ->
  t_shape (flat_grads_model1 self) = [model1_size self] ->
  t_shape (flat_grads_model2 self) = [model2_size self] ->
  let tm1 := if odd_iteration then TrainModel2 else TrainModel1 in
  let ks := Py.range (parts self) in
  let partner := (mp_size self - 1 - local_rank self)%Z in
  tm_local_rank (tm_of self tm1) = (mp_size self - 1)%Z ->
  exists (loss corrects : scalar) (m' : memory)
         (fwd1 bwd1 rest : list event),
    yields (run_step_allreduce self inputs labels odd_iteration) w
      (loss, corrects) m'
      ([Irecv (if odd_iteration then flat_params_model1 self
               else flat_params_model2 self) partner 0;
        Wait (length (w_trace w))]
         ++ fwd1 ++ bwd1
         ++ [Isend (if odd_iteration then flat_params_model2 self
                    else flat_params_model1 self) partner 0;
             Wait (length (w_trace w) + 2 + length fwd1 + length bwd1)]
         ++ rest) /\
    omap pass_call fwd1 = (fun i => (tm1, Forward, i)) <$> ks /\
    length fwd1 = length ks /\
    omap pass_call bwd1 = (fun i => (tm1, Backward, i)) <$> ks /\
    length bwd1 = length ks /\
    Forall (fun e => is_pass_of tm1 e = false) rest.
Proof.
  intros Hparts Hs1 Hs2 tm1 ks partner Hedge.
  destruct (run_step_allreduce_spec self inputs labels odd_iteration w
              Hparts Hs1 Hs2)
    as (m1 & m2 & m' & mid1 & pre2 & mid2 & post2 & loss & corrects & Hrun
        & _ & _ & Hmid & _ & Hp2 & Hm2 & Hq2).
  cbv zeta in Hrun, Hmid. fold tm1 ks partner in Hrun, Hmid.
  apply Z.eqb_eq in Hedge. rewrite Hedge in Hrun, Hmid.
  rewrite (Hmid eq_refl) in Hrun. clear Hmid. cbn [app] in Hrun.
  set (tm2 := if odd_iteration then TrainModel1 else TrainModel2) in *.
  assert (Hne : tm2 <> tm1) by (subst tm1 tm2; by destruct odd_iteration).
  match type of Hrun with
  | yields _ _ _ _ (_ :: _ :: ?f1 ++ ?b1 ++ _ :: _ :: ?p2 ++ ?f2 ++ ?d2 ++ ?b2 ++ ?q2) =>
      set (fwd1 := f1) in *; set (bwd1 := b1) in *;
      set (fwd2 := f2) in *; set (bwd2 := b2) in *
  end.
  assert (Hr1 : Forall (fun i => (0 <= i < Z.of_nat (length (flat_map forward_out fwd1)))%Z) ks)
    by apply (backward_range_ok _ _ _ _ (parts self) m1 [] eq_refl).
  exists loss, corrects, m', fwd1, bwd1,
    (pre2 ++ fwd2 ++ mid2 ++ bwd2 ++ post2).
  split; [|split; [|split; [|split; [|split]]]].
  - cbn [app]. 
    replace (length (w_trace w) + 2 + length fwd1 + length bwd1)
      with (length (w_trace w ++
              [Irecv (if odd_iteration then flat_params_model1 self
                      else flat_params_model2 self) partner 0;
               Wait (length (w_trace w))] ++ fwd1 ++ bwd1));
      [exact Hrun|].
    rewrite !length_app. cbn [length]. lia.
  - apply forward_pass_calls.
  - apply length_forward_events.
  - by apply backward_pass_calls.
  - by apply length_backward_events.
  - repeat apply Forall_app_2.
    + by apply pass_of_no_pass.
    + by apply pass_of_forward.
    + by apply pass_of_no_pass.
    + by apply pass_of_backward.
    + by apply pass_of_no_pass.
Qed.

(** C8, amended. With [parts] not 0 and the flat gradient buffers as
  construction leaves them, [run_step_allreduce] returns; it runs all the
  passes of [train_model1] and then those of [train_model2] when
  [odd_iteration] is false, and the other way round when it is true; the
  first executor is fed the micro-parts of [inputs[:batch_size]], the
  second those of [inputs[batch_size:]]; the returned loss and correct
  count are the sums, in call order, of what the forward calls returned
  to an executor that is at its terminal stage on this rank
  ([split_rank = split_size - 1]). Each such executor contributes [parts]
  values: [2 * parts] in total when both executors are at their terminal
  stage, [parts] when one is, none when neither is, and then the step
  returns zero for both. *)
Theorem run_step_allreduce_result (self : master) (inputs : list sample)
    (labels : list label) (odd_iteration : bool) (w : world) :
  parts self <> 0%Z ->
  t_shape (flat_grads_model1 self) = [model1_size self] ->
  t_shape (flat_grads_model2 self) = [model2_size self] ->
  let size := (batch_size self ÷ parts self)%Z in
  let tm1 := if odd_iteration then TrainModel2 else TrainModel1 in
  let tm2 := if odd_iteration then TrainModel1 else TrainModel2 in
  let x1 := Py.slice inputs None (Some (batch_size self)) in
  let y1 := Py.slice labels None (Some (batch_size self)) in
  let x2 := Py.slice inputs (Some (batch_size self)) None in
  let y2 := Py.slice labels (Some (batch_size self)) None in
  let ks := Py.range (parts self) in
  let micro tm (x : list sample) (y : list label) (i : Z) :=
    (tm, Py.slice x (Some (i * size)%Z) (Some ((i + 1) * size)%Z),
         Py.slice y (Some (i * size)%Z) (Some ((i + 1) * size)%Z), i) in
  let count tm := if terminal self tm then Z.to_nat (parts self) else 0 in
  exists (loss corrects : scalar) (m' : memory) (new : list event),
    yields (run_step_allreduce self inputs labels odd_iteration) w
      (loss, corrects) m' new /\
    omap pass_call new
      = ((fun i => (tm1, Forward, i)) <$> ks)
          ++ ((fun i => (tm1, Backward, i)) <$> ks)
          ++ ((fun i => (tm2, Forward, i)) <$> ks)
          ++ ((fun i => (tm2, Backward, i)) <$> ks) /\
    omap forward_call new = (micro tm1 x1 y1 <$> ks) ++ (micro tm2 x2 y2 <$> ks) /\
    loss = ssum (flat_map (loss_of self) new) /\
    corrects = ssum (flat_map (corrects_of self) new) /\
    length (flat_map (loss_of self) new) = count tm1 + count tm2 /\
    length (flat_map (corrects_of self) new) = count tm1 + count tm2 /\
    (terminal self tm1 = true -> terminal self tm2 = true ->
     length (flat_map (loss_of self) new) = 2 * Z.to_nat (parts self) /\
     length (flat_map (corrects_of self) new) = 2 * Z.to_nat (parts self)) /\
    (terminal self tm1 = false -> terminal self tm2 = false ->
     loss = szero /\ corrects = szero).
Proof.
  intros Hparts Hs1 Hs2 size tm1 tm2 x1 y1 x2 y2 ks micro count.
  destruct (run_step_allreduce_summary self inputs labels odd_iteration w
              Hparts Hs1 Hs2)
    as (loss & corrects & m' & new & Hrun & Hcalls & Hfwd & Hloss & Hcorr
        & Hnl & Hnc).
  exists loss, corrects, m', new. repeat (split; [done|]).
  cbv zeta beta in Hnl, Hnc. fold tm1 tm2 in Hnl, Hnc.
  split; intros Ht1 Ht2; rewrite Ht1, Ht2 in Hnl, Hnc.
  - rewrite Hnl, Hnc. lia.
  - apply nil_length_inv in Hnl, Hnc. by rewrite Hloss, Hcorr, Hnl, Hnc.
Qed.

Lemma half_lengths {A : Type} (l : list A) (bs : Z) :
  (0 <= bs)%Z -> length l = Z.to_nat (2 * bs) ->
  length (Py.slice l None (Some bs)) = Z.to_nat bs /\
  length (Py.slice l (Some bs) None) = Z.to_nat bs.
Proof.
  intros Hbs Hlen. rewrite slice_prefix, slice_suffix.
  rewrite length_take, length_drop. unfold adjust.
  destruct (Z.ltb_spec bs 0); lia.
Qed.

(** The micro-parts of a batch half of [bs] samples. *)
Lemma micro_parts_of_half {A : Type} (half : list A) (bs n : Z) :
  (0 < n)%Z -> (0 <= bs)%Z -> length half = Z.to_nat bs ->
  let size := (bs ÷ n)%Z in
  let part i := Py.slice half (Some (i * size)%Z) (Some ((i + 1) * size)%Z) in
  (forall i, i ∈ Py.range n ->
             length (part i) = Z.to_nat size /\
             forall j, j < Z.to_nat size ->
                       part i !! j = half !! (Z.to_nat (i * size) + j)) /\
  concat (part <$> Py.range n) = take (Z.to_nat (bs - bs `mod` n)) half /\
  length (drop (Z.to_nat (bs - bs `mod` n)) half) = Z.to_nat (bs `mod` n).
Proof.
  intros Hn Hbs Hlen size part.
  assert (Hq : size = (bs / n)%Z) by (apply Z.quot_div_nonneg; lia).
  pose proof (Z.div_mod bs n ltac:(lia)) as Hdm.
  pose proof (Z.mod_pos_bound bs n Hn) as Hmod.
  assert (Hsize : (0 <= size)%Z) by (rewrite Hq; apply Z.div_pos; lia).
  assert (Htot : (n * size = bs - bs `mod` n)%Z) by (rewrite Hq; lia).
  split; [|split].
  - intros i Hi. unfold Py.range in Hi.
    apply list_elem_of_fmap in Hi as (k & -> & Hk). apply elem_of_seq in Hk.
    assert (Hi1 : ((Z.of_nat k + 1) * size <= bs)%Z) by nia.
    unfold part. rewrite slice_nonneg by nia. split.
    + rewrite length_drop, length_take. nia.
    + intros j Hj. rewrite lookup_drop, lookup_take_lt by nia. done.
  - unfold part. rewrite <- (Z2Nat.id n) at 1 by lia.
    rewrite concat_slices by done. f_equal. lia.
  - rewrite length_drop. lia.
Qed.

(** C10. The micro-part size is [int(batch_size / parts)], the quotient
  rounded down; micro-part [i] of a batch half is that half's slice
  [i * size : (i + 1) * size], that is its samples at the positions from
  [i * size] up to [(i + 1) * size]; put end to end the micro-parts are the
  half without its last [batch_size mod parts] samples, which no forward
  call receives, and the step returns normally. *)
Theorem micro_parts_truncated (self : master) (inputs : list sample)
    (labels : list label) (odd_iteration : bool) (w : world) :
  (0 < parts self)%Z ->
  (0 <= batch_size self)%Z ->
  length inputs = Z.to_nat (2 * batch_size self) ->
  t_shape (flat_grads_model1 self) = [model1_size self] ->
  t_shape (flat_grads_model2 self) = [model2_size self] ->
  let bs := batch_size self in
  let size := (bs ÷ parts self)%Z in
  let dropped := (bs `mod` parts self)%Z in
  let tm1 := if odd_iteration then TrainModel2 else TrainModel1 in
  let tm2 := if odd_iteration then TrainModel1 else TrainModel2 in
  let x1 := Py.slice inputs None (Some bs) in
  let y1 := Py.slice labels None (Some bs) in
  let x2 := Py.slice inputs (Some bs) None in
  let y2 := Py.slice labels (Some bs) None in
  let ks := Py.range (parts self) in
  let part {A : Type} (half : list A) (i : Z) :=
    Py.slice half (Some (i * size)%Z) (Some ((i + 1) * size)%Z) in
  exists (loss corrects : scalar) (m' : memory) (new : list event),
    yields (run_step_allreduce self inputs labels odd_iteration) w
      (loss, corrects) m' new /\
    (size = bs / parts self)%Z /\
    omap forward_call new
      = ((fun i => (tm1, part x1 i, part y1 i, i)) <$> ks)
          ++ ((fun i => (tm2, part x2 i, part y2 i, i)) <$> ks) /\
    (forall half, half = x1 \/ half = x2 ->
       length half = Z.to_nat bs /\
       (forall i, i ∈ ks ->
          length (part half i) = Z.to_nat size /\
          forall j, j < Z.to_nat size ->
                    part half i !! j = half !! (Z.to_nat (i * size) + j)) /\
       concat (part half <$> ks) = take (Z.to_nat (bs - dropped)) half /\
       length (drop (Z.to_nat (bs - dropped)) half) = Z.to_nat dropped).
Proof.
  intros Hparts Hbs Hlen Hs1 Hs2 bs size dropped tm1 tm2 x1 y1 x2 y2 ks part.
  destruct (run_step_allreduce_summary self inputs labels odd_iteration w
              ltac:(lia) Hs1 Hs2)
    as (loss & corrects & m' & new & Hrun & _ & Hfwd & _).
  exists loss, corrects, m', new. split; [done|].
  split; [apply Z.quot_div_nonneg; lia|]. split; [exact Hfwd|].
  destruct (half_lengths inputs bs Hbs Hlen) as [Hl1 Hl2].
  intros half Hhalf.
  assert (Hl : length half = Z.to_nat bs) by (by destruct Hhalf as [-> | ->]).
  split; [done|]. by apply micro_parts_of_half.
Qed.

End SchedulerClaims.

(** ** Worked instances *)

(** C1 at [mp_size = 8] and [mp_size = 7] with four spatial parts. *)
Lemma verify_spatial_master_config_sound_witness :
  verify_spatial_master_config Demo.verify_spatial_config "square" 1024 [4; 4]%Z 1 8
    = Ok tt /\
  (8 >= 2 * 4)%Z /\
  verify_spatial_master_config Demo.verify_spatial_config "square" 1024 [4; 4]%Z 1 7
    = Raise (AssertionError rank_overlap_msg).
Proof.
  destruct (verify_spatial_master_config_sound Demo.verify_spatial_config)
    as [Hpass Hfail].
  split; [reflexivity|]. split.
  - destruct (Hpass "square"%string 1024%Z [4; 4]%Z 1%Z 8%Z eq_refl)
      as (k & rest & Hl & _ & Hge).
    injection Hl as <- _. exact Hge.
  - exact (Hfail "square"%string 1024%Z 4%Z [4%Z] 1%Z).
Defined.

(** C2 as stated fails for the receive: on an odd iteration the receive does
    not go into [flat_params_model2]. *)
Lemma recv_buffer_parity_counterexample :
  ~ (w_trace (@recv_params_model Demo.Z_scalar (Demo.executor_stub 5)
                (Demo.master_at 5 0 2) 7 true (Demo.world_at 5 0 2)).2
     = w_trace (Demo.world_at 5 0 2)
         ++ [Irecv (if true then flat_params_model2 (Demo.master_at 5 0 2)
                    else flat_params_model1 (Demo.master_at 5 0 2)) 7 0]).
Proof. vm_compute. discriminate. Qed.

(** C7 on rank 0, with a partner that sends zeros. *)
Lemma send_recv_grads_accumulates_witness :
  grads_ok (Demo.master_at 5 0 2) (m_heap (w_mem (Demo.world_at 5 0 2))) = true /\
  exists w',
    @send_recv_grads Demo.Z_scalar (Demo.executor_stub 5) Demo.silent
      (Demo.master_at 5 0 2) false (Demo.world_at 5 0 2) = (Ok tt, w') /\
    contents (m_heap (w_mem w')) (flat_grads_model1 (Demo.master_at 5 0 2))
      = contents (m_heap (w_mem (Demo.world_at 5 0 2)))
          (flat_grads_model1 (Demo.master_at 5 0 2)) /\
    contents (m_heap (w_mem w')) (flat_grads_model2 (Demo.master_at 5 0 2))
      = contents (m_heap (w_mem (Demo.world_at 5 0 2)))
          (flat_grads_model2 (Demo.master_at 5 0 2)).
Proof.
  split; [reflexivity|].
  destruct (@send_recv_grads_accumulates Demo.Z_scalar (Demo.executor_stub 5)
              Demo.silent (Demo.master_at 5 0 2) false (Demo.world_at 5 0 2)
              eq_refl)
    as (w' & Hrun & _ & _ & _ & Hzero).
  exists w'. split; [exact Hrun|].
  apply Hzero; [intros x; apply Z.add_0_r|reflexivity].
Defined.

(** C3 for the two replicas of the concrete driver. *)
Lemma init_builds_flat_buffers_witness :
  Forall (fun id => id < length (m_params Demo.memory0))
         (models Demo.gen1 ++ models Demo.gen2) /\
  NoDup (models Demo.gen1 ++ models Demo.gen2) /\
  exists self w',
    Demo.build 5 0 2 = (Ok self, w') /\
    model1_size self = 17 /\
    model2_size self = 17 /\
    tiles (slice_start Demo.memory0 (models Demo.gen1))
          (slice_size Demo.memory0 (models Demo.gen1)) 2 (model1_size self).
Proof.
  assert (Hvalid : Forall (fun id => id < length (m_params Demo.memory0))
                          (models Demo.gen1 ++ models Demo.gen2))
    by (apply (bool_decide_unpack _); exact I).
  assert (Hnd : NoDup (models Demo.gen1 ++ models Demo.gen2))
    by (apply (bool_decide_unpack _); exact I).
  split; [exact Hvalid|]. split; [exact Hnd|].
  destruct (@init_builds_flat_buffers Demo.Z_scalar (Demo.executor_stub 5)
              Demo.gen1 Demo.gen2 8 tt tt tt (Demo.first_comm 0)
              (Demo.second_comm 0) tt tt tt 2 true 1 (Demo.world0 5)
              Hvalid Hnd)
    as (self & w' & Hrun & Hn1 & Hn2 & _ & _ & _ & _ & _ & _ & _ & Ht1 & _).
  exists self, w'. split; [exact Hrun|]. split; [exact Hn1|].
  split; [exact Hn2|exact Ht1].
Defined.

(** C4 for the value 42. *)
Lemma flat_views_round_trip_witness :
  Forall (fun id => id < length (m_params Demo.memory0))
         (models Demo.gen1 ++ models Demo.gen2) /\
  NoDup (models Demo.gen1 ++ models Demo.gen2) /\
  exists self w' q0,
    Demo.build 5 0 2 = (Ok self, w') /\
    m_params (w_mem w') !! 0 = Some q0 /\
    (exists h1,
        @set Demo.Z_scalar (m_heap (w_mem w')) (flat_params_model1 self) [0] 42%Z
          = Ok h1 /\
        @get Demo.Z_scalar h1 (p_data q0) [0; 0] = Ok 42%Z) /\
    (exists h2,
        @set Demo.Z_scalar (m_heap (w_mem w')) (p_data q0) [0; 0] 42%Z = Ok h2 /\
        @get Demo.Z_scalar h2 (flat_params_model1 self) [0] = Ok 42%Z).
Proof.
  assert (Hvalid : Forall (fun id => id < length (m_params Demo.memory0))
                          (models Demo.gen1 ++ models Demo.gen2))
    by (apply (bool_decide_unpack _); exact I).
  assert (Hnd : NoDup (models Demo.gen1 ++ models Demo.gen2))
    by (apply (bool_decide_unpack _); exact I).
  split; [exact Hvalid|]. split; [exact Hnd|].
  destruct (@flat_views_round_trip Demo.Z_scalar (Demo.executor_stub 5)
              Demo.gen1 Demo.gen2 8 tt tt tt (Demo.first_comm 0)
              (Demo.second_comm 0) tt tt tt 2 true 1 (Demo.world0 5)
              Hvalid Hnd)
    as (self & w' & Hrun & Hrest).
  cbv zeta in Hrest. destruct Hrest as (_ & _ & _ & _ & Hinst).
  destruct (Hinst 0 1 (Demo.own 0 [3; 4]) (Demo.own 1 [5])
              eq_refl eq_refl eq_refl eq_refl eq_refl)
    as (_ & q0 & Hq0 & _ & Hrw).
  exists self, w', q0. split; [exact Hrun|]. split; [exact Hq0|].
  exact (Hrw 42%Z).
Defined.

(** C8 with two micro-parts. On rank 0 of a five-stage pipeline one executor
    is at its terminal stage: two contributions. On rank 3 neither is: the
    step returns zero twice. On a single-stage pipeline both are: four
    contributions. *)
Lemma run_step_allreduce_result_witness :
  parts (Demo.master_at 5 0 2) <> 0%Z /\
  t_shape (flat_grads_model1 (Demo.master_at 5 0 2))
    = [model1_size (Demo.master_at 5 0 2)] /\
  t_shape (flat_grads_model2 (Demo.master_at 5 0 2))
    = [model2_size (Demo.master_at 5 0 2)] /\
  (exists loss corrects m' new,
      Demo.step 5 0 2 false
        = (Ok (loss, corrects), {| w_mem := m'; w_trace := new |}) /\
      loss = @ssum Demo.Z_scalar
               (flat_map (@loss_of Demo.Z_scalar (Demo.executor_stub 5)
                            (Demo.master_at 5 0 2)) new) /\
      length (flat_map (@loss_of Demo.Z_scalar (Demo.executor_stub 5)
                          (Demo.master_at 5 0 2)) new) = 2) /\
  (terminal (Demo.master_at 5 3 2) TrainModel1 = false /\
   terminal (Demo.master_at 5 3 2) TrainModel2 = false /\
   exists m' new,
     Demo.step 5 3 2 false
       = (Ok (0%Z, 0%Z), {| w_mem := m'; w_trace := new |})) /\
  (terminal (Demo.master_at 1 7 2) TrainModel1 = true /\
   terminal (Demo.master_at 1 7 2) TrainModel2 = true /\
   exists loss corrects m' new,
     Demo.step 1 7 2 false
       = (Ok (loss, corrects), {| w_mem := m'; w_trace := new |}) /\
     length (flat_map (@loss_of Demo.Z_scalar (Demo.executor_stub 1)
                         (Demo.master_at 1 7 2)) new) = 4).
Proof.
  assert (Hparts : parts (Demo.master_at 5 0 2) <> 0%Z) by discriminate.
  assert (Hparts3 : parts (Demo.master_at 5 3 2) <> 0%Z) by discriminate.
  assert (Hparts1 : parts (Demo.master_at 1 7 2) <> 0%Z) by discriminate.
  split; [exact Hparts|]. split; [reflexivity|]. split; [reflexivity|].
  split; [|split].
  - destruct (@run_step_allreduce_result Demo.Z_scalar (Demo.executor_stub 5)
                Demo.silent (Demo.master_at 5 0 2) Demo.inputs16 Demo.labels16
                false (Demo.world_at 5 0 2) Hparts eq_refl eq_refl)
      as (loss & corrects & m' & new & Hrun & _ & _ & Hloss & _ & Hcount & _).
    exists loss, corrects, m', new. split; [exact Hrun|].
    split; [exact Hloss|exact Hcount].
  - split; [reflexivity|]. split; [reflexivity|].
    destruct (@run_step_allreduce_result Demo.Z_scalar (Demo.executor_stub 5)
                Demo.silent (Demo.master_at 5 3 2) Demo.inputs16 Demo.labels16
                false (Demo.world_at 5 3 2) Hparts3 eq_refl eq_refl)
      as (loss & corrects & m' & new & Hrun & _ & _ & _ & _ & _ & _ & _ & Hnone).
    destruct (Hnone eq_refl eq_refl) as [Hl Hc].
    exists m', new. rewrite Hl, Hc in Hrun. exact Hrun.
  - split; [reflexivity|]. split; [reflexivity|].
    destruct (@run_step_allreduce_result Demo.Z_scalar (Demo.executor_stub 1)
                Demo.silent (Demo.master_at 1 7 2) Demo.inputs16 Demo.labels16
                false (Demo.world_at 1 7 2) Hparts1 eq_refl eq_refl)
      as (loss & corrects & m' & new & Hrun & _ & _ & _ & _ & _ & _ & Hboth & _).
    exists loss, corrects, m', new. split; [exact Hrun|].
    exact (proj1 (Hboth eq_refl eq_refl)).
Defined.

(** C8 as stated fails on rank 0 of a five-stage pipeline with two
    micro-parts: the step returns, and the terminal-stage contributions to
    the loss number two, not [2 * parts = 4]. *)
Lemma run_step_allreduce_count_counterexample :
  ~ (is_ok (Demo.step 5 0 2 false).1 = true ->
     length (flat_map (@loss_of Demo.Z_scalar (Demo.executor_stub 5)
                         (Demo.master_at 5 0 2))
               (w_trace (Demo.step 5 0 2 false).2))
     = 2 * Z.to_nat (parts (Demo.master_at 5 0 2))).
Proof. intros Hclaim. specialize (Hclaim eq_refl). vm_compute in Hclaim. discriminate. Qed.

(** C9 on rank 7 of 8. *)
Lemma edge_rank_exchange_witness :
  parts (Demo.master_at 5 7 2) <> 0%Z /\
  t_shape (flat_grads_model1 (Demo.master_at 5 7 2))
    = [model1_size (Demo.master_at 5 7 2)] /\
  t_shape (flat_grads_model2 (Demo.master_at 5 7 2))
    = [model2_size (Demo.master_at 5 7 2)] /\
  tm_local_rank (tm_of (Demo.master_at 5 7 2) TrainModel1)
    = (mp_size (Demo.master_at 5 7 2) - 1)%Z /\
  exists loss corrects m' fwd1 bwd1 rest,
    Demo.step 5 7 2 false
      = (Ok (loss, corrects),
         {| w_mem := m';
            w_trace :=
              [Irecv (flat_params_model2 (Demo.master_at 5 7 2)) 0 0; Wait 0]
                ++ fwd1 ++ bwd1
                ++ [Isend (flat_params_model1 (Demo.master_at 5 7 2)) 0 0;
                    Wait (0 + 2 + length fwd1 + length bwd1)]
                ++ rest |}) /\
    length fwd1 = 2 /\ length bwd1 = 2.
Proof.
  assert (Hparts : parts (Demo.master_at 5 7 2) <> 0%Z) by discriminate.
  split; [exact Hparts|]. split; [reflexivity|]. split; [reflexivity|].
  split; [reflexivity|].
  destruct (@edge_rank_exchange Demo.Z_scalar (Demo.executor_stub 5)
              Demo.silent (Demo.master_at 5 7 2) Demo.inputs16 Demo.labels16
              false (Demo.world_at 5 7 2) Hparts eq_refl eq_refl eq_refl)
    as (loss & corrects & m' & fwd1 & bwd1 & rest & Hrun & _ & Hf & _ & Hb & _).
  exists loss, corrects, m', fwd1, bwd1, rest.
  split; [exact Hrun|]. split; [exact Hf|exact Hb].
Defined.

(** C10 with [batch_size = 8] and [parts = 3]: two samples per half are
    dropped. *)
Lemma micro_parts_truncated_witness :
  (0 < parts (Demo.master_at 5 0 3))%Z /\
  (0 <= batch_size (Demo.master_at 5 0 3))%Z /\
  length Demo.inputs16 = Z.to_nat (2 * batch_size (Demo.master_at 5 0 3)) /\
  t_shape (flat_grads_model1 (Demo.master_at 5 0 3))
    = [model1_size (Demo.master_at 5 0 3)] /\
  t_shape (flat_grads_model2 (Demo.master_at 5 0 3))
    = [model2_size (Demo.master_at 5 0 3)] /\
  exists loss corrects m' new,
    Demo.step 5 0 3 false
      = (Ok (loss, corrects), {| w_mem := m'; w_trace := new |}) /\
    concat ((fun i => Py.slice (Py.slice Demo.inputs16 None (Some 8%Z))
                        (Some (i * 2)%Z) (Some ((i + 1) * 2)%Z))
              <$> Py.range 3)
      = take 6 (Py.slice Demo.inputs16 None (Some 8%Z)) /\
    length (drop 6 (Py.slice Demo.inputs16 None (Some 8%Z))) = 2.
Proof.
  assert (Hparts : (0 < parts (Demo.master_at 5 0 3))%Z) by reflexivity.
  assert (Hbs : (0 <= batch_size (Demo.master_at 5 0 3))%Z) by discriminate.
  split; [exact Hparts|]. split; [exact Hbs|]. split; [reflexivity|].
  split; [reflexivity|]. split; [reflexivity|].
  destruct (@micro_parts_truncated Demo.Z_scalar (Demo.executor_stub 5)
              Demo.silent (Demo.master_at 5 0 3) Demo.inputs16 Demo.labels16
              false (Demo.world_at 5 0 3) Hparts Hbs eq_refl eq_refl eq_refl)
    as (loss & corrects & m' & new & Hrun & _ & _ & Hhalves).
  destruct (Hhalves (Py.slice Demo.inputs16 None (Some 8%Z)) (or_introl eq_refl))
    as (_ & _ & Hfed & Hdropped).
  exists loss, corrects, m', new. split; [exact Hrun|].
  split; [exact Hfed|exact Hdropped].
Defined.

(** * Further properties *)

(** ** Partition validator: order of the checks *)

Section PartitionValidatorOrder.
Variable verify_spatial_config : string -> Z -> list Z -> result unit.

(** X1. The first partition count is read before anything else: an empty list
    raises [IndexError] whatever the generic validator would say; and on
    a non-empty list a failure of the generic validator is the failure of
    the call, whatever [mp_size] is. *)
Theorem verify_spatial_master_config_check_order :
  (forall slice_method image_size spatial_size mp_size,
      verify_spatial_master_config verify_spatial_config slice_method
        image_size [] spatial_size mp_size = Raise IndexError) /\
  (forall slice_method image_size k rest spatial_size mp_size e,
      verify_spatial_config slice_method image_size (k :: rest) = Raise e ->
      verify_spatial_master_config verify_spatial_config slice_method
        image_size (k :: rest) spatial_size mp_size = Raise e).
Proof.
  split; [done|].
  intros sm img k rest ss mp e He. unfold verify_spatial_master_config.
  rewrite index_head. cbn. by rewrite He.
Qed.

(** X2. A configuration that passes keeps passing when the group grows and
    when [spatial_size] changes: the group size enters only as the upper
    side of the rank assertion, and [spatial_size] is not looked at. *)
Theorem verify_spatial_master_config_monotone
    (slice_method : string) (image_size : Z) (num_spatial_parts_list : list Z)
    (spatial_size spatial_size' mp_size mp_size' : Z) :
  verify_spatial_master_config verify_spatial_config slice_method
    image_size num_spatial_parts_list spatial_size mp_size = Ok tt ->
  (mp_size <= mp_size')%Z ->
  verify_spatial_master_config verify_spatial_config slice_method
    image_size num_spatial_parts_list spatial_size' mp_size' = Ok tt.
Proof.
  unfold verify_spatial_master_config. intros Hok Hle.
  destruct (Py.index num_spatial_parts_list 0) as [k|e]; [|done]. cbn in *.
  destruct (verify_spatial_config _ _ _) as [[]|e]; [|done]. cbn in *.
  unfold Py.assert in *.
  destruct (Z.geb_spec mp_size (2 * k)); [|done].
  destruct (Z.geb_spec mp_size' (2 * k)); [done|lia].
Qed.

End PartitionValidatorOrder.

(** ** Flat buffers: a buffer of the wrong size *)

Lemma prefix_sum_crossing (l : list nat) :
  forall n, n < sum_list l ->
    exists k, k < length l /\ sum_list (take k l) <= n < sum_list (take (S k) l).
Proof.
  induction l as [|x l IH]; intros n Hn; cbn in Hn; [lia|].
  destruct (decide (n < x)) as [Hlt|Hge].
  - exists 0. cbn. split; [lia|]. unfold id. rewrite take_0. cbn. lia.
  - destruct (IH (n - x)) as (k & Hk & Hlo & Hhi); [unfold id in *; lia|].
    exists (S k). cbn [length take]. split; [lia|].
    change (sum_list (x :: take k l)) with (x + sum_list (take k l)).
    change (sum_list (x :: take (S k) l)) with (x + sum_list (take (S k) l)).
    lia.
Qed.

Section FlatBufferEdges.
Context `{Scalar} `{!ReplicaExecutor} `{!Transport}.

Lemma for_in_app {A S : Type} (l1 l2 : list A) (body : A -> S -> M S) :
  forall (s : S) (w : world),
    for_in (l1 ++ l2) body s w
    = mbind (for_in l1 body s) (for_in l2 body) w.
Proof.
  induction l1 as [|x l1 IH]; intros s w; [done|].
  cbn [app for_in]. unfold mbind.
  destruct (body x s w) as [[s'|e] w']; [|done].
  rewrite IH. done.
Qed.

Lemma slice_view_short (flat : tensor) (n start : nat) (shape : list nat) :
  t_shape flat = [n] -> start <= n -> n < start + numel_of shape ->
  (s <- Torch.slice flat start (start + numel_of shape) ;; view s shape)%py
  = Raise RuntimeError.
Proof.
  intros Hs Hlo Hhi. unfold Torch.slice. rewrite Hs. cbn.
  unfold view, numel. cbn. rewrite decide_False; [done|]. lia.
Qed.

(** The pass stops at a parameter whose slice would end beyond the
    buffer. *)
Lemma alias_pass_misfit (upd : tensor -> parameter -> parameter)
    (flat : tensor) (n : nat) (id : nat) (rest : list nat) (start : nat)
    (w : world) :
  t_shape flat = [n] -> start <= n ->
  n < start + numel_at (w_mem w) id ->
  id < length (m_params (w_mem w)) ->
  alias_pass upd flat (id :: rest) start w = (Raise RuntimeError, w).
Proof.
  intros Hflat Hlo Hhi Hid.
  destruct (lookup_lt_is_Some_2 _ _ Hid) as [p Hp].
  unfold numel_at in Hhi. rewrite Hp in Hhi. cbn in Hhi.
  unfold alias_pass. cbn [for_in]. unfold mbind at 1.
  unfold mbind at 1, get_param at 1. rewrite Hp.
  unfold mbind at 1, lift at 1.
  change (numel (p_data p)) with (numel_of (p_shape p)).
  by rewrite (slice_view_short flat n start (p_shape p) Hflat Hlo).
Qed.

Lemma model_numel_app (m : memory) (ids1 ids2 : list nat) :
  model_numel m (ids1 ++ ids2) = model_numel m ids1 + model_numel m ids2.
Proof. unfold model_numel. by rewrite fmap_app, sum_list_with_app. Qed.

Lemma slice_start_take (m : memory) (ids : list nat) (k : nat) :
  slice_start m ids k = model_numel m (take k ids).
Proof. unfold slice_start, model_numel. by rewrite fmap_take. Qed.

(** A pass over a replica that does not fit: it raises at the first
    parameter [k] whose slice would end beyond the buffer, the parameters
    before it re-aliased, the others as they were. *)
Lemma alias_pass_short (upd : tensor -> parameter -> parameter)
    (flat : tensor) (n : nat) (ids : list nat) (w : world) :
  (forall v p, t_shape v = p_shape p -> p_shape (upd v p) = p_shape p) ->
  t_shape flat = [n] ->
  Forall (fun id => id < length (m_params (w_mem w))) ids ->
  NoDup ids ->
  n < model_numel (w_mem w) ids ->
  exists k ps',
    k < length ids /\
    slice_start (w_mem w) ids k <= n < slice_start (w_mem w) ids (S k) /\
    alias_pass upd flat ids 0 w = (Raise RuntimeError, with_params w ps') /\
    (forall i id p,
        ids !! i = Some id -> m_params (w_mem w) !! id = Some p ->
        ps' !! id
        = Some (if decide (i < k)
                then upd (view_at flat (slice_start (w_mem w) ids i)
                            (p_shape p)) p
                else p)).
Proof.
  intros Hupd Hflat Hvalid Hnd Hn.
  destruct (prefix_sum_crossing (numel_at (w_mem w) <$> ids) n Hn)
    as (k & Hk & Hlo & Hhi).
  rewrite length_fmap in Hk.
  exists k.
  destruct (lookup_lt_is_Some_2 _ _ Hk) as [idk Hidk].
  assert (Hsplit : ids = take k ids ++ idk :: drop (S k) ids).
  { rewrite <- (drop_S _ _ _ Hidk). by rewrite take_drop. }
  assert (Hvalid1 : Forall (fun id => id < length (m_params (w_mem w)))
                           (take k ids)) by (by apply Forall_take).
  assert (Hidk_lt : idk < length (m_params (w_mem w))).
  { eapply Forall_forall in Hvalid; [done|]. by eapply list_elem_of_lookup_2. }
  fold (slice_start (w_mem w) ids k) in Hlo.
  fold (slice_start (w_mem w) ids (S k)) in Hhi.
  destruct (alias_pass_spec upd flat n Hupd Hflat (take k ids) 0 w Hvalid1)
    as (ps' & Hrun & Hsh & Hout & Hin).
  { rewrite <- slice_start_take. lia. }
  exists ps'. split; [done|]. split; [done|].
  assert (Hndk : NoDup (take k ids))
    by (eapply sublist_NoDup; [exact Hnd|apply sublist_take]).
  specialize (Hin Hndk).
  assert (Hstep : slice_start (w_mem w) ids (S k)
                  = slice_start (w_mem w) ids k + numel_at (w_mem w) idk).
  { unfold slice_start. apply sum_list_take_S.
    by rewrite list_lookup_fmap, Hidk. }
  split.
  - rewrite Hsplit at 1. unfold alias_pass. rewrite for_in_app.
    unfold mbind at 1. unfold alias_pass in Hrun. rewrite Hrun.
    rewrite <- slice_start_take. cbn [Nat.add].
    apply (alias_pass_misfit upd flat n); [done|lia| |].
    + rewrite (numel_at_shapes (w_mem w)); [lia|done].
    + cbn. by rewrite (shapes_length _ _ Hsh).
  - intros i id p Hi Hp. case_decide as Hik.
    + rewrite (Hin i id p); [|by rewrite lookup_take_lt|done].
      do 3 f_equal. unfold slice_start. rewrite fmap_take, take_take.
      by rewrite Nat.min_l by lia.
    + rewrite Hout; [done|]. intros Hmem.
      apply list_elem_of_lookup_1 in Hmem as (j & Hj).
      pose proof (lookup_lt_Some _ _ _ Hj) as Hjl.
      rewrite length_take in Hjl.
      rewrite lookup_take_lt in Hj by lia.
      pose proof (NoDup_lookup _ _ _ _ Hnd Hi Hj). lia.
Qed.

Lemma set_data_shape (v : tensor) (p : parameter) :
  t_shape v = p_shape p -> p_shape (set_data v p) = p_shape p.
Proof. done. Qed.

Lemma set_grad_shape (v : tensor) (p : parameter) :
  t_shape v = p_shape p -> p_shape (set_grad v p) = p_shape p.
Proof. done. Qed.

(** X3. The two aliasing passes given a one-dimensional buffer shorter
    than the replica: each raises [RuntimeError] (the view of the clamped
    slice has the wrong element count) at the first parameter [k] whose
    slice would end beyond the buffer; heap and trace are as before; the
    parameters before [k] have been re-aliased, the others are as they
    were. *)
Theorem aliasing_pass_buffer_too_short (model : list nat) (flat : tensor)
    (n : nat) (w : world) :
  t_shape flat = [n] ->
  Forall (fun id => id < length (m_params (w_mem w))) model ->
  NoDup model ->
  n < model_numel (w_mem w) model ->
  exists k ps_data ps_grad,
    k < length model /\
    slice_start (w_mem w) model k <= n < slice_start (w_mem w) model (S k) /\
    update_model_params_loc model flat w
      = (Raise RuntimeError, with_params w ps_data) /\
    update_model_grads_loc model flat w
      = (Raise RuntimeError, with_params w ps_grad) /\
    (forall i id p,
        model !! i = Some id -> m_params (w_mem w) !! id = Some p ->
        let v := view_at flat (slice_start (w_mem w) model i) (p_shape p) in
        ps_data !! id = Some (if decide (i < k) then set_data v p else p) /\
        ps_grad !! id = Some (if decide (i < k) then set_grad v p else p)).
Proof.
  intros Hflat Hvalid Hnd Hn.
  destruct (alias_pass_short set_data flat n model w set_data_shape
              Hflat Hvalid Hnd Hn) as (k & psd & Hk & Hcross & Hrund & Hd).
  destruct (alias_pass_short set_grad flat n model w set_grad_shape
              Hflat Hvalid Hnd Hn) as (k' & psg & Hk' & Hcross' & Hrung & Hg).
  assert (k' = k) as ->.
  { destruct (decide (k' = k)) as [|Hne]; [done|exfalso].
    unfold slice_start in *.
    destruct (decide (k' < k)).
    - pose proof (sum_list_take_mono (numel_at (w_mem w) <$> model) (S k') k).
      lia.
    - pose proof (sum_list_take_mono (numel_at (w_mem w) <$> model) (S k) k').
      lia. }
  exists k, psd, psg. split; [done|]. split; [done|].
  split; [by rewrite update_model_params_loc_alias, Hrund|].
  split; [by rewrite update_model_grads_loc_alias, Hrung|].
  intros i id p Hi Hp v. split; [by apply Hd|by apply Hg].
Qed.

(** X4. A one-dimensional buffer at least as long as the replica is
    accepted by both passes, which then leave heap and trace as they
    were; so a pass succeeds exactly when the replica fits. *)
Theorem aliasing_pass_fits (model : list nat) (flat : tensor)
    (n : nat) (w : world) :
  t_shape flat = [n] ->
  Forall (fun id => id < length (m_params (w_mem w))) model ->
  NoDup model ->
  is_ok (update_model_params_loc model flat w).1
    = bool_decide (model_numel (w_mem w) model <= n) /\
  is_ok (update_model_grads_loc model flat w).1
    = bool_decide (model_numel (w_mem w) model <= n) /\
  m_heap (w_mem (update_model_params_loc model flat w).2) = m_heap (w_mem w) /\
  m_heap (w_mem (update_model_grads_loc model flat w).2) = m_heap (w_mem w) /\
  w_trace (update_model_params_loc model flat w).2 = w_trace w /\
  w_trace (update_model_grads_loc model flat w).2 = w_trace w.
Proof.
  intros Hflat Hvalid Hnd.
  rewrite update_model_params_loc_alias, update_model_grads_loc_alias.
  destruct (decide (model_numel (w_mem w) model <= n)) as [Hle|Hgt].
  - rewrite bool_decide_eq_true_2 by done.
    destruct (alias_pass_spec set_data flat n set_data_shape Hflat model 0 w
                Hvalid) as (psd & -> & _); [lia|].
    destruct (alias_pass_spec set_grad flat n set_grad_shape Hflat model 0 w
                Hvalid) as (psg & -> & _); [lia|].
    done.
  - rewrite bool_decide_eq_false_2 by done.
    destruct (alias_pass_short set_data flat n model w set_data_shape
                Hflat Hvalid Hnd) as (k & psd & _ & _ & -> & _); [lia|].
    destruct (alias_pass_short set_grad flat n model w set_grad_shape
                Hflat Hvalid Hnd) as (k' & psg & _ & _ & -> & _); [lia|].
    done.
Qed.

End FlatBufferEdges.

(** ** Construction: what the parameters hold afterwards *)

Section ConstructionEdges.
Context `{Scalar} `{!ReplicaExecutor} `{!Transport}.

Lemma contents_window_zero (h : heap) (l : list (list scalar))
    (flat : tensor) (n start : nat) (shape : list nat) :
  length h <= t_storage flat ->
  l !! (t_storage flat - length h) = Some (replicate n szero) ->
  t_offset flat = 0 ->
  start + numel_of shape <= n ->
  contents (h ++ l) (view_at flat start shape)
  = replicate (numel_of shape) szero.
Proof.
  intros Hge Hl Hoff Hle. unfold contents, view_at, numel. cbn -[numel_of].
  rewrite lookup_app_r by done. rewrite Hl, Hoff. cbn.
  rewrite drop_replicate, take_replicate. f_equal. lia.
Qed.

Lemma laid_out_zero (m m' : memory) (ids : list nat) (fp fg : tensor)
    (h : heap) (l : list (list scalar)) (n : nat) :
  laid_out m m' ids fp fg ->
  m_heap m' = h ++ l ->
  n = model_numel m ids ->
  length h <= t_storage fp -> length h <= t_storage fg ->
  l !! (t_storage fp - length h) = Some (replicate n szero) ->
  l !! (t_storage fg - length h) = Some (replicate n szero) ->
  t_offset fp = 0 -> t_offset fg = 0 ->
  forall id p,
    id ∈ ids -> m_params m !! id = Some p ->
    exists q g,
      m_params m' !! id = Some q /\ p_grad q = Some g /\
      t_shape (p_data q) = p_shape p /\ t_shape g = p_shape p /\
      contents (m_heap m') (p_data q) = replicate (numel (p_data p)) szero /\
      contents (m_heap m') g = replicate (numel (p_data p)) szero.
Proof.
  intros Hl Hheap -> Hgp Hgg Hlp Hlg Hop Hog id p Hin Hp.
  apply list_elem_of_lookup_1 in Hin as (i & Hi).
  specialize (Hl i id p Hi Hp).
  assert (Hfit : slice_start m ids i + numel_of (p_shape p)
                 <= model_numel m ids).
  { destruct (slices_tile m ids) as (Hinside & _).
    rewrite <- (slice_size_numel m ids i id p Hi Hp).
    apply Hinside. by eapply lookup_lt_Some. }
  eexists _, _. split; [exact Hl|]. split; [done|].
  split; [done|]. split; [done|]. rewrite Hheap. split.
  - apply (contents_window_zero h l fp (model_numel m ids)); done.
  - apply (contents_window_zero h l fg (model_numel m ids)); done.
Qed.

(** X5. After construction every parameter of the two replicas, and its
    gradient, has its shape and reads all zeros, whatever it held before:
    the aliasing passes point the parameters into the zero-filled buffers
    and copy nothing. The storages that existed before construction are
    not written. *)
Theorem init_parameters_read_zero (mg1 mg2 : model_gen) (bs : Z)
    (ssz nsp sm : pyobj) (c1 c2 : comm) (ldl crit opt : pyobj) (pts : Z)
    (async : bool) (repl : Z) (w : world) :
  let m := w_mem w in
  Forall (fun id => id < length (m_params m)) (models mg1 ++ models mg2) ->
  NoDup (models mg1 ++ models mg2) ->
  exists self w',
    init mg1 mg2 bs ssz nsp sm c1 c2 ldl crit opt pts async repl w
      = (Ok self, w') /\
    take (length (m_heap m)) (m_heap (w_mem w')) = m_heap m /\
    forall id p,
      id ∈ models mg1 ++ models mg2 -> m_params m !! id = Some p ->
      exists q g,
        m_params (w_mem w') !! id = Some q /\ p_grad q = Some g /\
        t_shape (p_data q) = p_shape p /\ t_shape g = p_shape p /\
        contents (m_heap (w_mem w')) (p_data q)
          = replicate (numel (p_data p)) szero /\
        contents (m_heap (w_mem w')) g
          = replicate (numel (p_data p)) szero.
Proof.
  intros m Hvalid Hnd.
  destruct (init_spec mg1 mg2 bs ssz nsp sm c1 c2 ldl crit opt pts async repl
              w Hvalid Hnd)
    as (self & w' & Hrun & _ & _ & _ & _ & _ & _ & Hn1 & Hn2 & Hfp1 & Hfp2
        & Hfg1 & Hfg2 & Hheap & _ & Hl1 & Hl2 & _).
  fold m in Hheap, Hl1, Hl2.
  exists self, w'. split; [done|]. split.
  { rewrite Hheap. by rewrite take_app_length. }
  intros id p Hin Hp. apply elem_of_app in Hin as [Hin|Hin].
  - eapply (laid_out_zero m (w_mem w') (models mg1) _ _ (m_heap m));
      [exact Hl1|exact Hheap|reflexivity|cbn; lia|cbn; lia| | |done|done
      |exact Hin|exact Hp]; cbn.
    + by rewrite Nat.sub_diag.
    + by replace (length (m_heap m) + 2 - length (m_heap m)) with 2 by lia.
  - eapply (laid_out_zero m (w_mem w') (models mg2) _ _ (m_heap m));
      [exact Hl2|exact Hheap|reflexivity|cbn; lia|cbn; lia| | |done|done
      |exact Hin|exact Hp]; cbn.
    + by replace (length (m_heap m) + 1 - length (m_heap m)) with 1 by lia.
    + by replace (length (m_heap m) + 3 - length (m_heap m)) with 3 by lia.
Qed.

(** X6. The sizes recorded at construction stay true of the constructed
    object: asked again afterwards, [get_model_parameter_size] returns
    [model1_size] for the first replica and [model2_size] for the second,
    which are the element counts of the four flat buffers; the query
    changes nothing. *)
Theorem init_sizes_agree (mg1 mg2 : model_gen) (bs : Z)
    (ssz nsp sm : pyobj) (c1 c2 : comm) (ldl crit opt : pyobj) (pts : Z)
    (async : bool) (repl : Z) (w : world) :
  Forall (fun id => id < length (m_params (w_mem w)))
         (models mg1 ++ models mg2) ->
  NoDup (models mg1 ++ models mg2) ->
  exists self w',
    init mg1 mg2 bs ssz nsp sm c1 c2 ldl crit opt pts async repl w
      = (Ok self, w') /\
    get_model_parameter_size mg1 w' = (Ok (model1_size self), w') /\
    get_model_parameter_size mg2 w' = (Ok (model2_size self), w') /\
    numel (flat_params_model1 self) = model1_size self /\
    numel (flat_grads_model1 self) = model1_size self /\
    numel (flat_params_model2 self) = model2_size self /\
    numel (flat_grads_model2 self) = model2_size self.
Proof.
  intros Hvalid Hnd.
  destruct (init_spec mg1 mg2 bs ssz nsp sm c1 c2 ldl crit opt pts async repl
              w Hvalid Hnd)
    as (self & w' & Hrun & _ & _ & _ & _ & _ & _ & Hn1 & Hn2 & Hfp1 & Hfp2
        & Hfg1 & Hfg2 & _ & Hsh & _).
  cbv zeta in *.
  apply Forall_app in Hvalid as [Hvalid1 Hvalid2].
  pose proof (shapes_length _ _ Hsh) as Hlen.
  exists self, w'. split; [done|].
  split; [|split].
  - rewrite get_model_parameter_size_spec by (by rewrite Hlen).
    by rewrite (model_numel_shapes _ _ _ Hsh), Hn1.
  - rewrite get_model_parameter_size_spec by (by rewrite Hlen).
    by rewrite (model_numel_shapes _ _ _ Hsh), Hn2.
  - rewrite Hfp1, Hfg1, Hfp2, Hfg2, Hn1, Hn2. unfold numel. cbn -[numel_of].
    by rewrite !numel_of_flat.
Qed.

End ConstructionEdges.

(** ** Parameter exchange: the two sides, and what arrives *)

Section TensorWindows.
Context `{Scalar}.
Implicit Types (h : heap) (t : tensor) (vals : list scalar).

Lemma contents_store_window h t vals (start : nat) (shape : list nat) :
  valid h t = true -> length vals = numel t ->
  start + numel_of shape <= numel t ->
  contents (store h t vals)
    {| t_storage := t_storage t; t_offset := t_offset t + start;
       t_shape := shape; t_requires_grad := t_requires_grad t |}
  = take (numel_of shape) (drop start vals).
Proof.
  intros (s & Hs & Hle)%valid_storage Hlen Hfit. unfold contents, store, numel.
  cbn -[numel_of]. rewrite list_lookup_alter_eq, Hs. cbn -[numel_of].
  apply list_eq. intros j.
  destruct (decide (j < numel_of shape)) as [Hj|Hj].
  - rewrite !lookup_take_lt, !lookup_drop by done.
    rewrite list_lookup_inserts by lia. f_equal. lia.
  - by rewrite !lookup_take_ge by lia.
Qed.

End TensorWindows.

Section ExchangeEdges.
Context `{Scalar} `{!ReplicaExecutor} `{!Transport}.

Lemma appended_yields {A : Type} (c : M A) (w : world) (a : A) (m' : memory)
    (evs : list event) :
  yields c w a m' evs -> appended w (c w).2 = evs.
Proof.
  unfold yields, appended. intros ->. cbn. by rewrite drop_app_length.
Qed.

Lemma even_half (n : Z) : Z.even n = true -> (n = 2 * (n ÷ 2))%Z.
Proof.
  intros [k ->]%Z.even_spec. rewrite (Z.mul_comm 2 k), Z.quot_mul by done. lia.
Qed.

(** X8. On a group of even size, the two ranks that are each other's
    partner run the parameter exchange in opposite orders: the rank below
    the middle sends and then receives, its partner receives and then
    sends, each naming the other, with tag 0; so the first transfer of
    one side meets the first of the other, and the second the second. *)
Theorem send_recv_params_pairing (self peer : master)
    (odd_self odd_peer : bool) (w wp : world) :
  Z.even (mp_size self) = true ->
  mp_size peer = mp_size self ->
  comm_local_rank (mpi_comm_first self) = local_rank self ->
  comm_local_rank (mpi_comm_first peer) = local_rank peer ->
  local_rank peer = (mp_size self - 1 - local_rank self)%Z ->
  let first := if (local_rank self <? mp_size self ÷ 2)%Z
               then Send else Recv in
  is_ok (send_recv_params self odd_self w).1 = true /\
  is_ok (send_recv_params peer odd_peer wp).1 = true /\
  omap route (appended w (send_recv_params self odd_self w).2)
    = [(first, local_rank peer, 0%Z); (opposite first, local_rank peer, 0%Z)] /\
  omap route (appended wp (send_recv_params peer odd_peer wp).2)
    = [(opposite first, local_rank self, 0%Z); (first, local_rank self, 0%Z)].
Proof.
  intros Heven Hmp Hc Hcp Hpeer first.
  destruct (send_recv_params_yields self odd_self w) as (m1 & Hy1).
  destruct (send_recv_params_yields peer odd_peer wp) as (m2 & Hy2).
  rewrite (appended_yields _ _ _ _ _ Hy1), (appended_yields _ _ _ _ _ Hy2).
  unfold yields in Hy1, Hy2. rewrite Hy1, Hy2. cbn [fst is_ok].
  split; [done|]. split; [done|].
  rewrite Hc, Hcp, Hmp.
  assert (Hback : (mp_size self - 1 - local_rank peer = local_rank self)%Z)
    by lia.
  rewrite Hback, <- Hpeer.
  assert (Htest : (local_rank peer <? mp_size self ÷ 2)%Z
                  = negb (local_rank self <? mp_size self ÷ 2)%Z).
  { pose proof (even_half _ Heven).
    destruct (Z.ltb_spec (local_rank peer) (mp_size self ÷ 2)),
             (Z.ltb_spec (local_rank self) (mp_size self ÷ 2)); cbn; lia. }
  rewrite Htest. subst first.
  by destruct (local_rank self <? mp_size self ÷ 2)%Z.
Qed.

(** The world after the parameter exchange: the message is in the
    receive buffer. *)
Lemma send_recv_params_world (self : master) (odd_iteration : bool) (w : world) :
  let target := if odd_iteration then flat_params_model1 self
                else flat_params_model2 self in
  let rid := length (w_trace w)
             + (if (local_rank self <? mp_size self ÷ 2)%Z then 2 else 1) in
  exists evs,
    send_recv_params self odd_iteration w
    = (Ok tt,
       {| w_mem := {| m_heap := store (m_heap (w_mem w)) target
                                  (received rid (numel target));
                      m_params := m_params (w_mem w) |};
          w_trace := w_trace w ++ evs |}).
Proof.
  intros target rid. subst target rid.
  unfold send_recv_params, send_params_model, recv_params_model. run_monad.
  destruct odd_iteration, (local_rank self <? mp_size self `quot` 2)%Z; cbn;
    rewrite ?length_app; cbn [length]; rewrite <- ?Nat.add_assoc;
    cbn [Nat.add]; unfold received; rewrite <- ?app_assoc;
    eexists; reflexivity.
Qed.

(** X9. After [send_recv_params] the receive buffer ([flat_params_model1]
    on an odd iteration, [flat_params_model2] otherwise) holds the message
    of the partner; every window of that buffer reads its part of the
    message, and so does every parameter that construction laid out in
    it: parameter [i] holds the message from its slice start on. Tensors
    in other storages, and the parameter objects, are as before. *)
Theorem send_recv_params_delivers (self : master) (odd_iteration : bool)
    (w : world) :
  let h := m_heap (w_mem w) in
  let target := if odd_iteration then flat_params_model1 self
                else flat_params_model2 self in
  let n := numel target in
  let rid := length (w_trace w)
             + (if (local_rank self <? mp_size self ÷ 2)%Z then 2 else 1) in
  let msg := received rid n in
  valid h target = true ->
  exists w',
    send_recv_params self odd_iteration w = (Ok tt, w') /\
    let h' := m_heap (w_mem w') in
    m_params (w_mem w') = m_params (w_mem w) /\
    contents h' target = msg /\
    (forall start shape,
        start + numel_of shape <= n ->
        contents h' (view_at target start shape)
        = take (numel_of shape) (drop start msg)) /\
    (forall m0 ids fg i id p,
        laid_out m0 (w_mem w) ids target fg ->
        model_numel m0 ids <= n ->
        ids !! i = Some id -> m_params m0 !! id = Some p ->
        exists q,
          m_params (w_mem w') !! id = Some q /\
          t_shape (p_data q) = p_shape p /\
          contents h' (p_data q)
          = take (numel (p_data p)) (drop (slice_start m0 ids i) msg)) /\
    (forall t, t_storage t <> t_storage target ->
               contents h' t = contents h t).
Proof.
  intros h target n rid msg Hv.
  destruct (send_recv_params_world self odd_iteration w) as (evs & Hrun).
  fold target rid in Hrun. fold n in Hrun. fold msg h in Hrun.
  eexists. split; [exact Hrun|]. cbn [w_mem m_heap m_params].
  assert (Hlen : length msg = n)
    by (unfold msg, received; by rewrite length_map, length_seq).
  assert (Hwin : forall start shape,
             start + numel_of shape <= n ->
             contents (store h target msg) (view_at target start shape)
             = take (numel_of shape) (drop start msg)).
  { intros start shape Hfit. by apply contents_store_window. }
  split; [done|]. split; [by apply contents_store|]. split; [exact Hwin|].
  split.
  - intros m0 ids fg i id p Hl Hn Hi Hp.
    exists (aliased target fg (slice_start m0 ids i) p).
    split; [by apply Hl|]. split; [done|].
    apply (Hwin (slice_start m0 ids i) (p_shape p)).
    destruct (slices_tile m0 ids) as (Hinside & _).
    rewrite <- (slice_size_numel m0 ids i id p Hi Hp).
    pose proof (Hinside i (lookup_lt_Some _ _ _ Hi)). lia.
  - intros t Hne. by apply contents_store_other.
Qed.

End ExchangeEdges.

(** ** The step scheduler: requests, transfers and edge inputs *)

Ltac run_forward :=
  eapply yields_bind; [apply forward_loop_yields| |reflexivity];
  cbv beta iota; cbn [w_mem w_trace].

Ltac run_backward :=
  eapply yields_bind;
    [apply backward_loop_yields; by apply backward_range_ok| |reflexivity];
  cbn [w_mem w_trace].

Ltac run_with lem :=
  match goal with
  | |- yields (mbind _ _) ?W _ _ _ =>
      let mm := fresh "mm" in
      let Hmm := fresh "Hmm" in
      destruct (lem W) as [mm Hmm];
      eapply yields_bind; [exact (yields_mem _ _ _ _ _ Hmm)| |reflexivity];
      cbn [w_mem w_trace]
  end.

Ltac run_edge lem :=
  eapply yields_bind; [apply lem| |reflexivity]; cbn [w_mem w_trace].

Ltac events_eq :=
  cbn [app w_mem w_trace length];
  repeat lazymatch goal with
    | |- Wait _ = Wait _ =>
        apply (f_equal Wait); rewrite ?length_app; cbn [length];
        rewrite ?length_app;
        repeat match goal with
               | |- context [length (if ?b then _ else _)] => destruct b
               end;
        cbn [length]; lia
    | |- _ :: _ = _ :: _ => apply (f_equal2 cons)
    | |- _ ++ _ = _ ++ _ => apply (f_equal2 app)
    | |- _ => reflexivity
    end.

Section SchedulerBlocks.
Context `{Scalar} `{!ReplicaExecutor} `{!Transport}.

Lemma yields_events {A : Type} (c : M A) (w : world) (a : A) (m' : memory)
    (evs evs' : list event) :
  yields c w a m' evs' -> evs = evs' -> yields c w a m' evs.
Proof. by intros ? ->. Qed.

(** One interleaved step, with every transfer and every wait. *)
Lemma run_step_allreduce_blocks (self : master) (inputs : list sample)
    (labels : list label) (odd_iteration : bool) (w : world) :
  parts self <> 0%Z ->
  t_shape (flat_grads_model1 self) = [model1_size self] ->
  t_shape (flat_grads_model2 self) = [model2_size self] ->
  let parts_size := (batch_size self ÷ parts self)%Z in
  let tm1 := if odd_iteration then TrainModel2 else TrainModel1 in
  let tm2 := if odd_iteration then TrainModel1 else TrainModel2 in
  let x1 := Py.slice inputs None (Some (batch_size self)) in
  let y1 := Py.slice labels None (Some (batch_size self)) in
  let x2 := Py.slice inputs (Some (batch_size self)) None in
  let y2 := Py.slice labels (Some (batch_size self)) None in
  let ks := Py.range (parts self) in
  let edge tm := (tm_local_rank (tm_of self tm) =? mp_size self - 1)%Z in
  let partner := (mp_size self - 1 - local_rank self)%Z in
  let partner' :=
    (mp_size self - 1 - comm_local_rank (mpi_comm_first self))%Z in
  let send_p d := Isend (if odd_iteration then flat_params_model2 self
                         else flat_params_model1 self) d 0 in
  let recv_p d := Irecv (if odd_iteration then flat_params_model1 self
                         else flat_params_model2 self) d 0 in
  let send_g d := Isend (if odd_iteration then flat_grads_model2 self
                         else flat_grads_model1 self) d 0 in
  exists (m1 m2 m' : memory) (fresh : tensor) (loss corrects : scalar),
    let n0 := length (w_trace w) in
    let pre1 := if edge tm1 then [recv_p partner; Wait n0] else [] in
    let fwd1 := (forward_events tm1 x1 y1 parts_size ks m1).1 in
    let n1 := n0 + length pre1 + length fwd1 in
    let mid1 :=
      if edge tm1 then []
      else [Synchronize]
             ++ (if (local_rank self <? mp_size self ÷ 2)%Z
                 then [send_p partner'; recv_p partner']
                 else [recv_p partner'; send_p partner'])
             ++ [Wait (n1 + 1); Wait (n1 + 2)] in
    let bwd1 := backward_events tm1 (flat_map forward_out fwd1) ks in
    let n2 := n1 + length mid1 + length bwd1 in
    let post1 := if edge tm1 then [send_p partner; Wait n2] else [] in
    let n3 := n2 + length post1 in
    let pre2 := if edge tm2 then [Irecv fresh partner 0; Wait n3] else [] in
    let fwd2 := (forward_events tm2 x2 y2 parts_size ks m2).1 in
    let n4 := n3 + length pre2 + length fwd2 in
    let mid2 :=
      if edge tm2 then []
      else [Synchronize; send_g partner'; Irecv fresh partner' 0;
            Wait (n4 + 1); Wait (n4 + 2)] in
    let bwd2 := backward_events tm2 (flat_map forward_out fwd2) ks in
    let n5 := n4 + length mid2 + length bwd2 in
    let post2 := if edge tm2 then [send_g partner; Wait n5] else [] in
    yields (run_step_allreduce self inputs labels odd_iteration) w
      (loss, corrects) m'
      (pre1 ++ fwd1 ++ mid1 ++ bwd1 ++ post1
         ++ pre2 ++ fwd2 ++ mid2 ++ bwd2 ++ post2) /\
    t_shape fresh
      = [if odd_iteration then model1_size self else model2_size self] /\
    t_offset fresh = 0 /\
    t_requires_grad fresh = false.
Proof.
  intros Hparts Hs1 Hs2 parts_size tm1 tm2 x1 y1 x2 y2 ks edge partner
    partner' send_p recv_p send_g.
  unfold run_step_allreduce.
  assert (Hdiv : int_truediv (batch_size self) (parts self) = Ok parts_size).
  { unfold int_truediv. by destruct (Z.eqb_spec (parts self) 0). }
  rewrite Hdiv.
  fold tm1 tm2 x1 y1 x2 y2 ks. cbv zeta.
  subst edge partner partner' send_p recv_p send_g. cbv beta.
  destruct (tm_local_rank (tm_of self tm1) =? mp_size self - 1)%Z eqn:He1;
    destruct (tm_local_rank (tm_of self tm2) =? mp_size self - 1)%Z eqn:He2;
    cbn [negb]; cbv beta iota.
  - eexists _, _, _, _, _, _.
    split.
    { eapply yields_events.
      { apply yields_lift_bind.
        run_edge edge_recv_yields. run_forward. apply yields_skip.
        run_backward. run_edge edge_send_yields.
        run_with (fun W => edge_grads_recv_yields self
                     (mp_size self - 1 - local_rank self) odd_iteration W Hs1 Hs2).
        run_forward. apply yields_skip. run_backward.
        eapply yields_last. apply edge_grads_send_yields. }
      events_eq. }
    done.
  - eexists _, _, _, _, _, _.
    split.
    { eapply yields_events.
      { apply yields_lift_bind.
        run_edge edge_recv_yields. run_forward. apply yields_skip.
        run_backward. run_edge edge_send_yields.
        apply yields_skip. run_forward.
        run_with (fun W => send_recv_grads_yields self odd_iteration W Hs1 Hs2).
        run_backward. apply yields_skip. apply yields_ret. }
      events_eq. }
    done.
  - eexists _, _, _, _, _, _.
    split.
    { eapply yields_events.
      { apply yields_lift_bind.
        apply yields_skip. run_forward.
        run_with (send_recv_params_yields self odd_iteration).
        run_backward. apply yields_skip.
        run_with (fun W => edge_grads_recv_yields self
                     (mp_size self - 1 - local_rank self) odd_iteration W Hs1 Hs2).
        run_forward. apply yields_skip. run_backward.
        eapply yields_last. apply edge_grads_send_yields. }
      events_eq. }
    done.
  - eexists _, _, _, _, _, _.
    split.
    { eapply yields_events.
      { apply yields_lift_bind.
        apply yields_skip. run_forward.
        run_with (send_recv_params_yields self odd_iteration).
        run_backward. apply yields_skip. apply yields_skip.
        run_forward.
        run_with (fun W => send_recv_grads_yields self odd_iteration W Hs1 Hs2).
        run_backward. apply yields_skip. apply yields_ret. }
      events_eq. }
    done.
Qed.

End SchedulerBlocks.

Section SchedulerEdges.
Context `{Scalar} `{!ReplicaExecutor} `{!Transport}.

(** X10. With [parts = 0] the step raises [ZeroDivisionError] at its
    first statement: nothing is sent, received, allocated or run. *)
Theorem run_step_allreduce_zero_parts (self : master) (inputs : list sample)
    (labels : list label) (odd_iteration : bool) (w : world) :
  parts self = 0%Z ->
  run_step_allreduce self inputs labels odd_iteration w
  = (Raise ZeroDivisionError, w).
Proof.
  intros Hparts. unfold run_step_allreduce, int_truediv. by rewrite Hparts.
Qed.

Lemma issued_app (base : nat) (a b : list event) :
  issued base (a ++ b) = issued base a ++ issued (base + length a) b.
Proof.
  revert base. induction a as [|e a IH]; intros base; cbn [app issued length].
  - by rewrite Nat.add_0_r.
  - rewrite IH. replace (S base + length a) with (base + S (length a)) by lia.
    by destruct e.
Qed.

Lemma waited_app (a b : list event) : waited (a ++ b) = waited a ++ waited b.
Proof. apply flat_map_app. Qed.

(** Passes of the executors issue no request of this file, wait on none
    and start no transfer. *)
Lemma passes_quiet (evs : list event) :
  Forall (fun e => match e with
                   | ForwardPass _ _ _ _ _ | BackwardPass _ _ _ => True
                   | _ => False
                   end) evs ->
  (forall base, issued base evs = []) /\
  (waited evs = []) /\
  (omap transfer evs = []).
Proof.
  induction 1 as [|e evs He _ (IH1 & IH2 & IH3)]; [done|].
  destruct e; try done; cbn; by rewrite ?IH1, ?IH2, ?IH3.
Qed.

Lemma forward_events_passes (tm : executor) (data_x : list sample)
    (data_y : list label) (parts_size : Z) (ks : list Z) :
  forall m,
    Forall (fun e => match e with
                     | ForwardPass _ _ _ _ _ | BackwardPass _ _ _ => True
                     | _ => False
                     end) (forward_events tm data_x data_y parts_size ks m).1.
Proof.
  induction ks as [|i ks IH]; intros m; cbn; [done|].
  constructor; [done|]. apply IH.
Qed.

Lemma backward_events_passes (tm : executor) (ys : list out) (ks : list Z) :
  Forall (fun e => match e with
                   | ForwardPass _ _ _ _ _ | BackwardPass _ _ _ => True
                   | _ => False
                   end) (backward_events tm ys ks).
Proof.
  unfold backward_events. induction ks as [|i ks IH]; cbn; [done|].
  destruct (ys !! Z.to_nat i); cbn; [by constructor|done].
Qed.

(** X11. In a step that returns, every request issued is waited on once,
    in the order of issue, and nothing else is waited on: no handle of a
    transfer is dropped and none is waited on twice. There are four. *)
Theorem run_step_allreduce_waits (self : master) (inputs : list sample)
    (labels : list label) (odd_iteration : bool) (w : world) :
  parts self <> 0%Z ->
  t_shape (flat_grads_model1 self) = [model1_size self] ->
  t_shape (flat_grads_model2 self) = [model2_size self] ->
  exists (loss corrects : scalar) (m' : memory) (new : list event),
    yields (run_step_allreduce self inputs labels odd_iteration) w
      (loss, corrects) m' new /\
    waited new = issued (length (w_trace w)) new /\
    length (waited new) = 4.
Proof.
  intros Hparts Hs1 Hs2.
  destruct (run_step_allreduce_blocks self inputs labels odd_iteration w
              Hparts Hs1 Hs2)
    as (m1 & m2 & m' & fresh & loss & corrects & Hrun & _).
  cbv zeta in Hrun.
  eexists loss, corrects, m', _. split; [exact Hrun|].
  set (tm1 := if odd_iteration then TrainModel2 else TrainModel1) in *.
  set (tm2 := if odd_iteration then TrainModel1 else TrainModel2) in *.
  set (fwd1 := (forward_events tm1 _ _ _ _ m1).1) in *.
  set (fwd2 := (forward_events tm2 _ _ _ _ m2).1) in *.
  set (bwd1 := backward_events tm1 _ _) in *.
  set (bwd2 := backward_events tm2 _ _) in *.
  destruct (passes_quiet fwd1 (forward_events_passes _ _ _ _ _ _))
    as (Hif1 & Hwf1 & _).
  destruct (passes_quiet fwd2 (forward_events_passes _ _ _ _ _ _))
    as (Hif2 & Hwf2 & _).
  destruct (passes_quiet bwd1 (backward_events_passes _ _ _))
    as (Hib1 & Hwb1 & _).
  destruct (passes_quiet bwd2 (backward_events_passes _ _ _))
    as (Hib2 & Hwb2 & _).
  clear Hrun.
  destruct (tm_local_rank (tm_of self tm1) =? mp_size self - 1)%Z,
           (tm_local_rank (tm_of self tm2) =? mp_size self - 1)%Z,
           (local_rank self <? mp_size self ÷ 2)%Z.
  all: rewrite ?waited_app, ?issued_app, ?Hif1, ?Hif2, ?Hib1, ?Hib2,
         ?Hwf1, ?Hwf2, ?Hwb1, ?Hwb2.
  all: cbn [waited flat_map issued app length].
  all: split; [|reflexivity].
  all: repeat (apply (f_equal2 cons); [lia|]); reflexivity.
Qed.

(** X12. A step that returns makes four transfers, all with the mirror rank
    [mp_size - 1 - local_rank] and tag 0, whatever the place of the rank
    in the two pipelines: first the send and the receive of the flat
    parameter buffers, in an order that depends on the rank, then the send
    of a flat gradient buffer and the receive into a buffer of the size of
    the other replica. *)
Theorem run_step_allreduce_transfers (self : master) (inputs : list sample)
    (labels : list label) (odd_iteration : bool) (w : world) :
  parts self <> 0%Z ->
  t_shape (flat_grads_model1 self) = [model1_size self] ->
  t_shape (flat_grads_model2 self) = [model2_size self] ->
  comm_local_rank (mpi_comm_first self) = local_rank self ->
  let partner := (mp_size self - 1 - local_rank self)%Z in
  exists (loss corrects : scalar) (m' : memory) (new : list event)
         (fresh : tensor) (params grads : list (direction * tensor * Z * Z)),
    yields (run_step_allreduce self inputs labels odd_iteration) w
      (loss, corrects) m' new /\
    omap transfer new = params ++ grads /\
    params ≡ₚ [(Send, if odd_iteration then flat_params_model2 self
                      else flat_params_model1 self, partner, 0%Z);
               (Recv, if odd_iteration then flat_params_model1 self
                      else flat_params_model2 self, partner, 0%Z)] /\
    grads ≡ₚ [(Send, if odd_iteration then flat_grads_model2 self
                     else flat_grads_model1 self, partner, 0%Z);
              (Recv, fresh, partner, 0%Z)] /\
    t_shape fresh
      = [if odd_iteration then model1_size self else model2_size self] /\
    t_offset fresh = 0.
Proof.
  intros Hparts Hs1 Hs2 Hrank partner.
  destruct (run_step_allreduce_blocks self inputs labels odd_iteration w
              Hparts Hs1 Hs2)
    as (m1 & m2 & m' & fresh & loss & corrects & Hrun & Hshape & Hoff & _).
  cbv zeta in Hrun. rewrite Hrank in Hrun. fold partner in Hrun.
  set (tm1 := if odd_iteration then TrainModel2 else TrainModel1) in *.
  set (tm2 := if odd_iteration then TrainModel1 else TrainModel2) in *.
  set (fwd1 := (forward_events tm1 _ _ _ _ m1).1) in *.
  set (fwd2 := (forward_events tm2 _ _ _ _ m2).1) in *.
  set (bwd1 := backward_events tm1 _ _) in *.
  set (bwd2 := backward_events tm2 _ _) in *.
  destruct (passes_quiet fwd1 (forward_events_passes _ _ _ _ _ _))
    as (_ & _ & Hf1).
  destruct (passes_quiet fwd2 (forward_events_passes _ _ _ _ _ _))
    as (_ & _ & Hf2).
  destruct (passes_quiet bwd1 (backward_events_passes _ _ _))
    as (_ & _ & Hb1).
  destruct (passes_quiet bwd2 (backward_events_passes _ _ _))
    as (_ & _ & Hb2).
  revert Hrun.
  destruct (tm_local_rank (tm_of self tm1) =? mp_size self - 1)%Z,
           (tm_local_rank (tm_of self tm2) =? mp_size self - 1)%Z,
           (local_rank self <? mp_size self ÷ 2)%Z.
  all: intros Hrun; eexists loss, corrects, m', _, fresh, _, _;
    (split; [exact Hrun|]).
  all: rewrite ?omap_app, ?Hf1, ?Hf2, ?Hb1, ?Hb2;
    cbn [omap list_omap transfer app].
  all: split;
    [match goal with
     | |- [?a; ?b; ?c; ?d] = _ => exact (eq_refl ([a; b] ++ [c; d]))
     end|].
  all: split; [first [reflexivity|apply perm_swap]|].
  all: split; [first [reflexivity|apply perm_swap]|done].
Qed.

Lemma empty_micro_part {A : Type} (l : list A) (i : Z) :
  Py.slice l (Some (i * 0)%Z) (Some ((i + 1) * 0)%Z) = [].
Proof.
  rewrite !Z.mul_0_r. unfold Py.slice, slice_bounds.
  by rewrite Z.sub_diag.
Qed.

(** X13. With more micro-parts than samples per replica
    ([0 <= batch_size < parts]) the micro-part size is 0: the step still
    returns, and every one of its [2 * parts] forward calls is given no
    sample and no label. *)
Theorem run_step_allreduce_empty_micro_parts (self : master)
    (inputs : list sample) (labels : list label) (odd_iteration : bool)
    (w : world) :
  (0 <= batch_size self < parts self)%Z ->
  t_shape (flat_grads_model1 self) = [model1_size self] ->
  t_shape (flat_grads_model2 self) = [model2_size self] ->
  let tm1 := if odd_iteration then TrainModel2 else TrainModel1 in
  let tm2 := if odd_iteration then TrainModel1 else TrainModel2 in
  let ks := Py.range (parts self) in
  exists (loss corrects : scalar) (m' : memory) (new : list event),
    yields (run_step_allreduce self inputs labels odd_iteration) w
      (loss, corrects) m' new /\
    omap forward_call new
      = ((fun i => (tm1, [], [], i)) <$> ks)
          ++ ((fun i => (tm2, [], [], i)) <$> ks) /\
    length (omap forward_call new) = 2 * Z.to_nat (parts self).
Proof.
  intros Hsmall Hs1 Hs2 tm1 tm2 ks.
  assert (Hparts : parts self <> 0%Z) by lia.
  destruct (run_step_allreduce_summary self inputs labels odd_iteration w
              Hparts Hs1 Hs2)
    as (loss & corrects & m' & new & Hrun & _ & Hcalls & _).
  cbv zeta in Hcalls. fold tm1 tm2 ks in Hcalls.
  rewrite Z.quot_small in Hcalls by done.
  exists loss, corrects, m', new. split; [exact Hrun|].
  assert (Hcalls' : omap forward_call new
                    = ((fun i => (tm1, [], [], i)) <$> ks)
                        ++ ((fun i => (tm2, [], [], i)) <$> ks)).
  { rewrite Hcalls. f_equal; apply list_fmap_ext; intros _ i _;
      by rewrite !empty_micro_part. }
  split; [exact Hcalls'|].
  rewrite Hcalls', length_app, !length_fmap. unfold ks.
  rewrite length_range. lia.
Qed.

End SchedulerEdges.

(** ** Replica-at-a-time steps *)

Lemma slice_from_start {A : Type} (l : list A) (b : Z) :
  Py.slice l None (Some b) = Py.slice l (Some 0%Z) (Some b).
Proof.
  unfold Py.slice, slice_bounds, adjust. cbn.
  replace (0 `max` (Z.of_nat (length l) `min` 0))%Z with 0%Z by lia.
  done.
Qed.

Lemma range_pairs (k : nat) :
  Py.range (Z.of_nat (2 * (k + 1)))
  = [0; 1]%Z ++ flat_map (fun t => [2 * t + 2; 2 * t + 3]%Z)
                         (Py.range (Z.of_nat k)).
Proof.
  induction k as [|k IH]; [done|].
  replace (2 * (S k + 1)) with (S (S (2 * (k + 1)))) by lia.
  rewrite range_S, range_S, IH, (range_S k), flat_map_app. cbn [flat_map].
  rewrite <- !app_assoc. cbn [app]. do 3 f_equal.
  f_equal; [|f_equal]; lia.
Qed.

Section DriverFacts.
Context `{Scalar} `{!ReplicaExecutor} `{!ReplicaRunner}.

Lemma run_events_app (c1 c2 : list (executor * list sample * list label)) :
  forall m,
    run_events (c1 ++ c2) m
    = ((run_events c1 m).1 ++ (run_events c2 (run_events c1 m).2).1,
       (run_events c2 (run_events c1 m).2).2).
Proof.
  induction c1 as [|[[tm x] y] c1 IH]; intros m;
    cbn [app run_events fst snd].
  - by destruct (run_events c2 m).
  - cbn zeta. by rewrite IH.
Qed.

Lemma call_run_step_events (tm : executor) (x : list sample) (y : list label)
    (s : session) :
  call_run_step tm x y s
  = ((tm_run_step tm (s_mem s) x y).2,
     {| s_mem := (run_events [(tm, x, y)] (s_mem s)).2;
        s_log := s_log s ++ (run_events [(tm, x, y)] (s_mem s)).1 |}).
Proof. reflexivity. Qed.

Lemma tally_app (loss correct : scalar) (e1 e2 : list step_event) :
  tally loss correct (e1 ++ e2)
  = tally (tally loss correct e1).1 (tally loss correct e1).2 e2.
Proof. unfold tally. by rewrite omap_app, !fmap_app, !foldl_app. Qed.

(** The loop over the further replications. *)
Lemma run_step_loop (bs : Z) (inputs : list sample) (labels : list label)
    (ts : list Z) :
  forall (loss correct : scalar) (s : session),
    let calls := flat_map (fun t => [turn bs inputs labels (2 * t + 2);
                                     turn bs inputs labels (2 * t + 3)]) ts in
    let evs := (run_events calls (s_mem s)).1 in
    foldl (fun acc times =>
             let '(loss, correct, s) := acc in
             let index := (2 * times + 2)%Z in
             let '(temp, s) :=
               call_run_step TrainModel1
                 (Py.slice inputs (Some (index * bs)%Z)
                                  (Some ((index + 1) * bs)%Z))
                 (Py.slice labels (Some (index * bs)%Z)
                                  (Some ((index + 1) * bs)%Z)) s in
             let loss := sadd loss temp.1 in
             let correct := sadd correct temp.2 in
             let '(temp, s) :=
               call_run_step TrainModel2
                 (Py.slice inputs (Some ((index + 1) * bs)%Z)
                                  (Some ((index + 2) * bs)%Z))
                 (Py.slice labels (Some ((index + 1) * bs)%Z)
                                  (Some ((index + 2) * bs)%Z)) s in
             let loss := sadd loss temp.1 in
             let correct := sadd correct temp.2 in
             (loss, correct, s))
          (loss, correct, s) ts
    = ((tally loss correct evs).1, (tally loss correct evs).2,
       {| s_mem := (run_events calls (s_mem s)).2;
          s_log := s_log s ++ evs |}).
Proof.
  induction ts as [|t ts IH]; intros loss correct s calls evs.
  - subst calls evs. cbn. rewrite app_nil_r. by destruct s.
  - cbn [foldl]. rewrite !call_run_step_events. cbn [s_mem s_log fst snd].
    rewrite IH. cbn [s_mem s_log]. subst evs calls. cbn [flat_map].
    assert (Ht1 : turn bs inputs labels (2 * t + 2)
                  = (TrainModel1,
                     Py.slice inputs (Some ((2 * t + 2) * bs)%Z)
                                     (Some ((2 * t + 2 + 1) * bs)%Z),
                     Py.slice labels (Some ((2 * t + 2) * bs)%Z)
                                     (Some ((2 * t + 2 + 1) * bs)%Z))).
    { unfold turn, chunk. replace (Z.even (2 * t + 2)) with true; [done|].
      symmetry. by rewrite Z.even_add, Z.even_mul. }
    assert (Ht2 : turn bs inputs labels (2 * t + 3)
                  = (TrainModel2,
                     Py.slice inputs (Some ((2 * t + 2 + 1) * bs)%Z)
                                     (Some ((2 * t + 2 + 2) * bs)%Z),
                     Py.slice labels (Some ((2 * t + 2 + 1) * bs)%Z)
                                     (Some ((2 * t + 2 + 2) * bs)%Z))).
    { unfold turn, chunk.
      replace (2 * t + 3)%Z with (2 * t + 2 + 1)%Z by lia.
      replace (2 * t + 2 + 1 + 1)%Z with (2 * t + 2 + 2)%Z by lia.
      replace (Z.even (2 * t + 2 + 1)) with false; [done|].
      symmetry. by rewrite !Z.even_add, Z.even_mul. }
    rewrite Ht1, Ht2. cbn [app].
    set (c1 := (TrainModel1, _, _)). set (c2 := (TrainModel2, _, _)).
    set (rest := flat_map _ ts).
    change (c1 :: c2 :: rest) with ([c1] ++ [c2] ++ rest).
    rewrite !run_events_app. cbn [fst snd].
    rewrite !tally_app. rewrite <- !app_assoc.
    reflexivity.
Qed.

Lemma range_to_nat (n : Z) : Py.range n = Py.range (Z.of_nat (Z.to_nat n)).
Proof. unfold Py.range. by rewrite Nat2Z.id. Qed.

Lemma run_events_calls (calls : list (executor * list sample * list label)) :
  forall m,
    omap run_call (run_events calls m).1 = calls /\
    length (run_events calls m).1 = length calls /\
    Forall (fun e => e <> DeviceSynchronize) (run_events calls m).1.
Proof.
  induction calls as [|[[tm x] y] calls IH]; intros m; [done|].
  cbn [run_events fst snd]. cbn zeta.
  destruct (IH (tm_run_step tm m x y).1) as (IH1 & IH2 & IH3).
  split; [cbn; by rewrite IH1|]. split; [cbn; by rewrite IH2|].
  by constructor.
Qed.

Lemma run_results_length (evs : list step_event) :
  Forall (fun e => e <> DeviceSynchronize) evs ->
  length (omap run_result evs) = length evs.
Proof.
  induction 1 as [|e evs He _ IH]; [done|].
  destruct e; [done|]. cbn. by rewrite IH.
Qed.

(** [run_step] in closed form. *)
Lemma run_step_spec (self : master) (inputs : list sample)
    (labels : list label) (s : session) :
  let bs := batch_size self in
  let rounds := Z.max 1 (replications self) in
  let calls := turn bs inputs labels <$> Py.range (2 * rounds) in
  let evs := (run_events calls (s_mem s)).1 in
  run_step self inputs labels s
  = (tally szero szero evs,
     {| s_mem := (run_events calls (s_mem s)).2;
        s_log := s_log s ++ take 2 evs ++ [DeviceSynchronize] ++ drop 2 evs |}).
Proof.
  intros bs rounds calls evs.
  set (k := Z.to_nat (replications self - 1)).
  assert (Hcalls : calls
                   = [turn bs inputs labels 0] ++ [turn bs inputs labels 1]
                       ++ flat_map (fun t => [turn bs inputs labels (2 * t + 2);
                                              turn bs inputs labels (2 * t + 3)])
                                   (Py.range (replications self - 1))).
  { subst calls. replace (2 * rounds)%Z with (Z.of_nat (2 * (k + 1)))
      by (subst rounds k; lia).
    rewrite range_pairs, (range_to_nat (replications self - 1)). fold k.
    rewrite fmap_app. cbn [fmap list_fmap app]. do 2 f_equal.
    induction (Py.range (Z.of_nat k)) as [|t ts IHts]; [done|].
    cbn [flat_map app fmap list_fmap]. cbn in IHts. by rewrite IHts. }
  assert (Ht0 : turn bs inputs labels 0
               = (TrainModel1, Py.slice inputs None (Some bs),
                  Py.slice labels None (Some bs))).
  { unfold turn, chunk. cbn [Z.even]. rewrite !slice_from_start.
    rewrite Z.mul_0_l. replace ((0 + 1) * bs)%Z with bs by lia. done. }
  assert (Ht1 : turn bs inputs labels 1
                = (TrainModel2, Py.slice inputs (Some bs) (Some (2 * bs)%Z),
                   Py.slice labels (Some bs) (Some (2 * bs)%Z))).
  { unfold turn, chunk. cbn [Z.even].
    replace (1 * bs)%Z with bs by lia.
    replace ((1 + 1) * bs)%Z with (2 * bs)%Z by lia. done. }
  subst evs. rewrite Hcalls, Ht0, Ht1. clear Hcalls Ht0 Ht1.
  unfold run_step. fold bs.
  rewrite !call_run_step_events. cbn [s_mem s_log fst snd].
  unfold device_synchronize. cbn [s_mem s_log].
  rewrite run_step_loop. cbn [s_mem s_log].
  set (c1 := (TrainModel1, _, _)). set (c2 := (TrainModel2, _, _)).
  set (rest := flat_map _ _).
  rewrite !run_events_app. cbn [fst snd].
  set (e1 := (run_events [c1] (s_mem s)).1).
  set (m1 := (run_events [c1] (s_mem s)).2).
  set (e2 := (run_events [c2] m1).1).
  set (m2 := (run_events [c2] m1).2).
  set (e3 := (run_events rest m2).1).
  assert (He1 : length e1 = 1) by done.
  assert (He2 : length e2 = 1) by done.
  rewrite !tally_app.
  assert (Htake : take 2 (e1 ++ e2 ++ e3) = e1 ++ e2).
  { rewrite app_assoc. rewrite take_app_length'; [done|].
    rewrite length_app. lia. }
  assert (Hdrop : drop 2 (e1 ++ e2 ++ e3) = e3).
  { rewrite app_assoc. rewrite drop_app_length'; [done|].
    rewrite length_app. lia. }
  rewrite Htake, Hdrop. rewrite <- !app_assoc.
  reflexivity.
Qed.

(** X14. [run_step] makes [2 * max(1, replications)] calls to the
    executors' [run_step], the two replicas taking turns and the first
    replica first; call [j] is given chunk [j] of the batch and of the
    labels, that is [inputs[j * batch_size : (j + 1) * batch_size]]; each
    call runs on the memory the call before it left. The device is
    synchronized once, right after the second call. With
    [replications <= 1] (zero and negative values included) there are
    exactly the first two calls. *)
Theorem run_step_calls (self : master) (inputs : list sample)
    (labels : list label) (s : session) :
  let bs := batch_size self in
  let rounds := Z.max 1 (replications self) in
  let calls := turn bs inputs labels <$> Py.range (2 * rounds) in
  let s' := (run_step self inputs labels s).2 in
  exists a b rest,
    s_log s' = s_log s ++ [a; b; DeviceSynchronize] ++ rest /\
    a :: b :: rest = (run_events calls (s_mem s)).1 /\
    s_mem s' = (run_events calls (s_mem s)).2 /\
    omap run_call (a :: b :: rest) = calls /\
    length (a :: b :: rest) = Z.to_nat (2 * rounds) /\
    ((replications self <= 1)%Z -> rest = []).
Proof.
  intros bs rounds calls s'. subst s'.
  rewrite run_step_spec. fold bs rounds calls. cbn [snd s_log s_mem].
  destruct (run_events_calls calls (s_mem s)) as (Hc & Hl & _).
  assert (Hlen : length calls = Z.to_nat (2 * rounds)).
  { subst calls. by rewrite length_fmap, length_range. }
  rewrite Hlen in Hl.
  destruct (run_events calls (s_mem s)).1 as [|a [|b rest]] eqn:Hevs;
    cbn [length] in Hl; [subst rounds; lia..|].
  exists a, b, rest. cbn [take drop app].
  repeat split; try done.
  intros Hr. replace (2 * rounds)%Z with 2%Z in Hl by (subst rounds; lia).
  destruct rest; [done|]. cbn in Hl. lia.
Qed.

(** X15. The loss and the correct count that [run_step] returns are the
    sums, from 0 and from the left, of what the executor calls it logged
    returned. *)
Theorem run_step_totals (self : master) (inputs : list sample)
    (labels : list label) (s : session) :
  let r := run_step self inputs labels s in
  let results := omap run_result (logged s r.2) in
  s_log r.2 = s_log s ++ logged s r.2 /\
  r.1 = (foldl sadd szero (results.*1), foldl sadd szero (results.*2)) /\
  length results = Z.to_nat (2 * Z.max 1 (replications self)).
Proof.
  intros r results. subst results r. rewrite run_step_spec.
  cbn [fst snd s_log]. unfold logged. cbn [s_log].
  rewrite drop_app_length.
  set (calls := turn _ _ _ <$> _).
  set (evs := (run_events calls (s_mem s)).1).
  split; [done|].
  assert (Hres : omap run_result (take 2 evs ++ [DeviceSynchronize] ++ drop 2 evs)
                 = omap run_result evs).
  { rewrite !omap_app. cbn [omap list_omap run_result app].
    by rewrite <- omap_app, take_drop. }
  rewrite Hres. split; [done|].
  destruct (run_events_calls calls (s_mem s)) as (_ & Hl & Hrun).
  fold evs in Hl, Hrun.
  rewrite (run_results_length _ Hrun), Hl. subst calls. by rewrite length_fmap, length_range.
Qed.

Lemma chunk_length {A : Type} (bs : Z) (l : list A) (j : Z) :
  (0 <= bs)%Z -> (0 <= j)%Z -> ((j + 1) * bs <= Z.of_nat (length l))%Z ->
  length (chunk bs l j) = Z.to_nat bs.
Proof.
  intros Hbs Hj Hfit. unfold chunk. rewrite slice_nonneg by nia.
  rewrite length_drop, length_take. nia.
Qed.

(** X16. The chunks that [run_step] hands to the executors, put end to end
    in call order, are the first [2 * max(1, replications) * batch_size]
    samples of the batch (for [batch_size >= 0]): samples beyond are given
    to no call, and a shorter batch gives short or empty chunks to the
    last calls. When the batch has exactly that many samples the chunks
    are the batch cut into consecutive pieces of [batch_size] samples, so
    that every sample is given to exactly one call. *)
Theorem run_step_chunks (self : master) (inputs : list sample)
    (labels : list label) (s : session) :
  (0 <= batch_size self)%Z ->
  let bs := batch_size self in
  let rounds := Z.max 1 (replications self) in
  let given := omap run_call (logged s (run_step self inputs labels s).2) in
  concat ((fun c => c.1.2) <$> given)
    = take (Z.to_nat (2 * rounds * bs)) inputs /\
  concat ((fun c => c.2) <$> given)
    = take (Z.to_nat (2 * rounds * bs)) labels /\
  (length inputs = Z.to_nat (2 * rounds * bs) ->
   concat ((fun c => c.1.2) <$> given) = inputs /\
   Forall (fun c => length c.1.2 = Z.to_nat bs) given).
Proof.
  intros Hbs bs rounds given.
  assert (Hgiven : given = turn bs inputs labels <$> Py.range (2 * rounds)).
  { subst given. rewrite run_step_spec. unfold logged. cbn [snd s_log].
    rewrite drop_app_length. fold bs rounds.
    set (calls := turn _ _ _ <$> _).
    destruct (run_events_calls calls (s_mem s)) as (Hc & _).
    rewrite !omap_app. cbn [omap list_omap run_call app].
    by rewrite <- omap_app, take_drop. }
  rewrite Hgiven, <- !list_fmap_compose.
  assert (Hr : (2 * rounds)%Z = Z.of_nat (Z.to_nat (2 * rounds)))
    by (subst rounds; lia).
  split; [|split].
  - rewrite Hr. unfold compose, turn. cbn [fst snd]. unfold chunk.
    rewrite concat_slices by done. by rewrite <- Hr.
  - rewrite Hr. unfold compose, turn. cbn [fst snd]. unfold chunk.
    rewrite concat_slices by done. by rewrite <- Hr.
  - intros Hlen. split.
    + rewrite Hr. unfold compose, turn. cbn [fst snd]. unfold chunk.
      rewrite concat_slices by done. rewrite <- Hr.
      apply take_ge. lia.
    + apply Forall_fmap. apply Forall_forall. intros j Hj.
      unfold compose, turn. cbn [fst snd].
      unfold Py.range in Hj. apply list_elem_of_fmap in Hj as (i & -> & Hi).
      apply elem_of_seq in Hi.
      apply chunk_length; [done|lia|]. subst rounds bs. nia.
Qed.

End DriverFacts.

(** ** Copies of the parameters *)

Section CopyHeapFacts.
Context `{Scalar}.
Implicit Types (h : heap) (t : tensor) (vals : list scalar).

Lemma length_contents_le h t : length (contents h t) <= numel t.
Proof. unfold contents. rewrite length_take. lia. Qed.

Lemma valid_fresh_storage h t vals :
  t_storage t = length h -> t_offset t = 0 -> length vals = numel t ->
  valid (h ++ [vals]) t = true /\ contents (h ++ [vals]) t = vals.
Proof.
  intros Hs Ho Hl. unfold valid, contents.
  rewrite Hs, lookup_app_r, Nat.sub_diag, Ho by lia. cbn. split.
  - apply bool_decide_eq_true_2. lia.
  - rewrite drop_0. apply take_ge. lia.
Qed.

Lemma contents_extend h (extra : list (list scalar)) t :
  valid h t = true -> contents (h ++ extra) t = contents h t.
Proof. intros Hv. apply contents_app. by apply valid_lt. Qed.

Lemma clone_spec h t :
  valid h t = true ->
  let c := (clone h t).1 in
  let h' := (clone h t).2 in
  h' = h ++ [contents h t] /\
  t_storage c = length h /\ t_offset c = 0 /\ t_shape c = t_shape t /\
  valid h' c = true /\ contents h' c = contents h t.
Proof.
  intros Hv c h'. subst c h'. unfold clone. cbn [fst snd].
  repeat (split; [done|]).
  apply (valid_fresh_storage h _ (contents h t)); [done..|].
  by rewrite length_contents.
Qed.

Lemma view_flat_detach t :
  view_flat (detach t)
  = Ok {| t_storage := t_storage t; t_offset := t_offset t;
          t_shape := [numel t]; t_requires_grad := false |}.
Proof.
  unfold view_flat, view, detach, numel. cbn -[numel_of].
  rewrite decide_True; [done|]. apply numel_of_flat.
Qed.

Lemma cat_flat h a b (n k : nat) :
  t_shape a = [n] -> t_shape b = [k] ->
  valid h a = true -> valid h b = true ->
  exists r,
    cat h a b = Ok (r, h ++ [contents h a ++ contents h b]) /\
    t_storage r = length h /\ t_offset r = 0 /\ t_shape r = [n + k] /\
    t_requires_grad r = t_requires_grad a || t_requires_grad b /\
    valid (h ++ [contents h a ++ contents h b]) r = true /\
    contents (h ++ [contents h a ++ contents h b]) r
    = contents h a ++ contents h b.
Proof.
  intros Ha Hb Hva Hvb. unfold cat. rewrite Ha, Hb.
  rewrite decide_True by done. eexists. split; [done|]. cbn [t_storage
    t_offset t_shape t_requires_grad].
  repeat (split; [done|]).
  apply (valid_fresh_storage h _ (contents h a ++ contents h b)); [done..|].
  rewrite length_app, !length_contents by done.
  unfold numel. rewrite Ha, Hb. cbn. lia.
Qed.

(** A window of a tensor reads the tensor's elements from its start on. *)
Lemma contents_window h t (start : nat) (shape : list nat) :
  start + numel_of shape <= numel t ->
  contents h {| t_storage := t_storage t; t_offset := t_offset t + start;
                t_shape := shape; t_requires_grad := t_requires_grad t |}
  = take (numel_of shape) (drop start (contents h t)).
Proof.
  intros Hfit. unfold contents. cbn -[numel_of numel].
  change (numel {| t_storage := t_storage t; t_offset := t_offset t + start;
                   t_shape := shape; t_requires_grad := t_requires_grad t |})
    with (numel_of shape).
  apply list_eq. intros j.
  destruct (decide (j < numel_of shape)) as [Hj|Hj];
    [|by rewrite !lookup_take_ge by lia].
  rewrite !lookup_take_lt, !lookup_drop by done.
  rewrite lookup_take_lt, lookup_drop by lia. f_equal. lia.
Qed.

Lemma disjoint_sym (a b : tensor) : disjoint a b = disjoint b a.
Proof.
  unfold disjoint.
  rewrite (bool_decide_ext (t_storage a = t_storage b)
                           (t_storage b = t_storage a)) by done.
  destruct (negb _); cbn; [done|]. apply orb_comm.
Qed.

(** Overwriting a tensor leaves the tensors that share no element with
    it as they were. *)
Lemma contents_store_disjoint h t t' vals :
  disjoint t t' = true -> valid h t = true -> length vals = numel t ->
  contents (store h t vals) t' = contents h t'.
Proof.
  intros Hd Hv Hl. unfold disjoint in Hd.
  destruct (decide (t_storage t = t_storage t')) as [Hs|Hs];
    [|by apply contents_store_other].
  rewrite bool_decide_eq_true_2 in Hd by done. cbn in Hd.
  destruct (valid_storage _ _ Hv) as (s & Hst & Hle).
  unfold contents, store. rewrite <- Hs, list_lookup_alter_eq, Hst. cbn.
  apply list_eq. intros j.
  destruct (decide (j < numel t')) as [Hj|Hj];
    [|by rewrite !lookup_take_ge by lia].
  rewrite !lookup_take_lt, !lookup_drop by done.
  apply orb_prop in Hd as [Hd|Hd]; apply bool_decide_eq_true_1 in Hd.
  - apply list_lookup_inserts_ge. lia.
  - apply list_lookup_inserts_lt. lia.
Qed.

End CopyHeapFacts.

Section ParameterCopyFacts.
Context `{Scalar} `{!ReplicaExecutor} `{!Transport}.

Lemma data_tensors_cons (m : memory) (id : nat) (ids : list nat) (p : parameter) :
  m_params m !! id = Some p ->
  data_tensors m (id :: ids) = p_data p :: data_tensors m ids.
Proof. intros Hp. unfold data_tensors. cbn. by rewrite Hp. Qed.

Lemma flattened_extend (h : heap) (extra : list (list scalar))
    (ts : list tensor) :
  forallb (valid h) ts = true ->
  flattened (h ++ extra) ts = flattened h ts.
Proof.
  unfold flattened. induction ts as [|t ts IH]; [done|]. cbn.
  intros [Ht Hts]%andb_prop. by rewrite contents_extend, IH.
Qed.

Lemma forallb_valid_extend (h : heap) (extra : list (list scalar))
    (ts : list tensor) :
  forallb (valid h) ts = true -> forallb (valid (h ++ extra)) ts = true.
Proof.
  induction ts as [|t ts IH]; [done|]. cbn.
  intros [Ht Hts]%andb_prop. by rewrite valid_app, IH.
Qed.

Lemma length_flattened (m : memory) (ids : list nat) :
  Forall (fun id => id < length (m_params m)) ids ->
  forallb (valid (m_heap m)) (data_tensors m ids) = true ->
  length (flattened (m_heap m) (data_tensors m ids)) = model_numel m ids.
Proof.
  induction ids as [|id ids IH]; [done|].
  intros [Hid Hids]%Forall_cons.
  destruct (lookup_lt_is_Some_2 _ _ Hid) as [p Hp].
  rewrite (data_tensors_cons _ _ _ _ Hp). cbn [forallb].
  intros [Hv Hvs]%andb_prop. unfold flattened, model_numel in *. cbn.
  rewrite length_app, IH, length_contents by done.
  unfold numel_at at 2. by rewrite Hp.
Qed.

(** One round of the loop of [model_parameters]. *)
Lemma gather_step (base : nat) (id : nat) (p : parameter)
    (acc : option tensor) (elems : list scalar) (w : world) :
  let h := m_heap (w_mem w) in
  m_params (w_mem w) !! id = Some p ->
  valid h (p_data p) = true ->
  base <= length h ->
  match acc with
  | None => elems = []
  | Some fp => gathered base h fp elems
  end ->
  exists fp' extra,
    match acc with
    | None =>
        p <- get_param id ;;
        c <- tensor_clone (p_data p) ;;
        v <- lift (view_flat (detach c)) ;;
        ret (Some v)
    | Some flat_params =>
        p <- get_param id ;;
        c <- tensor_clone (p_data p) ;;
        v <- lift (view_flat (detach c)) ;;
        r <- torch_cat flat_params v ;;
        ret (Some r)
    end%st w
    = (Ok (Some fp'),
       {| w_mem := {| m_heap := h ++ extra; m_params := m_params (w_mem w) |};
          w_trace := w_trace w |}) /\
    gathered base (h ++ extra) fp' (elems ++ contents h (p_data p)).
Proof.
  intros h Hp Hv Hbase Hacc.
  destruct (clone_spec h (p_data p) Hv) as (Hh1 & Hcs & Hco & Hcsh & Hcv & Hcc).
  set (c := (clone h (p_data p)).1) in *.
  set (h1 := (clone h (p_data p)).2) in *.
  set (v := {| t_storage := t_storage c; t_offset := t_offset c;
               t_shape := [numel c]; t_requires_grad := false |}).
  assert (Hnc : numel c = numel (p_data p)) by (unfold numel; by rewrite Hcsh).
  assert (Hnv : numel v = numel c) by apply numel_of_flat.
  assert (Hvv : valid h1 v = true).
  { rewrite <- Hcv. unfold valid. by rewrite Hnv. }
  assert (Hvc : contents h1 v = contents h (p_data p)).
  { rewrite <- Hcc. unfold contents. by rewrite Hnv. }
  destruct acc as [fp|].
  all: unfold mbind at 1, get_param at 1; rewrite Hp.
  all: unfold mbind at 1, tensor_clone at 1;
    cbn [fst snd w_mem m_heap m_params w_trace].
  all: fold h c h1; unfold mbind at 1, lift at 1; rewrite view_flat_detach;
    fold v.
  - destruct Hacc as (Hfv & Hfs & Hfg & Hfo & Hfb & Hfc).
    assert (Hfv1 : valid h1 fp = true) by (rewrite Hh1; by apply valid_app).
    destruct (cat_flat h1 fp v (length elems) (numel c) Hfs eq_refl Hfv1 Hvv)
      as (r & Hcat & Hrs & Hro & Hrsh & Hrg & Hrv & Hrc).
    unfold torch_cat, mbind, get_heap, lift, put_heap, ret.
    cbn [w_mem m_heap m_params w_trace]. rewrite Hcat. cbn [fst snd].
    assert (Hfc1 : contents h1 fp = elems)
      by (rewrite Hh1, contents_extend; done).
    rewrite Hfc1, Hvc in *.
    exists r, [contents h (p_data p); elems ++ contents h (p_data p)].
    split.
    { do 3 f_equal. rewrite Hh1, <- app_assoc. done. }
    replace (h ++ [contents h (p_data p); elems ++ contents h (p_data p)])
      with (h1 ++ [elems ++ contents h (p_data p)])
      by (rewrite Hh1, <- app_assoc; done).
    unfold gathered. split; [done|]. split.
    { rewrite Hrsh, length_app, length_contents, Hnc by done. done. }
    split; [by rewrite Hrg, Hfg|]. split; [done|]. split; [|done].
    rewrite Hrs, Hh1, length_app. lia.
  - subst elems. unfold ret. exists v, [contents h (p_data p)].
    split; [by rewrite Hh1|]. rewrite <- Hh1. cbn [app].
    unfold gathered. split; [done|]. split.
    { cbn [v t_shape]. by rewrite length_contents, Hnc. }
    split; [done|]. split; [done|]. split; [cbn; lia|done].
Qed.

Lemma gather_loop (base : nat) (ids : list nat) :
  forall (acc : option tensor) (elems : list scalar) (w : world),
    let h := m_heap (w_mem w) in
    Forall (fun id => id < length (m_params (w_mem w))) ids ->
    forallb (valid h) (data_tensors (w_mem w) ids) = true ->
    base <= length h ->
    match acc with
    | None => elems = []
    | Some fp => gathered base h fp elems
    end ->
    exists acc' extra,
      for_in (Some <$> ids) (fun param flat_params =>
        match param with
        | Some id =>
            match flat_params with
            | None =>
                p <- get_param id ;;
                c <- tensor_clone (p_data p) ;;
                v <- lift (view_flat (detach c)) ;;
                ret (Some v)
            | Some flat_params =>
                p <- get_param id ;;
                c <- tensor_clone (p_data p) ;;
                v <- lift (view_flat (detach c)) ;;
                r <- torch_cat flat_params v ;;
                ret (Some r)
            end
        | None => ret flat_params
        end)%st acc w
      = (Ok acc',
         {| w_mem := {| m_heap := h ++ extra;
                        m_params := m_params (w_mem w) |};
            w_trace := w_trace w |}) /\
      match acc' with
      | None => acc = None /\ ids = [] /\ extra = []
      | Some fp =>
          gathered base (h ++ extra) fp
            (elems ++ flattened h (data_tensors (w_mem w) ids)) /\
          (ids = [] -> acc = Some fp /\ extra = [])
      end.
Proof.
  induction ids as [|id ids IH]; intros acc elems w h Hvalid Hts Hbase Hacc.
  - exists acc, []. cbn [fmap list_fmap for_in]. unfold ret.
    change (flattened h (data_tensors (w_mem w) [])) with (@nil scalar).
    rewrite !app_nil_r. split; [by destruct w as [[] ?]|].
    by destruct acc.
  - apply Forall_cons in Hvalid as [Hid Hvalid].
    destruct (lookup_lt_is_Some_2 _ _ Hid) as [p Hp].
    rewrite (data_tensors_cons _ _ _ _ Hp) in Hts |- *.
    cbn [forallb] in Hts. apply andb_prop in Hts as [Hv Hts].
    destruct (gather_step base id p acc elems w Hp Hv Hbase Hacc)
      as (fp1 & extra1 & Hstep & Hg1).
    cbn [fmap list_fmap for_in]. unfold mbind at 1.
    fold h in Hstep. rewrite Hstep.
    set (w1 := {| w_mem := {| m_heap := h ++ extra1;
                              m_params := m_params (w_mem w) |};
                  w_trace := w_trace w |}).
    destruct (IH (Some fp1) (elems ++ contents h (p_data p)) w1)
      as (acc' & extra2 & Hrun & Hres).
    { done. }
    { cbn. by apply forallb_valid_extend. }
    { cbn. rewrite length_app. lia. }
    { done. }
    cbn [fmap list_fmap] in Hrun. rewrite Hrun. cbn [w_mem m_heap m_params w_trace].
    exists acc', (extra1 ++ extra2). split; [by rewrite app_assoc|].
    destruct acc' as [fp'|]; [|by destruct Hres as (? & _)].
    destruct Hres as [Hres _]. split; [|done].
    unfold flattened in *. cbn [fmap list_fmap concat].
    change (data_tensors (w_mem w1) ids) with (data_tensors (w_mem w) ids) in Hres.
    pose proof (flattened_extend h extra1 _ Hts) as Hext.
    unfold flattened in Hext. cbn [w_mem m_heap w1] in Hres.
    rewrite Hext in Hres.
    rewrite (app_assoc h), (app_assoc elems). exact Hres.
Qed.

(** X17. [model_parameters] returns [None] for a replica without
    parameters and changes nothing; for any other replica it returns a
    one-dimensional tensor that requires no gradient and holds the
    elements of the parameters, end to end and in the order of
    [parameters()]: as many as [get_model_parameter_size] counts. The
    tensor is in a storage of its own, allocated by the call: the
    storages that existed before, the parameter objects and the trace are
    as they were. *)
Theorem model_parameters_flat (mg : model_gen) (w : world) :
  let m := w_mem w in
  let h := m_heap m in
  let ts := data_tensors m (models mg) in
  Forall (fun id => id < length (m_params m)) (models mg) ->
  forallb (valid h) ts = true ->
  exists r w',
    model_parameters mg w = (Ok r, w') /\
    w_trace w' = w_trace w /\
    m_params (w_mem w') = m_params m /\
    take (length h) (m_heap (w_mem w')) = h /\
    match r with
    | None => models mg = [] /\ w' = w
    | Some flat =>
        models mg <> [] /\
        length h <= t_storage flat /\
        t_shape flat = [model_numel m (models mg)] /\
        t_requires_grad flat = false /\
        valid (m_heap (w_mem w')) flat = true /\
        contents (m_heap (w_mem w')) flat = flattened h ts
    end.
Proof.
  intros m h ts Hvalid Hts.
  destruct (gather_loop (length h) (models mg) None [] w Hvalid Hts
              (Nat.le_refl _) eq_refl) as (acc' & extra & Hrun & Hres).
  unfold model_parameters, parameters. fold m h in Hrun. rewrite Hrun.
  eexists _, _. split; [reflexivity|]. cbn [w_mem w_trace m_heap m_params].
  split; [done|]. split; [done|]. split; [by rewrite take_app_length|].
  destruct acc' as [flat|].
  - destruct Hres as ((Hv & Hsh & Hrg & Ho & Hb & Hc) & Hempty).
    cbn [app] in *. fold m ts in Hc, Hsh.
    split.
    { intros Hnil. by destruct (Hempty Hnil). }
    split; [done|]. split.
    { rewrite Hsh. f_equal. by apply length_flattened. }
    done.
  - destruct Hres as (_ & Hnil & ->). split; [done|].
    rewrite app_nil_r. by destruct w as [[] ?].
Qed.

End ParameterCopyFacts.

(** ** Writing a flat tensor back into the parameters *)

Lemma concat_chunk {A : Type} (pre l post : list A) :
  take (length l) (drop (length pre) (pre ++ l ++ post)) = l.
Proof. by rewrite drop_app_length, take_app_length. Qed.

Lemma concat_take_drop {A : Type} (l : list A) (sizes : list nat) :
  forall start,
    start + sum_list sizes <= length l ->
    concat (imap (fun i n => take n (drop (start + sum_list (take i sizes)) l))
                 sizes)
    = take (sum_list sizes) (drop start l).
Proof.
  induction sizes as [|n sizes IH]; intros start Hfit.
  - cbn. by rewrite take_0.
  - cbn [imap concat].
    change (sum_list (n :: sizes)) with (n + sum_list sizes) in Hfit |- *.
    rewrite (imap_ext _ (fun i k => take k (drop (start + n
                                      + sum_list (take i sizes)) l))).
    2:{ intros i k _. cbn. do 2 f_equal. apply Nat.add_assoc. }
    rewrite IH by lia. cbn [take sum_list_with]. rewrite Nat.add_0_r.
    rewrite <- (take_drop n (drop start l)) at 2.
    rewrite take_app_add'.
    2:{ rewrite length_take, length_drop. lia. }
    by rewrite drop_drop.
Qed.

Section ScatterFacts.
Context `{Scalar}.
Implicit Types (h : heap) (t : tensor) (vals : list scalar).

Lemma forallb_valid_store h t vals (ts : list tensor) :
  forallb (valid h) ts = true -> forallb (valid (store h t vals)) ts = true.
Proof.
  induction ts as [|t0 ts IH]; [done|]. cbn.
  intros [Ht Hts]%andb_prop. by rewrite valid_store, IH.
Qed.

Lemma window_length h flat (start : nat) (shape : list nat) :
  valid h flat = true -> start + numel_of shape <= numel flat ->
  length (contents h
            {| t_storage := t_storage flat; t_offset := t_offset flat + start;
               t_shape := shape; t_requires_grad := t_requires_grad flat |})
  = numel_of shape.
Proof.
  intros Hv Hfit. rewrite contents_window by done.
  rewrite length_take, length_drop, length_contents by done. lia.
Qed.

(** What [scatter] leaves in the heap. *)
Lemma scatter_spec flat (ts : list tensor) :
  forall h (start : nat),
    valid h flat = true ->
    forallb (valid h) ts = true ->
    separate ts = true ->
    forallb (fun t => disjoint t flat) ts = true ->
    start + sum_list (numel <$> ts) <= numel flat ->
    let h' := scatter h flat start ts in
    (forall t, valid h t = true -> valid h' t = true) /\
    (forall t, forallb (fun p => disjoint p t) ts = true ->
               contents h' t = contents h t) /\
    (forall i t, ts !! i = Some t ->
                 contents h' t
                 = take (numel t)
                     (drop (start + sum_list (take i (numel <$> ts)))
                           (contents h flat))).
Proof.
  induction ts as [|t0 ts IH]; intros h start Hvf Hvs Hsep Hdis Hfit h'.
  - subst h'. cbn. repeat split; done.
  - cbn [forallb] in Hvs, Hdis. cbn [separate] in Hsep.
    apply andb_prop in Hvs as [Hv0 Hvs]. apply andb_prop in Hdis as [Hd0 Hdis].
    apply andb_prop in Hsep as [Hsep0 Hsep].
    change (sum_list (numel <$> t0 :: ts))
      with (numel t0 + sum_list (numel <$> ts)) in Hfit.
    set (v0 := {| t_storage := t_storage flat; t_offset := t_offset flat + start;
                  t_shape := t_shape t0;
                  t_requires_grad := t_requires_grad flat |}).
    set (h1 := store h t0 (contents h v0)).
    assert (Hlen : length (contents h v0) = numel t0)
      by (apply window_length; [done|unfold numel in *; lia]).
    assert (Hc0 : contents h v0
                  = take (numel t0) (drop start (contents h flat)))
      by (apply contents_window; unfold numel in *; lia).
    destruct (IH h1 (start + numel t0)) as (IHv & IHo & IHi).
    { by apply valid_store. }
    { by apply forallb_valid_store. }
    { done. }
    { done. }
    { lia. }
    subst h'. cbn [scatter]. fold v0 h1.
    split; [|split].
    + intros t Ht. apply IHv. by apply valid_store.
    + intros t Ht. cbn [forallb] in Ht. apply andb_prop in Ht as [Ht0 Ht].
      rewrite IHo by done. by apply contents_store_disjoint.
    + intros [|i] t Hi; cbn in Hi.
      * injection Hi as <-. rewrite IHo.
        -- unfold h1. rewrite contents_store by done. rewrite Hc0.
           change (sum_list (take 0 (numel <$> t0 :: ts))) with 0.
           by rewrite Nat.add_0_r.
        -- clear -Hsep0. induction ts as [|t1 ts IHts]; [done|].
           cbn in *. apply andb_prop in Hsep0 as [H1 H2].
           by rewrite disjoint_sym, H1, IHts.
      * rewrite (IHi i t Hi). unfold h1.
        rewrite contents_store_disjoint by done.
        change (sum_list (take (S i) (numel <$> t0 :: ts)))
          with (numel t0 + sum_list (take i (numel <$> ts))).
        by rewrite Nat.add_assoc.
Qed.

(** Writing back what is there changes nothing. *)
Lemma scatter_same flat (ts : list tensor) :
  forall h (pre post : list scalar),
    forallb (valid h) ts = true ->
    contents h flat = pre ++ flattened h ts ++ post ->
    valid h flat = true ->
    scatter h flat (length pre) ts = h.
Proof.
  induction ts as [|t0 ts IH]; intros h pre post Hvs Hc Hvf; [done|].
  cbn [forallb] in Hvs. apply andb_prop in Hvs as [Hv0 Hvs].
  unfold flattened in Hc. cbn in Hc. rewrite <- app_assoc in Hc.
  cbn [scatter].
  assert (Hfit : length pre + numel_of (t_shape t0) <= numel flat).
  { rewrite <- (length_contents h flat Hvf), Hc, !length_app.
    rewrite (length_contents h t0 Hv0). unfold numel. lia. }
  rewrite contents_window by done. rewrite Hc.
  change (numel_of (t_shape t0)) with (numel t0).
  rewrite <- (length_contents h t0 Hv0), concat_chunk.
  rewrite store_contents by done.
  rewrite (length_contents h t0 Hv0).
  replace (length pre + numel t0) with (length (pre ++ contents h t0))
    by (rewrite length_app, length_contents; done).
  apply (IH h _ post); [done| |done].
  by rewrite <- app_assoc.
Qed.

End ScatterFacts.

Section WriteBackFacts.
Context `{Scalar} `{!ReplicaExecutor} `{!Transport}.

Lemma numel_data_tensors (m : memory) (ids : list nat) :
  Forall (fun id => id < length (m_params m)) ids ->
  numel <$> data_tensors m ids = numel_at m <$> ids.
Proof.
  induction ids as [|id ids IH]; [done|].
  intros [Hid Hids]%Forall_cons.
  destruct (lookup_lt_is_Some_2 _ _ Hid) as [p Hp].
  rewrite (data_tensors_cons _ _ _ _ Hp). cbn. rewrite IH by done.
  f_equal. unfold numel_at. by rewrite Hp.
Qed.

Lemma data_tensors_lookup (m : memory) (ids : list nat) (i id : nat)
    (p : parameter) :
  Forall (fun id => id < length (m_params m)) ids ->
  ids !! i = Some id -> m_params m !! id = Some p ->
  data_tensors m ids !! i = Some (p_data p).
Proof.
  revert i. induction ids as [|id0 ids IH]; intros i Hvalid Hi Hp; [done|].
  apply Forall_cons in Hvalid as [Hid0 Hvalid].
  destruct (lookup_lt_is_Some_2 _ _ Hid0) as [p0 Hp0].
  rewrite (data_tensors_cons _ _ _ _ Hp0).
  destruct i as [|i]; cbn in *.
  - injection Hi as ->. rewrite Hp in Hp0. by injection Hp0 as ->.
  - by apply IH.
Qed.

(** The loop of [update_model_paramters] on a buffer that is long
    enough. *)
Lemma copy_loop (flat : tensor) (n : nat) (ids : list nat) :
  t_shape flat = [n] ->
  forall (start : nat) (w : world),
    Forall (fun id => id < length (m_params (w_mem w))) ids ->
    start + model_numel (w_mem w) ids <= n ->
    for_in (Some <$> ids) (fun param index_size =>
      match param with
      | Some id =>
          p <- get_param id ;;
          let last_index := index_size + numel (p_data p) in
          v <- lift (s <- subscript (Some flat) index_size last_index ;;
                     view s (p_shape p))%py ;;
          tensor_copy_ (p_data p) v ;;
          ret last_index
      | None => ret index_size
      end)%st start w
    = (Ok (start + model_numel (w_mem w) ids),
       {| w_mem :=
            {| m_heap := scatter (m_heap (w_mem w)) flat start
                           (data_tensors (w_mem w) ids);
               m_params := m_params (w_mem w) |};
          w_trace := w_trace w |}).
Proof.
  intros Hflat. induction ids as [|id ids IH]; intros start w Hvalid Hfit.
  - unfold model_numel. cbn. unfold ret. rewrite Nat.add_0_r.
    by destruct w as [[] ?].
  - apply Forall_cons in Hvalid as [Hid Hvalid].
    destruct (lookup_lt_is_Some_2 _ _ Hid) as [p Hp].
    rewrite (data_tensors_cons _ _ _ _ Hp).
    change (model_numel (w_mem w) (id :: ids))
      with (numel_at (w_mem w) id + model_numel (w_mem w) ids) in *.
    assert (Hnum : numel_at (w_mem w) id = numel (p_data p))
      by (unfold numel_at; by rewrite Hp).
    rewrite Hnum in *.
    cbn [fmap list_fmap for_in]. unfold mbind at 1.
    unfold mbind at 1, get_param at 1. rewrite Hp.
    unfold mbind at 1, lift at 1. unfold subscript.
    change (numel (p_data p)) with (numel_of (p_shape p)) at 1.
    rewrite (slice_view flat n start (p_shape p) Hflat)
      by (unfold numel, p_shape in *; lia).
    unfold mbind at 1. unfold tensor_copy_ at 1.
    unfold mbind at 1 2, get_heap at 1, lift at 1, copy_ at 1.
    rewrite decide_True by done. unfold put_heap at 1, ret at 1.
    cbn [w_mem m_heap m_params w_trace].
    set (w1 := {| w_mem := _; w_trace := _ |}).
    specialize (IH (start + numel (p_data p)) w1 Hvalid).
    change (model_numel (w_mem w1) ids) with (model_numel (w_mem w) ids) in IH.
    specialize (IH ltac:(lia)).
    etransitivity; [exact IH|].
    cbn [scatter]. by rewrite Nat.add_assoc.
Qed.

Lemma update_model_paramters_run (mg : model_gen) (flat : tensor) (n : nat)
    (w : world) :
  t_shape flat = [n] ->
  Forall (fun id => id < length (m_params (w_mem w))) (models mg) ->
  model_numel (w_mem w) (models mg) <= n ->
  update_model_paramters mg (Some flat) w
  = (Ok tt,
     {| w_mem :=
          {| m_heap := scatter (m_heap (w_mem w)) flat 0
                         (data_tensors (w_mem w) (models mg));
             m_params := m_params (w_mem w) |};
        w_trace := w_trace w |}).
Proof.
  intros Hflat Hvalid Hfit.
  pose proof (copy_loop flat n _ Hflat 0 w Hvalid Hfit) as Hl.
  unfold update_model_paramters, parameters, mbind at 1.
  cbv zeta in Hl |- *. by rewrite Hl.
Qed.

(** X18. [update_model_paramters] given a one-dimensional tensor at least
    as long as the replica, when the parameters' data tensors share no
    element with each other or with that tensor: afterwards parameter [i]
    holds the elements of the tensor from the parameter's slice start on,
    the tensor itself and every tensor that shares no element with the
    parameters hold what they held, and the parameter objects (which
    storage each points to) and the trace are as they were. *)
Theorem update_model_paramters_copies (mg : model_gen) (flat : tensor)
    (n : nat) (w : world) :
  let m := w_mem w in
  let h := m_heap m in
  let ts := data_tensors m (models mg) in
  t_shape flat = [n] ->
  valid h flat = true ->
  Forall (fun id => id < length (m_params m)) (models mg) ->
  model_numel m (models mg) <= n ->
  forallb (valid h) ts = true ->
  separate ts = true ->
  forallb (fun t => disjoint t flat) ts = true ->
  exists w',
    update_model_paramters mg (Some flat) w = (Ok tt, w') /\
    let h' := m_heap (w_mem w') in
    m_params (w_mem w') = m_params m /\
    w_trace w' = w_trace w /\
    (forall i id p,
        models mg !! i = Some id -> m_params m !! id = Some p ->
        contents h' (p_data p)
        = take (numel (p_data p))
            (drop (slice_start m (models mg) i) (contents h flat))) /\
    contents h' flat = contents h flat /\
    (forall t, forallb (fun p => disjoint p t) ts = true ->
               contents h' t = contents h t).
Proof.
  intros m h ts Hflat Hvf Hvalid Hfit Hvs Hsep Hdis.
  assert (Hn : numel flat = n)
    by (unfold numel; rewrite Hflat; apply numel_of_flat).
  eexists. split; [by apply (update_model_paramters_run mg flat n)|].
  cbn [w_mem m_heap m_params w_trace]. fold m h ts.
  destruct (scatter_spec flat ts h 0 Hvf Hvs Hsep Hdis) as (Hv' & Ho & Hi).
  { subst ts. rewrite numel_data_tensors by done.
    fold (model_numel m (models mg)). lia. }
  split; [done|]. split; [done|]. split; [|split].
  - intros i id p Hid Hp.
    rewrite (Hi i (p_data p)) by (by eapply data_tensors_lookup).
    subst ts. by rewrite numel_data_tensors.
  - apply Ho. clear -Hdis. induction ts as [|t ts IH]; [done|].
    cbn in *. apply andb_prop in Hdis as [H1 H2]. by rewrite H1, IH.
  - exact Ho.
Qed.

(** X19. Writing back what was read changes nothing: after
    [flat = model_parameters(model_gen)], the call
    [update_model_paramters(model_gen, flat)] returns and leaves the
    heap, the parameter objects and the trace exactly as
    [model_parameters] left them; so every parameter holds what it held
    before the two calls. This holds for a replica without parameters
    too, where [flat] is [None]. *)
Theorem update_after_model_parameters (mg : model_gen) (w : world) :
  let m := w_mem w in
  let h := m_heap m in
  Forall (fun id => id < length (m_params m)) (models mg) ->
  forallb (valid h) (data_tensors m (models mg)) = true ->
  exists flat w1,
    model_parameters mg w = (Ok flat, w1) /\
    update_model_paramters mg flat w1 = (Ok tt, w1) /\
    forall t, valid h t = true ->
              contents (m_heap (w_mem w1)) t = contents h t.
Proof.
  intros m h Hvalid Hvs.
  destruct (gather_loop (length h) (models mg) None [] w Hvalid Hvs
              (Nat.le_refl _) eq_refl) as (acc' & extra & Hrun & Hres).
  fold m h in Hrun, Hres.
  exists acc'. eexists. split; [exact Hrun|].
  set (w1 := {| w_mem := _; w_trace := _ |}).
  split; [|intros t Ht; by apply contents_extend].
  destruct acc' as [flat|].
  - destruct Hres as ((Hv & Hsh & Hrg & Ho & Hb & Hc) & _).
    cbn [app] in Hsh, Hc.
    rewrite (update_model_paramters_run mg flat _ w1 Hsh); [| done |].
    2:{ change (model_numel (w_mem w1) (models mg))
          with (model_numel m (models mg)).
        pose proof (length_flattened m (models mg) Hvalid Hvs) as Hlen.
        fold h in Hlen. by rewrite Hlen. }
    cbn [w_mem m_heap m_params w_trace w1].
    change (data_tensors _ (models mg)) with (data_tensors m (models mg)).
    rewrite (scatter_same flat _ (h ++ extra) [] []); [done| |  |done].
    + by apply forallb_valid_extend.
    + rewrite Hc, app_nil_r. cbn [app]. symmetry.
      by apply flattened_extend.
  - destruct Hres as (_ & Hnil & _).
    unfold update_model_paramters, parameters. by rewrite Hnil.
Qed.

End WriteBackFacts.

Lemma concat_windows {A : Type} (l : list A) (chunks : list (list A)) :
  forall start,
    (forall i c, chunks !! i = Some c ->
                 c = take (length c)
                       (drop (start + sum_list (take i (length <$> chunks))) l)) ->
    start + sum_list (length <$> chunks) <= length l ->
    concat chunks = take (sum_list (length <$> chunks)) (drop start l).
Proof.
  induction chunks as [|c chunks IH]; intros start Hc Hfit.
  - cbn. by rewrite take_0.
  - change (sum_list (length <$> c :: chunks))
      with (length c + sum_list (length <$> chunks)) in Hfit |- *.
    cbn [concat]. rewrite (IH (start + length c)).
    + pose proof (Hc 0 c eq_refl) as H0.
      change (sum_list (take 0 (length <$> c :: chunks))) with 0 in H0.
      rewrite Nat.add_0_r in H0.
      rewrite <- take_take_drop, drop_drop. by f_equal.
    + intros i c' Hi. rewrite (Hc (S i) c' Hi) at 1.
      change (sum_list (take (S i) (length <$> c :: chunks)))
        with (length c + sum_list (take i (length <$> chunks))).
      by rewrite Nat.add_assoc.
    + lia.
Qed.

Section CopyRoundTrips.
Context `{Scalar} `{!ReplicaExecutor} `{!Transport}.

Lemma forallb_valid_impl (h h' : heap) (ts : list tensor) :
  (forall t, valid h t = true -> valid h' t = true) ->
  forallb (valid h) ts = true -> forallb (valid h') ts = true.
Proof.
  intros Himp. induction ts as [|t ts IH]; [done|]. cbn.
  intros [Hv Hvs]%andb_prop. by rewrite Himp, IH.
Qed.

Lemma flattened_windows (h : heap) (flat : tensor) (ts : list tensor) :
  (forall i t, ts !! i = Some t ->
               contents h t
               = take (numel t)
                   (drop (sum_list (take i (numel <$> ts))) (contents h flat))) ->
  forallb (valid h) ts = true ->
  valid h flat = true ->
  sum_list (numel <$> ts) <= numel flat ->
  flattened h ts = take (sum_list (numel <$> ts)) (contents h flat).
Proof.
  intros Hwin Hvs Hvf Hfit.
  assert (Hlens : length <$> (contents h <$> ts) = numel <$> ts).
  { clear -Hvs. induction ts as [|t ts IH]; [done|]. cbn in Hvs.
    apply andb_prop in Hvs as [Hv Hvs]. cbn.
    by rewrite length_contents, IH. }
  unfold flattened.
  rewrite (concat_windows (contents h flat) (contents h <$> ts) 0).
  - by rewrite Hlens, drop_0.
  - intros i c Hi. rewrite list_lookup_fmap in Hi.
    destruct (ts !! i) as [t|] eqn:Ht; [|done]. injection Hi as <-.
    rewrite Hlens. cbn [Nat.add]. rewrite (Hwin i t Ht) at 1.
    f_equal. symmetry. apply length_contents.
    clear -Hvs Ht. revert i Ht. induction ts as [|t0 ts IH]; [done|].
    cbn in Hvs. apply andb_prop in Hvs as [Hv Hvs].
    intros [|i] Hi; cbn in Hi; [by injection Hi as <-|by eapply IH].
  - rewrite Hlens, length_contents by done. lia.
Qed.

(** X20. Reading back what was written, for a replica that has parameters:
    after [update_model_paramters(model_gen, flat)], under the conditions
    of the copy, [model_parameters(model_gen)] returns a tensor that holds
    the elements of [flat], as many as the replica has. *)
Theorem model_parameters_after_update (mg : model_gen) (flat : tensor)
    (n : nat) (w : world) :
  let m := w_mem w in
  let h := m_heap m in
  let ts := data_tensors m (models mg) in
  models mg <> [] ->
  t_shape flat = [n] ->
  valid h flat = true ->
  Forall (fun id => id < length (m_params m)) (models mg) ->
  model_numel m (models mg) <= n ->
  forallb (valid h) ts = true ->
  separate ts = true ->
  forallb (fun t => disjoint t flat) ts = true ->
  exists w1 back w2,
    update_model_paramters mg (Some flat) w = (Ok tt, w1) /\
    model_parameters mg w1 = (Ok (Some back), w2) /\
    t_shape back = [model_numel m (models mg)] /\
    contents (m_heap (w_mem w2)) back
    = take (model_numel m (models mg)) (contents h flat).
Proof.
  intros m h ts Hne Hflat Hvf Hvalid Hfit Hvs Hsep Hdis.
  assert (Hn : numel flat = n)
    by (unfold numel; rewrite Hflat; apply numel_of_flat).
  assert (Hsizes : sum_list (numel <$> ts) = model_numel m (models mg))
    by (subst ts; by rewrite numel_data_tensors).
  destruct (scatter_spec flat ts h 0 Hvf Hvs Hsep Hdis) as (Hv' & Ho & Hi);
    [lia|].
  set (h1 := scatter h flat 0 ts) in *.
  set (w1 := {| w_mem := {| m_heap := h1; m_params := m_params m |};
                w_trace := w_trace w |}).
  assert (Hvs1 : forallb (valid h1) ts = true)
    by (by apply (forallb_valid_impl h)).
  destruct (gather_loop (length h1) (models mg) None [] w1 Hvalid Hvs1
              (Nat.le_refl _) eq_refl) as (acc' & extra & Hrun & Hres).
  destruct acc' as [back|]; [|by destruct Hres as (_ & ? & _)].
  destruct Hres as ((Hbv & Hbsh & _ & _ & _ & Hbc) & _).
  cbn [app w_mem m_heap m_params w1] in Hbsh, Hbc.
  change (data_tensors _ (models mg)) with ts in Hbsh, Hbc.
  assert (Hfl : flattened h1 ts
                = take (model_numel m (models mg)) (contents h flat)).
  { rewrite <- Hsizes.
    assert (Hcf : contents h1 flat = contents h flat).
    { apply Ho. exact Hdis. }
    rewrite <- Hcf. apply flattened_windows; [|done|by apply Hv'|lia].
    intros i t Ht. rewrite (Hi i t Ht), Hcf. done. }
  exists w1, back. eexists.
  split; [by apply (update_model_paramters_run mg flat n)|].
  split; [exact Hrun|]. cbn [w_mem m_heap w1].
  split; [|by rewrite Hbc].
  rewrite Hbsh, Hfl, length_take, length_contents by done. f_equal. lia.
Qed.

(** X21. What [update_model_paramters] does with a tensor it cannot use:
    given [None] and a replica that has a parameter it raises [TypeError]
    and changes nothing; given a one-dimensional tensor shorter than the
    replica it raises [RuntimeError] at the first parameter [k] whose
    slice would end beyond the tensor, after it has overwritten the
    parameters before [k]. *)
Theorem update_model_paramters_unusable (mg : model_gen) (w : world) :
  let m := w_mem w in
  let h := m_heap m in
  Forall (fun id => id < length (m_params m)) (models mg) ->
  (models mg <> [] ->
   update_model_paramters mg None w = (Raise TypeError, w)) /\
  (forall (flat : tensor) (n : nat),
      t_shape flat = [n] ->
      n < model_numel m (models mg) ->
      exists k,
        k < length (models mg) /\
        slice_start m (models mg) k <= n < slice_start m (models mg) (S k) /\
        update_model_paramters mg (Some flat) w
        = (Raise RuntimeError,
           {| w_mem :=
                {| m_heap := scatter h flat 0
                               (data_tensors m (take k (models mg)));
                   m_params := m_params m |};
              w_trace := w_trace w |})).
Proof.
  intros m h Hvalid. subst m h. split.
  - intros Hne. unfold update_model_paramters, parameters.
    destruct (models mg) as [|id ids]; [done|].
    apply Forall_cons in Hvalid as [Hid _].
    destruct (lookup_lt_is_Some_2 _ _ Hid) as [p Hp].
    cbn [fmap list_fmap for_in]. unfold mbind at 1 2 3, get_param at 1.
    by rewrite Hp.
  - intros flat n Hflat Hn.
    destruct (prefix_sum_crossing (numel_at (w_mem w) <$> models mg) n Hn)
      as (k & Hk & Hlo & Hhi).
    rewrite length_fmap in Hk. exists k. split; [done|].
    fold (slice_start (w_mem w) (models mg) k) in Hlo.
    fold (slice_start (w_mem w) (models mg) (S k)) in Hhi.
    split; [done|].
    destruct (lookup_lt_is_Some_2 _ _ Hk) as [idk Hidk].
    assert (Hsplit : models mg
                     = take k (models mg) ++ idk :: drop (S k) (models mg)).
    { rewrite <- (drop_S _ _ _ Hidk). by rewrite take_drop. }
    assert (Hvalid1 : Forall (fun id => id < length (m_params (w_mem w)))
                             (take k (models mg))) by (by apply Forall_take).
    assert (Hidk_lt : idk < length (m_params (w_mem w))).
    { eapply Forall_forall in Hvalid; [done|].
      by eapply list_elem_of_lookup_2. }
    destruct (lookup_lt_is_Some_2 _ _ Hidk_lt) as [p Hp].
    assert (Hstep : slice_start (w_mem w) (models mg) (S k)
                    = slice_start (w_mem w) (models mg) k + numel (p_data p)).
    { unfold slice_start. rewrite (sum_list_take_S _ k (numel_at (w_mem w) idk)).
      - unfold numel_at. by rewrite Hp.
      - by rewrite list_lookup_fmap, Hidk. }
    pose proof (copy_loop flat n (take k (models mg)) Hflat 0 w Hvalid1) as Hl.
    rewrite <- slice_start_take in Hl. specialize (Hl ltac:(lia)).
    cbn [Nat.add] in Hl.
    unfold update_model_paramters, parameters.
    rewrite Hsplit at 1. rewrite fmap_app. unfold mbind at 1.
    rewrite for_in_app. unfold mbind at 1.
    cbv zeta in Hl |- *. rewrite Hl.
    cbn [fmap list_fmap for_in]. unfold mbind at 1 2 3, get_param at 1.
    cbn [w_mem m_params]. rewrite Hp. unfold lift at 1.
    unfold subscript.
    change (numel (p_data p)) with (numel_of (p_shape p)).
    rewrite (slice_view_short flat n _ (p_shape p) Hflat) by
      (unfold numel, p_shape in *; lia).
    done.
Qed.

End CopyRoundTrips.

(** ** The flat buffer and the copies *)

Section FlatBufferCopies.
Context `{Scalar} `{!ReplicaExecutor} `{!Transport}.

Lemma valid_window (h : heap) (flat : tensor) (start : nat)
    (shape : list nat) :
  valid h flat = true -> start + numel_of shape <= numel flat ->
  valid h (view_at flat start shape) = true.
Proof.
  intros (s & Hs & Hle)%valid_storage Hfit. unfold valid, view_at.
  cbn -[numel]. rewrite Hs. apply bool_decide_eq_true_2.
  change (numel {| t_storage := t_storage flat;
                   t_offset := t_offset flat + start; t_shape := shape;
                   t_requires_grad := t_requires_grad flat |})
    with (numel_of shape). lia.
Qed.

(** The data tensors of a replica laid out in a flat buffer. *)
Lemma laid_out_facts (m0 m : memory) (ids : list nat) (fp fg : tensor)
    (h : heap) :
  laid_out m0 m ids fp fg ->
  Forall (fun id => id < length (m_params m0)) ids ->
  t_shape fp = [model_numel m0 ids] ->
  valid h fp = true ->
  Forall (fun id => id < length (m_params m)) ids /\
  model_numel m ids = model_numel m0 ids /\
  forallb (valid h) (data_tensors m ids) = true /\
  flattened h (data_tensors m ids) = contents h fp.
Proof.
  intros Hl Hvalid0 Hshape Hvf.
  assert (Hn : numel fp = model_numel m0 ids)
    by (unfold numel; rewrite Hshape; apply numel_of_flat).
  assert (Hat : forall i id, ids !! i = Some id ->
            exists p, m_params m0 !! id = Some p /\
                      m_params m !! id
                      = Some (aliased fp fg (slice_start m0 ids i) p)).
  { intros i id Hi.
    assert (Hid : id < length (m_params m0)).
    { eapply Forall_forall in Hvalid0; [done|].
      by eapply list_elem_of_lookup_2. }
    destruct (lookup_lt_is_Some_2 _ _ Hid) as [p Hp].
    exists p. split; [done|]. by apply Hl. }
  assert (Hvalid : Forall (fun id => id < length (m_params m)) ids).
  { apply Forall_forall. intros id Hin.
    apply list_elem_of_lookup_1 in Hin as (i & Hi).
    destruct (Hat i id Hi) as (p & _ & Hq). by eapply lookup_lt_Some. }
  assert (Hnum : numel_at m <$> ids = numel_at m0 <$> ids).
  { apply list_eq. intros i. rewrite !list_lookup_fmap.
    destruct (ids !! i) as [id|] eqn:Hi; [|done]. cbn. f_equal.
    destruct (Hat i id Hi) as (p & Hp & Hq).
    unfold numel_at. by rewrite Hp, Hq. }
  assert (Hmn : model_numel m ids = model_numel m0 ids)
    by (unfold model_numel; by rewrite Hnum).
  assert (Hts : forall i t, data_tensors m ids !! i = Some t ->
            exists p, t = view_at fp (slice_start m0 ids i) (p_shape p) /\
                      slice_start m0 ids i + numel_of (p_shape p)
                      <= model_numel m0 ids).
  { intros i t Ht.
    assert (Hi : i < length ids).
    { apply lookup_lt_Some in Ht.
      rewrite <- (length_fmap numel), numel_data_tensors, length_fmap in Ht;
        done. }
    destruct (lookup_lt_is_Some_2 _ _ Hi) as [id Hid].
    destruct (Hat i id Hid) as (p & Hp & Hq).
    rewrite (data_tensors_lookup m ids i id _ Hvalid Hid Hq) in Ht.
    injection Ht as <-. exists p. split; [done|].
    destruct (slices_tile m0 ids) as (Hinside & _).
    rewrite <- (slice_size_numel m0 ids i id p Hid Hp).
    by apply Hinside. }
  assert (Hvs : forallb (valid h) (data_tensors m ids) = true).
  { apply forallb_forall. intros t Hin. apply list_elem_of_In in Hin.
    apply list_elem_of_lookup_1 in Hin as (i & Hi).
    destruct (Hts i t Hi) as (p & -> & Hfit).
    apply valid_window; [done|lia]. }
  split; [done|]. split; [done|]. split; [done|].
  rewrite (flattened_windows h fp); [|  |done|done|].
  - rewrite numel_data_tensors by done. rewrite Hnum.
    fold (model_numel m0 ids). rewrite <- Hn.
    apply take_ge. by rewrite length_contents.
  - intros i t Ht. destruct (Hts i t Ht) as (p & -> & Hfit).
    rewrite numel_data_tensors, Hnum by done.
    fold (slice_start m0 ids i).
    apply (contents_window h fp). lia.
  - rewrite numel_data_tensors, Hnum by done.
    fold (model_numel m0 ids). lia.
Qed.

(** X22. The flat parameter buffer is the replica's parameters end to end:
    in every state reached after construction in which the parameter
    objects are as construction left them, [model_parameters] of a
    replica that has parameters returns a tensor that holds exactly the
    elements of that replica's flat parameter buffer, in a storage other
    than the buffer's (a copy, which later writes to the buffer do not
    reach). *)
Theorem model_parameters_reads_flat_buffer (mg1 mg2 : model_gen) (bs : Z)
    (ssz nsp sm : pyobj) (c1 c2 : comm) (ldl crit opt : pyobj) (pts : Z)
    (async : bool) (repl : Z) (w : world) :
  Forall (fun id => id < length (m_params (w_mem w)))
         (models mg1 ++ models mg2) ->
  NoDup (models mg1 ++ models mg2) ->
  exists self w',
    init mg1 mg2 bs ssz nsp sm c1 c2 ldl crit opt pts async repl w
      = (Ok self, w') /\
    forall (mg : model_gen) (flat : tensor) (w2 : world),
      (mg, flat) = (mg1, flat_params_model1 self) \/
      (mg, flat) = (mg2, flat_params_model2 self) ->
      m_params (w_mem w2) = m_params (w_mem w') ->
      valid (m_heap (w_mem w2)) flat = true ->
      models mg <> [] ->
      exists back w3,
        model_parameters mg w2 = (Ok (Some back), w3) /\
        contents (m_heap (w_mem w3)) back
          = contents (m_heap (w_mem w2)) flat /\
        t_shape back = t_shape flat /\
        t_storage back <> t_storage flat.
Proof.
  intros Hvalid Hnd.
  destruct (init_spec mg1 mg2 bs ssz nsp sm c1 c2 ldl crit opt pts async repl
              w Hvalid Hnd)
    as (self & w' & Hrun & _ & _ & _ & _ & _ & _ & Hn1 & Hn2 & Hfp1 & Hfp2
        & Hfg1 & Hfg2 & _ & _ & Hl1 & Hl2 & _).
  cbv zeta in *. apply Forall_app in Hvalid as [Hvalid1 Hvalid2].
  exists self, w'. split; [done|].
  intros mg flat w2 Hwhich Hps Hvf Hne.
  assert (Hfacts : exists fg,
             laid_out (w_mem w) (w_mem w2) (models mg) flat fg /\
             Forall (fun id => id < length (m_params (w_mem w))) (models mg) /\
             t_shape flat = [model_numel (w_mem w) (models mg)]).
  { destruct Hwhich as [[= -> ->]|[= -> ->]].
    - eexists. split; [|split; [done|by rewrite Hfp1]].
      intros i id p Hi Hp. rewrite Hps, Hfp1. by apply Hl1.
    - eexists. split; [|split; [done|by rewrite Hfp2]].
      intros i id p Hi Hp. rewrite Hps, Hfp2. by apply Hl2. }
  destruct Hfacts as (fg & Hl & Hv0 & Hshape).
  destruct (laid_out_facts _ _ _ _ _ _ Hl Hv0 Hshape Hvf)
    as (Hv2 & Hmn & Hvs & Hflat).
  destruct (gather_loop (length (m_heap (w_mem w2))) (models mg) None [] w2
              Hv2 Hvs (Nat.le_refl _) eq_refl)
    as (acc' & extra & Hgo & Hres).
  destruct acc' as [back|]; [|by destruct Hres as (_ & ? & _)].
  destruct Hres as ((Hbv & Hbsh & _ & _ & Hbb & Hbc) & _).
  cbn [app] in Hbsh, Hbc.
  exists back. eexists. split; [exact Hgo|]. cbn [w_mem m_heap].
  split; [by rewrite Hbc|]. split.
  - rewrite Hbsh, Hflat, length_contents, Hshape by done.
    unfold numel. rewrite Hshape. by rewrite numel_of_flat.
  - pose proof (valid_lt _ _ Hvf). lia.
Qed.

(** X23. Copying the flat parameter buffer onto the parameters that alias
    it changes nothing: in every state reached after construction in
    which the parameter objects are as construction left them,
    [update_model_paramters] given a replica and its own flat parameter
    buffer returns and leaves heap, parameter objects and trace as they
    were. *)
Theorem update_from_own_flat_buffer (mg1 mg2 : model_gen) (bs : Z)
    (ssz nsp sm : pyobj) (c1 c2 : comm) (ldl crit opt : pyobj) (pts : Z)
    (async : bool) (repl : Z) (w : world) :
  Forall (fun id => id < length (m_params (w_mem w)))
         (models mg1 ++ models mg2) ->
  NoDup (models mg1 ++ models mg2) ->
  exists self w',
    init mg1 mg2 bs ssz nsp sm c1 c2 ldl crit opt pts async repl w
      = (Ok self, w') /\
    forall (mg : model_gen) (flat : tensor) (w2 : world),
      (mg, flat) = (mg1, flat_params_model1 self) \/
      (mg, flat) = (mg2, flat_params_model2 self) ->
      m_params (w_mem w2) = m_params (w_mem w') ->
      valid (m_heap (w_mem w2)) flat = true ->
      update_model_paramters mg (Some flat) w2 = (Ok tt, w2).
Proof.
  intros Hvalid Hnd.
  destruct (init_spec mg1 mg2 bs ssz nsp sm c1 c2 ldl crit opt pts async repl
              w Hvalid Hnd)
    as (self & w' & Hrun & _ & _ & _ & _ & _ & _ & Hn1 & Hn2 & Hfp1 & Hfp2
        & Hfg1 & Hfg2 & _ & _ & Hl1 & Hl2 & _).
  cbv zeta in *. apply Forall_app in Hvalid as [Hvalid1 Hvalid2].
  exists self, w'. split; [done|].
  intros mg flat w2 Hwhich Hps Hvf.
  assert (Hfacts : exists fg,
             laid_out (w_mem w) (w_mem w2) (models mg) flat fg /\
             Forall (fun id => id < length (m_params (w_mem w))) (models mg) /\
             t_shape flat = [model_numel (w_mem w) (models mg)]).
  { destruct Hwhich as [[= -> ->]|[= -> ->]].
    - eexists. split; [|split; [done|by rewrite Hfp1]].
      intros i id p Hi Hp. rewrite Hps, Hfp1. by apply Hl1.
    - eexists. split; [|split; [done|by rewrite Hfp2]].
      intros i id p Hi Hp. rewrite Hps, Hfp2. by apply Hl2. }
  destruct Hfacts as (fg & Hl & Hv0 & Hshape).
  destruct (laid_out_facts _ _ _ _ _ _ Hl Hv0 Hshape Hvf)
    as (Hv2 & Hmn & Hvs & Hflat).
  rewrite (update_model_paramters_run mg flat _ w2 Hshape Hv2) by lia.
  rewrite (scatter_same flat _ (m_heap (w_mem w2)) [] []); [| done | |done].
  - by destruct w2 as [[] ?].
  - by rewrite Hflat, app_nil_r.
Qed.

End FlatBufferCopies.

(** ** Further worked instances *)

(** X1 on an image size that is no power of two, and on an empty list. *)
Lemma verify_spatial_master_config_check_order_witness :
  Demo.verify_spatial_config "square" 1000 [4; 4]%Z
    = Raise (AssertionError "Image size should be power of Two") /\
  verify_spatial_master_config Demo.verify_spatial_config "square" 1000
    [4; 4]%Z 1 2
    = Raise (AssertionError "Image size should be power of Two") /\
  verify_spatial_master_config Demo.verify_spatial_config "square" 1024
    [] 1 8
    = Raise IndexError.
Proof.
  destruct (verify_spatial_master_config_check_order Demo.verify_spatial_config)
    as [Hempty Hfail].
  split; [reflexivity|]. split.
  - exact (Hfail "square"%string 1000%Z 4%Z [4%Z] 1%Z 2%Z _ eq_refl).
  - exact (Hempty "square"%string 1024%Z 1%Z 8%Z).
Defined.

(** X2 from a group of 8 to a group of 16. *)
Lemma verify_spatial_master_config_monotone_witness :
  verify_spatial_master_config Demo.verify_spatial_config "square" 1024
    [4; 4]%Z 1 8 = Ok tt /\
  (8 <= 16)%Z /\
  verify_spatial_master_config Demo.verify_spatial_config "square" 1024
    [4; 4]%Z 2 16 = Ok tt.
Proof.
  split; [reflexivity|]. split; [lia|].
  apply (verify_spatial_master_config_monotone Demo.verify_spatial_config
           "square" 1024 [4; 4]%Z 1 2 8 16); [reflexivity|lia].
Defined.

(** X3 for a buffer of 14 elements and a replica of 17. *)
Lemma aliasing_pass_buffer_too_short_witness :
  t_shape DemoCopies.short_buffer = [14] /\
  14 < @model_numel Demo.Z_scalar (w_mem (DemoCopies.copy_world 5))
         (models Demo.gen1) /\
  exists k ps_data ps_grad,
    k < 2 /\
    @update_model_params_loc Demo.Z_scalar (Demo.executor_stub 5)
      (models Demo.gen1) DemoCopies.short_buffer (DemoCopies.copy_world 5)
      = (Raise RuntimeError, with_params (DemoCopies.copy_world 5) ps_data) /\
    @update_model_grads_loc Demo.Z_scalar (Demo.executor_stub 5)
      (models Demo.gen1) DemoCopies.short_buffer (DemoCopies.copy_world 5)
      = (Raise RuntimeError, with_params (DemoCopies.copy_world 5) ps_grad).
Proof.
  assert (Hvalid : Forall (fun id => id < length
                     (m_params (w_mem (DemoCopies.copy_world 5))))
                     (models Demo.gen1))
    by (apply (bool_decide_unpack _); exact I).
  assert (Hnd : NoDup (models Demo.gen1))
    by (apply (bool_decide_unpack _); exact I).
  assert (Hn : 14 < @model_numel Demo.Z_scalar
                      (w_mem (DemoCopies.copy_world 5)) (models Demo.gen1))
    by (vm_compute; lia).
  split; [reflexivity|]. split; [exact Hn|].
  destruct (@aliasing_pass_buffer_too_short Demo.Z_scalar (Demo.executor_stub 5)
              (models Demo.gen1) DemoCopies.short_buffer 14
              (DemoCopies.copy_world 5) eq_refl Hvalid Hnd Hn)
    as (k & psd & psg & Hk & _ & Hd & Hg & _).
  exists k, psd, psg. split; [exact Hk|]. split; [exact Hd|exact Hg].
Defined.

(** X4 for a buffer of 17 elements and a replica of 17. *)
Lemma aliasing_pass_fits_witness :
  t_shape DemoCopies.numbered_buffer = [17] /\
  is_ok (@update_model_params_loc Demo.Z_scalar (Demo.executor_stub 5)
           (models Demo.gen1) DemoCopies.numbered_buffer
           (DemoCopies.copy_world 5)).1 = true /\
  m_heap (w_mem (@update_model_params_loc Demo.Z_scalar (Demo.executor_stub 5)
                   (models Demo.gen1) DemoCopies.numbered_buffer
                   (DemoCopies.copy_world 5)).2)
    = m_heap (w_mem (DemoCopies.copy_world 5)).
Proof.
  assert (Hvalid : Forall (fun id => id < length
                     (m_params (w_mem (DemoCopies.copy_world 5))))
                     (models Demo.gen1))
    by (apply (bool_decide_unpack _); exact I).
  assert (Hnd : NoDup (models Demo.gen1))
    by (apply (bool_decide_unpack _); exact I).
  split; [reflexivity|].
  destruct (@aliasing_pass_fits Demo.Z_scalar (Demo.executor_stub 5)
              (models Demo.gen1) DemoCopies.numbered_buffer 17
              (DemoCopies.copy_world 5) eq_refl Hvalid Hnd)
    as (Hok & _ & Hheap & _).
  split; [exact Hok|exact Hheap].
Defined.

(** X5 for the first parameter of the concrete driver, which held ones. *)
Lemma init_parameters_read_zero_witness :
  Forall (fun id => id < length (m_params Demo.memory0))
         (models Demo.gen1 ++ models Demo.gen2) /\
  NoDup (models Demo.gen1 ++ models Demo.gen2) /\
  exists self w' q g,
    Demo.build 5 0 2 = (Ok self, w') /\
    m_params (w_mem w') !! 0 = Some q /\ p_grad q = Some g /\
    t_shape (p_data q) = [3; 4] /\
    @contents Demo.Z_scalar (m_heap (w_mem w')) (p_data q) = replicate 12 0%Z /\
    @contents Demo.Z_scalar (m_heap (w_mem w')) g = replicate 12 0%Z.
Proof.
  assert (Hvalid : Forall (fun id => id < length (m_params Demo.memory0))
                          (models Demo.gen1 ++ models Demo.gen2))
    by (apply (bool_decide_unpack _); exact I).
  assert (Hnd : NoDup (models Demo.gen1 ++ models Demo.gen2))
    by (apply (bool_decide_unpack _); exact I).
  split; [exact Hvalid|]. split; [exact Hnd|].
  destruct (@init_parameters_read_zero Demo.Z_scalar (Demo.executor_stub 5)
              Demo.gen1 Demo.gen2 8 tt tt tt (Demo.first_comm 0)
              (Demo.second_comm 0) tt tt tt 2 true 1 (Demo.world0 5)
              Hvalid Hnd)
    as (self & w' & Hrun & _ & Hzero).
  assert (Hin : 0 ∈ models Demo.gen1 ++ models Demo.gen2)
    by (apply (bool_decide_unpack _); exact I).
  destruct (Hzero 0 (Demo.own 0 [3; 4]) Hin eq_refl)
    as (q & g & Hq & Hg & Hsq & _ & Hcq & Hcg).
  exists self, w', q, g. split; [exact Hrun|].
  split; [exact Hq|]. split; [exact Hg|]. split; [exact Hsq|].
  split; [exact Hcq|exact Hcg].
Defined.

(** X6 for the concrete driver. *)
Lemma init_sizes_agree_witness :
  Forall (fun id => id < length (m_params Demo.memory0))
         (models Demo.gen1 ++ models Demo.gen2) /\
  NoDup (models Demo.gen1 ++ models Demo.gen2) /\
  exists self w',
    Demo.build 5 0 2 = (Ok self, w') /\
    @get_model_parameter_size Demo.Z_scalar (Demo.executor_stub 5) Demo.gen1 w'
      = (Ok (model1_size self), w') /\
    numel (flat_params_model1 self) = model1_size self.
Proof.
  assert (Hvalid : Forall (fun id => id < length (m_params Demo.memory0))
                          (models Demo.gen1 ++ models Demo.gen2))
    by (apply (bool_decide_unpack _); exact I).
  assert (Hnd : NoDup (models Demo.gen1 ++ models Demo.gen2))
    by (apply (bool_decide_unpack _); exact I).
  split; [exact Hvalid|]. split; [exact Hnd|].
  destruct (@init_sizes_agree Demo.Z_scalar (Demo.executor_stub 5)
              Demo.gen1 Demo.gen2 8 tt tt tt (Demo.first_comm 0)
              (Demo.second_comm 0) tt tt tt 2 true 1 (Demo.world0 5)
              Hvalid Hnd)
    as (self & w' & Hrun & H1 & _ & Hn1 & _).
  exists self, w'. split; [exact Hrun|]. split; [exact H1|exact Hn1].
Defined.

(** X8 for the ranks 2 and 5 of a group of 8. *)
Lemma send_recv_params_pairing_witness :
  Z.even (mp_size (Demo.master_at 5 2 2)) = true /\
  mp_size (Demo.master_at 5 5 2) = mp_size (Demo.master_at 5 2 2) /\
  local_rank (Demo.master_at 5 5 2)
    = (mp_size (Demo.master_at 5 2 2) - 1 - local_rank (Demo.master_at 5 2 2))%Z /\
  omap (@route Demo.Z_scalar (Demo.executor_stub 5))
    (appended (Demo.world_at 5 2 2)
       (@send_recv_params Demo.Z_scalar (Demo.executor_stub 5) Demo.silent
          (Demo.master_at 5 2 2) false (Demo.world_at 5 2 2)).2)
    = [(Send, 5%Z, 0%Z); (Recv, 5%Z, 0%Z)] /\
  omap (@route Demo.Z_scalar (Demo.executor_stub 5))
    (appended (Demo.world_at 5 5 2)
       (@send_recv_params Demo.Z_scalar (Demo.executor_stub 5) Demo.silent
          (Demo.master_at 5 5 2) false (Demo.world_at 5 5 2)).2)
    = [(Recv, 2%Z, 0%Z); (Send, 2%Z, 0%Z)].
Proof.
  split; [reflexivity|]. split; [reflexivity|]. split; [reflexivity|].
  destruct (@send_recv_params_pairing Demo.Z_scalar (Demo.executor_stub 5)
              Demo.silent (Demo.master_at 5 2 2) (Demo.master_at 5 5 2)
              false false (Demo.world_at 5 2 2) (Demo.world_at 5 5 2)
              eq_refl eq_refl eq_refl eq_refl eq_refl)
    as (_ & _ & Hself & Hpeer).
  split; [exact Hself|exact Hpeer].
Defined.

(** X9 on rank 0, for the second parameter of the second replica. *)
Lemma send_recv_params_delivers_witness :
  @valid Demo.Z_scalar (m_heap (w_mem (Demo.world_at 5 0 2)))
    (flat_params_model2 (Demo.master_at 5 0 2)) = true /\
  exists w',
    @send_recv_params Demo.Z_scalar (Demo.executor_stub 5) Demo.counting
      (Demo.master_at 5 0 2) false (Demo.world_at 5 0 2) = (Ok tt, w') /\
    @contents Demo.Z_scalar (m_heap (w_mem w'))
      (view_at (flat_params_model2 (Demo.master_at 5 0 2)) 12 [5])
      = [32; 33; 34; 35; 36]%Z.
Proof.
  split; [reflexivity|].
  destruct (@send_recv_params_delivers Demo.Z_scalar (Demo.executor_stub 5)
              Demo.counting (Demo.master_at 5 0 2) false (Demo.world_at 5 0 2)
              eq_refl)
    as (w' & Hrun & _ & _ & Hwin & _).
  exists w'. split; [exact Hrun|].
  exact (Hwin 12 [5] ltac:(vm_compute; lia)).
Defined.

(** X10 for the concrete driver built with no micro-part. *)
Lemma run_step_allreduce_zero_parts_witness :
  parts (Demo.master_at 5 0 0) = 0%Z /\
  Demo.step 5 0 0 false = (Raise ZeroDivisionError, Demo.world_at 5 0 0).
Proof.
  split; [reflexivity|].
  exact (@run_step_allreduce_zero_parts Demo.Z_scalar (Demo.executor_stub 5)
           Demo.silent (Demo.master_at 5 0 0) Demo.inputs16 Demo.labels16
           false (Demo.world_at 5 0 0) eq_refl).
Defined.

(** X11 on rank 0. *)
Lemma run_step_allreduce_waits_witness :
  parts (Demo.master_at 5 0 2) <> 0%Z /\
  t_shape (flat_grads_model1 (Demo.master_at 5 0 2))
    = [model1_size (Demo.master_at 5 0 2)] /\
  t_shape (flat_grads_model2 (Demo.master_at 5 0 2))
    = [model2_size (Demo.master_at 5 0 2)] /\
  exists loss corrects m' new,
    Demo.step 5 0 2 false
      = (Ok (loss, corrects), {| w_mem := m'; w_trace := new |}) /\
    @waited Demo.Z_scalar (Demo.executor_stub 5) new
      = @issued Demo.Z_scalar (Demo.executor_stub 5) 0 new /\
    length (@waited Demo.Z_scalar (Demo.executor_stub 5) new) = 4.
Proof.
  assert (Hparts : parts (Demo.master_at 5 0 2) <> 0%Z) by discriminate.
  split; [exact Hparts|]. split; [reflexivity|]. split; [reflexivity|].
  destruct (@run_step_allreduce_waits Demo.Z_scalar (Demo.executor_stub 5)
              Demo.silent (Demo.master_at 5 0 2) Demo.inputs16 Demo.labels16
              false (Demo.world_at 5 0 2) Hparts eq_refl eq_refl)
    as (loss & corrects & m' & new & Hrun & Hw & Hl).
  exists loss, corrects, m', new. split; [exact Hrun|].
  split; [exact Hw|exact Hl].
Defined.

(** X12 on rank 7, whose partner is rank 0. *)
Lemma run_step_allreduce_transfers_witness :
  parts (Demo.master_at 5 7 2) <> 0%Z /\
  t_shape (flat_grads_model1 (Demo.master_at 5 7 2))
    = [model1_size (Demo.master_at 5 7 2)] /\
  t_shape (flat_grads_model2 (Demo.master_at 5 7 2))
    = [model2_size (Demo.master_at 5 7 2)] /\
  comm_local_rank (mpi_comm_first (Demo.master_at 5 7 2))
    = local_rank (Demo.master_at 5 7 2) /\
  exists loss corrects m' new fresh params grads,
    Demo.step 5 7 2 false
      = (Ok (loss, corrects), {| w_mem := m'; w_trace := new |}) /\
    omap (@transfer Demo.Z_scalar (Demo.executor_stub 5)) new
      = params ++ grads /\
    params ≡ₚ [(Send, flat_params_model1 (Demo.master_at 5 7 2), 0%Z, 0%Z);
               (Recv, flat_params_model2 (Demo.master_at 5 7 2), 0%Z, 0%Z)] /\
    grads ≡ₚ [(Send, flat_grads_model1 (Demo.master_at 5 7 2), 0%Z, 0%Z);
              (Recv, fresh, 0%Z, 0%Z)].
Proof.
  assert (Hparts : parts (Demo.master_at 5 7 2) <> 0%Z) by discriminate.
  split; [exact Hparts|]. split; [reflexivity|]. split; [reflexivity|].
  split; [reflexivity|].
  destruct (@run_step_allreduce_transfers Demo.Z_scalar (Demo.executor_stub 5)
              Demo.silent (Demo.master_at 5 7 2) Demo.inputs16 Demo.labels16
              false (Demo.world_at 5 7 2) Hparts eq_refl eq_refl eq_refl)
    as (loss & corrects & m' & new & fresh & params & grads & Hrun & Ht & Hp
        & Hg & _).
  exists loss, corrects, m', new, fresh, params, grads.
  split; [exact Hrun|]. split; [exact Ht|]. split; [exact Hp|exact Hg].
Defined.

(** X13 with 8 samples per replica and 9 micro-parts. *)
Lemma run_step_allreduce_empty_micro_parts_witness :
  (0 <= batch_size (Demo.master_at 5 0 9) < parts (Demo.master_at 5 0 9))%Z /\
  t_shape (flat_grads_model1 (Demo.master_at 5 0 9))
    = [model1_size (Demo.master_at 5 0 9)] /\
  t_shape (flat_grads_model2 (Demo.master_at 5 0 9))
    = [model2_size (Demo.master_at 5 0 9)] /\
  exists loss corrects m' new,
    Demo.step 5 0 9 false
      = (Ok (loss, corrects), {| w_mem := m'; w_trace := new |}) /\
    omap (@forward_call Demo.Z_scalar (Demo.executor_stub 5)) new
      = ((fun i => (TrainModel1, [], [], i)) <$> Py.range 9)
          ++ ((fun i => (TrainModel2, [], [], i)) <$> Py.range 9).
Proof.
  assert (Hsmall : (0 <= batch_size (Demo.master_at 5 0 9)
                    < parts (Demo.master_at 5 0 9))%Z)
    by (vm_compute; split; [discriminate|reflexivity]).
  split; [exact Hsmall|]. split; [reflexivity|]. split; [reflexivity|].
  destruct (@run_step_allreduce_empty_micro_parts Demo.Z_scalar
              (Demo.executor_stub 5) Demo.silent (Demo.master_at 5 0 9)
              Demo.inputs16 Demo.labels16 false (Demo.world_at 5 0 9)
              Hsmall eq_refl eq_refl)
    as (loss & corrects & m' & new & Hrun & Hcalls & _).
  exists loss, corrects, m', new. split; [exact Hrun|exact Hcalls].
Defined.

(** X14 with one replication: two calls, then the synchronization. *)
Lemma run_step_calls_witness :
  (replications (Demo.master_at 5 0 2) <= 1)%Z /\
  exists a b,
    s_log (@run_step Demo.Z_scalar (Demo.executor_stub 5)
             (DemoCopies.runner_stub 5) (Demo.master_at 5 0 2)
             Demo.inputs16 Demo.labels16 (DemoCopies.session0 5)).2
      = [a; b; DeviceSynchronize] /\
    omap (@run_call Demo.Z_scalar (Demo.executor_stub 5)) [a; b]
      = [(TrainModel1, Z.of_nat <$> seq 1 8, Z.of_nat <$> seq 1 8);
         (TrainModel2, Z.of_nat <$> seq 9 8, Z.of_nat <$> seq 9 8)].
Proof.
  assert (Hr : (replications (Demo.master_at 5 0 2) <= 1)%Z)
    by (vm_compute; discriminate).
  split; [exact Hr|].
  destruct (@run_step_calls Demo.Z_scalar (Demo.executor_stub 5)
              (DemoCopies.runner_stub 5) (Demo.master_at 5 0 2)
              Demo.inputs16 Demo.labels16 (DemoCopies.session0 5))
    as (a & b & rest & Hlog & _ & _ & Hcalls & _ & Hrest).
  rewrite (Hrest Hr) in Hlog, Hcalls.
  exists a, b. split; [exact Hlog|exact Hcalls].
Defined.

(** X16 with two replications and chunks of 4 samples. *)
Lemma run_step_chunks_witness :
  (0 <= batch_size (DemoCopies.replicated (Demo.master_at 5 0 2) 4 2))%Z /\
  length Demo.inputs16
    = Z.to_nat (2 * Z.max 1 (replications
                               (DemoCopies.replicated (Demo.master_at 5 0 2) 4 2))
                * batch_size (DemoCopies.replicated (Demo.master_at 5 0 2) 4 2)) /\
  let given :=
    omap (@run_call Demo.Z_scalar (Demo.executor_stub 5))
      (logged (DemoCopies.session0 5)
         (@run_step Demo.Z_scalar (Demo.executor_stub 5)
            (DemoCopies.runner_stub 5)
            (DemoCopies.replicated (Demo.master_at 5 0 2) 4 2)
            Demo.inputs16 Demo.labels16 (DemoCopies.session0 5)).2) in
  concat ((fun c => c.1.2) <$> given) = Demo.inputs16 /\
  Forall (fun c => length c.1.2 = 4) given.
Proof.
  assert (Hbs : (0 <= batch_size
                        (DemoCopies.replicated (Demo.master_at 5 0 2) 4 2))%Z)
    by (vm_compute; discriminate).
  split; [exact Hbs|]. split; [reflexivity|].
  destruct (@run_step_chunks Demo.Z_scalar (Demo.executor_stub 5)
              (DemoCopies.runner_stub 5)
              (DemoCopies.replicated (Demo.master_at 5 0 2) 4 2)
              Demo.inputs16 Demo.labels16 (DemoCopies.session0 5) Hbs)
    as (_ & _ & Hexact).
  exact (Hexact eq_refl).
Defined.

(** X17 for the first replica of the concrete driver. *)
Lemma model_parameters_flat_witness :
  Forall (fun id => id < length (m_params (w_mem (Demo.world0 5))))
         (models Demo.gen1) /\
  forallb (@valid Demo.Z_scalar (m_heap (w_mem (Demo.world0 5))))
    (@data_tensors Demo.Z_scalar (w_mem (Demo.world0 5)) (models Demo.gen1))
    = true /\
  exists flat w',
    @model_parameters Demo.Z_scalar (Demo.executor_stub 5) Demo.gen1
      (Demo.world0 5) = (Ok (Some flat), w') /\
    t_shape flat = [17] /\
    @contents Demo.Z_scalar (m_heap (w_mem w')) flat
      = replicate 12 1%Z ++ replicate 5 2%Z /\
    4 <= t_storage flat.
Proof.
  assert (Hvalid : Forall (fun id => id < length
                     (m_params (w_mem (Demo.world0 5)))) (models Demo.gen1))
    by (apply (bool_decide_unpack _); exact I).
  split; [exact Hvalid|]. split; [reflexivity|].
  destruct (@model_parameters_flat Demo.Z_scalar (Demo.executor_stub 5)
              Demo.gen1 (Demo.world0 5) Hvalid eq_refl)
    as ([flat|] & w' & Hrun & _ & _ & _ & Hres).
  - destruct Hres as (_ & Hfresh & Hshape & _ & _ & Hc).
    exists flat, w'. split; [exact Hrun|]. split; [exact Hshape|].
    split; [exact Hc|exact Hfresh].
  - destruct Hres as (Hnil & _). discriminate Hnil.
Defined.

(** X18 from a buffer that holds the numbers 0 to 16. *)
Lemma update_model_paramters_copies_witness :
  t_shape DemoCopies.numbered_buffer = [17] /\
  @valid Demo.Z_scalar (m_heap (w_mem (DemoCopies.copy_world 5)))
    DemoCopies.numbered_buffer = true /\
  @separate
    (@data_tensors Demo.Z_scalar (w_mem (DemoCopies.copy_world 5))
       (models Demo.gen1)) = true /\
  forallb (fun t => disjoint t DemoCopies.numbered_buffer)
    (@data_tensors Demo.Z_scalar (w_mem (DemoCopies.copy_world 5))
       (models Demo.gen1)) = true /\
  exists w',
    @update_model_paramters Demo.Z_scalar (Demo.executor_stub 5) Demo.gen1
      (Some DemoCopies.numbered_buffer) (DemoCopies.copy_world 5)
      = (Ok tt, w') /\
    @contents Demo.Z_scalar (m_heap (w_mem w')) (p_data (Demo.own 1 [5]))
      = [12; 13; 14; 15; 16]%Z /\
    @contents Demo.Z_scalar (m_heap (w_mem w')) (p_data (Demo.own 2 [3; 4]))
      = replicate 12 3%Z.
Proof.
  assert (Hvalid : Forall (fun id => id < length
                     (m_params (w_mem (DemoCopies.copy_world 5))))
                     (models Demo.gen1))
    by (apply (bool_decide_unpack _); exact I).
  split; [reflexivity|]. split; [reflexivity|]. split; [reflexivity|].
  split; [reflexivity|].
  destruct (@update_model_paramters_copies Demo.Z_scalar (Demo.executor_stub 5)
              Demo.gen1 DemoCopies.numbered_buffer 17
              (DemoCopies.copy_world 5) eq_refl eq_refl Hvalid
              ltac:(vm_compute; lia) eq_refl eq_refl eq_refl)
    as (w' & Hrun & _ & _ & Hcopy & _ & Hother).
  exists w'. split; [exact Hrun|]. split.
  - exact (Hcopy 1 1 (Demo.own 1 [5]) eq_refl eq_refl).
  - exact (Hother (p_data (Demo.own 2 [3; 4])) eq_refl).
Defined.

(** X19 for the first replica of the concrete driver. *)
Lemma update_after_model_parameters_witness :
  Forall (fun id => id < length (m_params (w_mem (Demo.world0 5))))
         (models Demo.gen1) /\
  forallb (@valid Demo.Z_scalar (m_heap (w_mem (Demo.world0 5))))
    (@data_tensors Demo.Z_scalar (w_mem (Demo.world0 5)) (models Demo.gen1))
    = true /\
  exists flat w1,
    @model_parameters Demo.Z_scalar (Demo.executor_stub 5) Demo.gen1
      (Demo.world0 5) = (Ok flat, w1) /\
    @update_model_paramters Demo.Z_scalar (Demo.executor_stub 5) Demo.gen1
      flat w1 = (Ok tt, w1) /\
    @contents Demo.Z_scalar (m_heap (w_mem w1)) (p_data (Demo.own 0 [3; 4]))
      = replicate 12 1%Z.
Proof.
  assert (Hvalid : Forall (fun id => id < length
                     (m_params (w_mem (Demo.world0 5)))) (models Demo.gen1))
    by (apply (bool_decide_unpack _); exact I).
  split; [exact Hvalid|]. split; [reflexivity|].
  destruct (@update_after_model_parameters Demo.Z_scalar (Demo.executor_stub 5)
              Demo.gen1 (Demo.world0 5) Hvalid eq_refl)
    as (flat & w1 & Hread & Hwrite & Hkeep).
  exists flat, w1. split; [exact Hread|]. split; [exact Hwrite|].
  exact (Hkeep (p_data (Demo.own 0 [3; 4])) eq_refl).
Defined.

(** X20 from a buffer that holds the numbers 0 to 16. *)
Lemma model_parameters_after_update_witness :
  models Demo.gen1 <> [] /\
  t_shape DemoCopies.numbered_buffer = [17] /\
  exists w1 back w2,
    @update_model_paramters Demo.Z_scalar (Demo.executor_stub 5) Demo.gen1
      (Some DemoCopies.numbered_buffer) (DemoCopies.copy_world 5)
      = (Ok tt, w1) /\
    @model_parameters Demo.Z_scalar (Demo.executor_stub 5) Demo.gen1 w1
      = (Ok (Some back), w2) /\
    @contents Demo.Z_scalar (m_heap (w_mem w2)) back = DemoCopies.numbered.
Proof.
  assert (Hne : models Demo.gen1 <> []) by discriminate.
  assert (Hvalid : Forall (fun id => id < length
                     (m_params (w_mem (DemoCopies.copy_world 5))))
                     (models Demo.gen1))
    by (apply (bool_decide_unpack _); exact I).
  split; [exact Hne|]. split; [reflexivity|].
  destruct (@model_parameters_after_update Demo.Z_scalar (Demo.executor_stub 5)
              Demo.gen1 DemoCopies.numbered_buffer 17
              (DemoCopies.copy_world 5) Hne eq_refl eq_refl Hvalid
              ltac:(vm_compute; lia) eq_refl eq_refl eq_refl)
    as (w1 & back & w2 & Hwrite & Hread & _ & Hc).
  exists w1, back, w2. split; [exact Hwrite|]. split; [exact Hread|exact Hc].
Defined.

(** X21 with [None] and with a buffer of 14 elements. *)
Lemma update_model_paramters_unusable_witness :
  Forall (fun id => id < length (m_params (w_mem (DemoCopies.copy_world 5))))
         (models Demo.gen1) /\
  models Demo.gen1 <> [] /\
  t_shape DemoCopies.short_buffer = [14] /\
  14 < @model_numel Demo.Z_scalar (w_mem (DemoCopies.copy_world 5))
         (models Demo.gen1) /\
  @update_model_paramters Demo.Z_scalar (Demo.executor_stub 5) Demo.gen1
    None (DemoCopies.copy_world 5)
    = (Raise TypeError, DemoCopies.copy_world 5) /\
  exists w',
    @update_model_paramters Demo.Z_scalar (Demo.executor_stub 5) Demo.gen1
      (Some DemoCopies.short_buffer) (DemoCopies.copy_world 5)
      = (Raise RuntimeError, w').
Proof.
  assert (Hvalid : Forall (fun id => id < length
                     (m_params (w_mem (DemoCopies.copy_world 5))))
                     (models Demo.gen1))
    by (apply (bool_decide_unpack _); exact I).
  assert (Hne : models Demo.gen1 <> []) by discriminate.
  assert (Hn : 14 < @model_numel Demo.Z_scalar
                      (w_mem (DemoCopies.copy_world 5)) (models Demo.gen1))
    by (vm_compute; lia).
  split; [exact Hvalid|]. split; [exact Hne|]. split; [reflexivity|].
  split; [exact Hn|].
  destruct (@update_model_paramters_unusable Demo.Z_scalar
              (Demo.executor_stub 5) Demo.gen1 (DemoCopies.copy_world 5) Hvalid)
    as (Hnone & Hshort).
  split; [exact (Hnone Hne)|].
  destruct (Hshort DemoCopies.short_buffer 14 eq_refl Hn) as (k & _ & _ & Hrun).
  eexists. exact Hrun.
Defined.

(** X22 right after construction, for the second replica. *)
Lemma model_parameters_reads_flat_buffer_witness :
  Forall (fun id => id < length (m_params Demo.memory0))
         (models Demo.gen1 ++ models Demo.gen2) /\
  NoDup (models Demo.gen1 ++ models Demo.gen2) /\
  exists back w3,
    @model_parameters Demo.Z_scalar (Demo.executor_stub 5) Demo.gen2
      (Demo.world_at 5 0 2) = (Ok (Some back), w3) /\
    @contents Demo.Z_scalar (m_heap (w_mem w3)) back
      = @contents Demo.Z_scalar (m_heap (w_mem (Demo.world_at 5 0 2)))
          (flat_params_model2 (Demo.master_at 5 0 2)) /\
    t_storage back <> t_storage (flat_params_model2 (Demo.master_at 5 0 2)).
Proof.
  assert (Hvalid : Forall (fun id => id < length (m_params Demo.memory0))
                          (models Demo.gen1 ++ models Demo.gen2))
    by (apply (bool_decide_unpack _); exact I).
  assert (Hnd : NoDup (models Demo.gen1 ++ models Demo.gen2))
    by (apply (bool_decide_unpack _); exact I).
  split; [exact Hvalid|]. split; [exact Hnd|].
  destruct (@model_parameters_reads_flat_buffer Demo.Z_scalar
              (Demo.executor_stub 5) Demo.gen1 Demo.gen2 8 tt tt tt
              (Demo.first_comm 0) (Demo.second_comm 0) tt tt tt 2 true 1
              (Demo.world0 5) Hvalid Hnd)
    as (self & w' & Hrun & Hall).
  assert (Heq : (Ok self, w')
                = (Ok (Demo.master_at 5 0 2), Demo.world_at 5 0 2))
    by (rewrite <- Hrun; reflexivity).
  injection Heq as -> ->.
  destruct (Hall Demo.gen2 (flat_params_model2 (Demo.master_at 5 0 2))
              (Demo.world_at 5 0 2) (or_intror eq_refl) eq_refl eq_refl
              ltac:(discriminate))
    as (back & w3 & Hread & Hc & _ & Hfresh).
  exists back, w3. split; [exact Hread|]. split; [exact Hc|exact Hfresh].
Defined.

(** X23 right after construction, for the first replica. *)
Lemma update_from_own_flat_buffer_witness :
  Forall (fun id => id < length (m_params Demo.memory0))
         (models Demo.gen1 ++ models Demo.gen2) /\
  NoDup (models Demo.gen1 ++ models Demo.gen2) /\
  @update_model_paramters Demo.Z_scalar (Demo.executor_stub 5) Demo.gen1
    (Some (flat_params_model1 (Demo.master_at 5 0 2))) (Demo.world_at 5 0 2)
    = (Ok tt, Demo.world_at 5 0 2).
Proof.
  assert (Hvalid : Forall (fun id => id < length (m_params Demo.memory0))
                          (models Demo.gen1 ++ models Demo.gen2))
    by (apply (bool_decide_unpack _); exact I).
  assert (Hnd : NoDup (models Demo.gen1 ++ models Demo.gen2))
    by (apply (bool_decide_unpack _); exact I).
  split; [exact Hvalid|]. split; [exact Hnd|].
  destruct (@update_from_own_flat_buffer Demo.Z_scalar
              (Demo.executor_stub 5) Demo.gen1 Demo.gen2 8 tt tt tt
              (Demo.first_comm 0) (Demo.second_comm 0) tt tt tt 2 true 1
              (Demo.world0 5) Hvalid Hnd)
    as (self & w' & Hrun & Hall).
  assert (Heq : (Ok self, w')
                = (Ok (Demo.master_at 5 0 2), Demo.world_at 5 0 2))
    by (rewrite <- Hrun; reflexivity).
  injection Heq as -> ->.
  exact (Hall Demo.gen1 (flat_params_model1 (Demo.master_at 5 0 2))
           (Demo.world_at 5 0 2) (or_introl eq_refl) eq_refl eq_refl).
Defined.
